(** * libfm file templates (src/base/fm-templates.c)

    A shallow embedding of the template registry: the per-directory entry
    lists, the per-template contribution chains, the global list of
    templates, reference counting of [FmTemplate] objects, and the file
    creation action.

    Memory is modelled by three stores indexed by address.  The intrusive
    linked lists of the C code ([next_in_dir]/[prev_in_dir], [next_in_templ],
    [FmTemplateDir.next], the [GList] of templates) are kept as lists of
    addresses: the head pointer is the first element, [NULL] is the empty
    list.  A dereference of [NULL] or of a freed object is a [Fault], and so
    are the use of a pointer that was never assigned and a second
    [G_LOCK (templates)] by the thread that holds the lock. *)

From Stdlib Require Import Sorting.Sorted Ascii.
From stdpp Require Import gmap strings list.

Open Scope string_scope.
Open Scope list_scope.
Open Scope nat_scope.

(** ** Strings *)

Definition g_str_has_suffix (s suffix : string) : bool :=
  let n := String.length s in
  let k := String.length suffix in
  (k <=? n)%nat && String.eqb (String.substring (n - k) k s) suffix.

(** [s[0] == '/'] *)
Definition is_absolute (s : string) : bool :=
  match s with
  | String c _ => Ascii.eqb c "/"%char
  | EmptyString => false
  end.

(** Text after the last ['/'] of [s] ([acc] is the text since the last one
    seen so far). *)
Fixpoint last_component (s acc : string) : string :=
  match s with
  | EmptyString => acc
  | String c s' =>
      if Ascii.eqb c "/"%char then last_component s' EmptyString
      else last_component s' (acc +:+ String c EmptyString)
  end.

(** Text before the last ['/'] of [s]. *)
Definition dirname (s : string) : string :=
  String.substring 0 (String.length s - String.length (last_component s "") - 1) s.

(** ** Paths, MIME types, icons *)

(** Modelled from the spec: [FmPath], [FmMimeType], [FmIcon] (fm-path.h,
    fm-mime-type.h, fm-icon.h) and GIO's [GFile] are declared outside
    fm-templates.c.  A path is kept as its string form.  MIME types and
    icons are interned by name ([fm_mime_type_from_name],
    [fm_icon_from_name]), so the pointer comparisons of the code are
    comparisons of names. *)
Definition FmPath := string.
Definition FmMimeType := string.
Definition FmIcon := string.
Definition GFile := string.

(** Modelled from the spec: the operations of fm-path.c and of [GFile] that
    fm-templates.c calls, on the string form of a path.  A child or a
    relative path is its parent, a separator and the name. *)
Definition fm_path_new_for_str (s : string) : FmPath := s.
Definition fm_path_new_child (parent : FmPath) (basename : string) : FmPath :=
  parent +:+ "/" +:+ basename.
Definition fm_path_new_relative (parent : FmPath) (rel : string) : FmPath :=
  parent +:+ "/" +:+ rel.
Definition fm_path_to_str (p : FmPath) : string := p.
Definition fm_path_get_basename (p : FmPath) : string := last_component p "".
Definition fm_path_get_parent (p : FmPath) : FmPath := dirname p.
Definition fm_path_equal (p q : FmPath) : bool := String.eqb p q.
Definition fm_path_to_gfile (p : FmPath) : GFile := p.
Definition g_file_get_basename (gf : GFile) : string := last_component gf "".
Definition g_file_equal (a b : GFile) : bool := String.eqb a b.

(** Addresses of the objects the code allocates. *)
Definition addr := nat.

(** ** The environment

    Everything the code asks of GLib, GIO and the file system.  A handler
    runs against one snapshot of the environment. *)

(** The keys of the [Desktop Entry] group that the code reads.
    [g_key_file_get_string] gives [NULL] for a missing key,
    [g_key_file_get_boolean] gives [FALSE]. *)
Record GKeyFile := {
  kf_Type : option string;
  kf_MimeType : option string;
  kf_URL : option string;
  kf_Icon : option string;
  kf_Exec : option string;
  kf_Name : option string;
  kf_Comment : option string;
  kf_Hidden : bool;
}.

Inductive GLogLevel := LOG_ERROR | LOG_CRITICAL | LOG_WARNING | LOG_DEBUG.

Inductive GErrorCode := G_IO_ERROR_FAILED | G_IO_ERROR_NOT_FOUND | G_IO_ERROR_OTHER.

#[global] Instance GErrorCode_eq_dec : EqDecision GErrorCode.
Proof. solve_decision. Defined.

Record GError := {
  domain_is_io : bool;   (* [domain == G_IO_ERROR] *)
  code : GErrorCode;
}.

Definition GAppInfo := string.

Record World := {
  (* [g_key_file_load_from_file]: [None] when loading fails *)
  key_file_load : string → option GKeyFile;
  (* [g_content_type_guess (basename, NULL, 0, &uncertain)] *)
  content_type_guess : string → option string * bool;
  (* [stat]: [None] when it fails, else whether the file is a directory *)
  stat_is_dir : string → option bool;
  (* levels made fatal with [g_log_set_always_fatal] or [G_DEBUG] *)
  log_fatal : GLogLevel → bool;
  (* what [g_slice_new] leaves, at the address it returns, in a bit-field
     that is never assigned *)
  slice_junk : addr → bool;
  (* [g_app_info_create_from_commandline] *)
  app_from_commandline : string → GAppInfo + GError;
  (* [g_app_info_get_default_for_type] *)
  app_default_for_type : FmMimeType → option GAppInfo;
  (* [g_file_copy] from an existing [GFile] source: [None] is success *)
  file_copy : GFile → GFile → option GError;
  (* [g_app_info_launch] on one file: [None] is success *)
  app_launch : GAppInfo → GFile → option GError;
  (* [g_get_system_data_dirs], [g_get_user_data_dir],
     [g_get_user_special_dir (G_USER_DIRECTORY_TEMPLATES)], [fm_path_get_home] *)
  system_data_dirs : list string;
  user_data_dir : string;
  user_special_dir_templates : option string;
  home : FmPath;
  (* [g_file_query_exists] *)
  file_query_exists : GFile → bool;
  (* [fm_monitor_directory]: whether a monitor could be created *)
  monitor_directory : GFile → bool;
}.

(** ** Data model *)

Record FmTemplate := {
  ref_count : nat;                 (* [GObject parent] *)
  files : list addr;               (* chain through [next_in_templ] *)
  mime_type : FmMimeType;
  template_file : option FmPath;
  icon : option FmIcon;
  command : option string;
  prompt : option string;
  label : option string;
}.

Record FmTemplateFile := {
  dir : addr;
  templ : addr;
  path : FmPath;
  is_desktop_entry : bool;
  inactive : bool;
}.

Record FmTemplateDir := {
  dir_files : list addr;           (* list through [next_in_dir] *)
  dir_path : FmPath;
  monitor : bool;                  (* whether a [GFileMonitor] is attached *)
  user_dir : bool;
}.

Record State := {
  templates : list addr;           (* [static GList *templates] *)
  templates_dirs : list addr;      (* [static FmTemplateDir *templates_dirs] *)
  template_heap : gmap addr FmTemplate;
  file_heap : gmap addr FmTemplateFile;
  dir_heap : gmap addr FmTemplateDir;
  next_free : addr;                (* next address the allocator hands out *)
  log : list (GLogLevel * string);
}.

Definition empty_state : State :=
  {| templates := []; templates_dirs := []; template_heap := ∅;
     file_heap := ∅; dir_heap := ∅; next_free := 0; log := [] |}.

(** Field updates. *)

Definition with_templates (l : list addr) (s : State) : State :=
  {| templates := l; templates_dirs := templates_dirs s;
     template_heap := template_heap s; file_heap := file_heap s;
     dir_heap := dir_heap s; next_free := next_free s; log := log s |}.
Definition with_templates_dirs (l : list addr) (s : State) : State :=
  {| templates := templates s; templates_dirs := l;
     template_heap := template_heap s; file_heap := file_heap s;
     dir_heap := dir_heap s; next_free := next_free s; log := log s |}.
Definition with_template_heap (h : gmap addr FmTemplate) (s : State) : State :=
  {| templates := templates s; templates_dirs := templates_dirs s;
     template_heap := h; file_heap := file_heap s;
     dir_heap := dir_heap s; next_free := next_free s; log := log s |}.
Definition with_file_heap (h : gmap addr FmTemplateFile) (s : State) : State :=
  {| templates := templates s; templates_dirs := templates_dirs s;
     template_heap := template_heap s; file_heap := h;
     dir_heap := dir_heap s; next_free := next_free s; log := log s |}.
Definition with_dir_heap (h : gmap addr FmTemplateDir) (s : State) : State :=
  {| templates := templates s; templates_dirs := templates_dirs s;
     template_heap := template_heap s; file_heap := file_heap s;
     dir_heap := h; next_free := next_free s; log := log s |}.
Definition with_next_free (n : addr) (s : State) : State :=
  {| templates := templates s; templates_dirs := templates_dirs s;
     template_heap := template_heap s; file_heap := file_heap s;
     dir_heap := dir_heap s; next_free := n; log := log s |}.
Definition with_log (l : list (GLogLevel * string)) (s : State) : State :=
  {| templates := templates s; templates_dirs := templates_dirs s;
     template_heap := template_heap s; file_heap := file_heap s;
     dir_heap := dir_heap s; next_free := next_free s; log := l |}.

Definition with_ref_count (n : nat) (t : FmTemplate) : FmTemplate :=
  {| ref_count := n; files := files t; mime_type := mime_type t;
     template_file := template_file t; icon := icon t; command := command t;
     prompt := prompt t; label := label t |}.
Definition with_files (l : list addr) (t : FmTemplate) : FmTemplate :=
  {| ref_count := ref_count t; files := l; mime_type := mime_type t;
     template_file := template_file t; icon := icon t; command := command t;
     prompt := prompt t; label := label t |}.
Definition with_template_file (p : option FmPath) (t : FmTemplate) : FmTemplate :=
  {| ref_count := ref_count t; files := files t; mime_type := mime_type t;
     template_file := p; icon := icon t; command := command t;
     prompt := prompt t; label := label t |}.
Definition with_icon (i : option FmIcon) (t : FmTemplate) : FmTemplate :=
  {| ref_count := ref_count t; files := files t; mime_type := mime_type t;
     template_file := template_file t; icon := i; command := command t;
     prompt := prompt t; label := label t |}.
Definition with_command (c : option string) (t : FmTemplate) : FmTemplate :=
  {| ref_count := ref_count t; files := files t; mime_type := mime_type t;
     template_file := template_file t; icon := icon t; command := c;
     prompt := prompt t; label := label t |}.
Definition with_prompt (p : option string) (t : FmTemplate) : FmTemplate :=
  {| ref_count := ref_count t; files := files t; mime_type := mime_type t;
     template_file := template_file t; icon := icon t; command := command t;
     prompt := p; label := label t |}.
Definition with_label (l : option string) (t : FmTemplate) : FmTemplate :=
  {| ref_count := ref_count t; files := files t; mime_type := mime_type t;
     template_file := template_file t; icon := icon t; command := command t;
     prompt := prompt t; label := l |}.

Definition with_inactive (b : bool) (f : FmTemplateFile) : FmTemplateFile :=
  {| dir := dir f; templ := templ f; path := path f;
     is_desktop_entry := is_desktop_entry f; inactive := b |}.

Definition with_dir_files (l : list addr) (d : FmTemplateDir) : FmTemplateDir :=
  {| dir_files := l; dir_path := dir_path d; monitor := monitor d;
     user_dir := user_dir d |}.

(** ** Outcomes and the handler monad *)

Inductive fault :=
  | NullDeref                (* dereference of [NULL] *)
  | Dangling (a : addr)      (* dereference of an address that is not allocated *)
  | Uninit                   (* use of a pointer variable that was never assigned *)
  | Relock.                  (* [G_LOCK] of a lock that the thread holds *)

Inductive outcome (A : Type) :=
  | Ok (a : A)
  | Fault (f : fault)        (* undefined behaviour *)
  | Abort (msg : string).    (* [g_error], or a log level made fatal *)
Arguments Ok {A} a.
Arguments Fault {A} f.
Arguments Abort {A} msg.

Definition M (A : Type) : Type := State → outcome (A * State).

#[global] Instance M_ret : MRet M := λ A a s, Ok (a, s).
#[global] Instance M_bind : MBind M := λ A B f m s,
  match m s with
  | Ok (a, s') => f a s'
  | Fault e => Fault e
  | Abort msg => Abort msg
  end.

Definition get : M State := λ s, Ok (s, s).
Definition modify (f : State → State) : M unit := λ s, Ok (tt, f s).
Definition raise {A} (e : fault) : M A := λ _, Fault e.

Definition get_templ (t : addr) : M FmTemplate := λ s,
  match template_heap s !! t with
  | Some r => Ok (r, s)
  | None => Fault (Dangling t)
  end.
Definition get_file (f : addr) : M FmTemplateFile := λ s,
  match file_heap s !! f with
  | Some r => Ok (r, s)
  | None => Fault (Dangling f)
  end.
Definition get_dir (d : addr) : M FmTemplateDir := λ s,
  match dir_heap s !! d with
  | Some r => Ok (r, s)
  | None => Fault (Dangling d)
  end.

(** A store through a pointer: the object has to be allocated. *)
Definition update_templ (t : addr) (f : FmTemplate → FmTemplate) : M unit :=
  r ← get_templ t;
  modify (λ s, with_template_heap (<[t := f r]> (template_heap s)) s).
Definition update_file (a : addr) (f : FmTemplateFile → FmTemplateFile) : M unit :=
  r ← get_file a;
  modify (λ s, with_file_heap (<[a := f r]> (file_heap s)) s).
Definition update_dir (d : addr) (f : FmTemplateDir → FmTemplateDir) : M unit :=
  r ← get_dir d;
  modify (λ s, with_dir_heap (<[d := f r]> (dir_heap s)) s).

(** [g_slice_new], [g_object_new]: a fresh address. *)
Definition alloc : M addr := λ s,
  Ok (next_free s, with_next_free (S (next_free s)) s).

(** [g_log] and its macros.  [G_LOG_LEVEL_ERROR] always aborts. *)
Definition g_log (w : World) (lvl : GLogLevel) (msg : string) : M unit := λ s,
  match lvl with
  | LOG_ERROR => Abort msg
  | _ => if log_fatal w lvl then Abort msg
         else Ok (tt, with_log ((lvl, msg) :: log s) s)
  end.
Definition g_error (w : World) := g_log w LOG_ERROR.
Definition g_critical (w : World) := g_log w LOG_CRITICAL.
Definition g_warning (w : World) := g_log w LOG_WARNING.
Definition g_debug (w : World) := g_log w LOG_DEBUG.

(** ** Reference counting and finalisation *)

Definition g_object_ref (t : addr) : M unit :=
  update_templ t (λ r, with_ref_count (S (ref_count r)) r).

(** Unlinking a node from a list drops its first (and only) occurrence. *)
Fixpoint unlink (a : addr) (l : list addr) : list addr :=
  match l with
  | [] => []
  | x :: l' => if decide (x = a) then l' else x :: unlink a l'
  end.

Definition g_list_remove (l : list addr) (data : addr) : list addr :=
  unlink data l.

(** The lock [templates] (line 83).  Handlers run one at a time, and every
    function of the file that takes the lock releases it before it returns
    or calls another one, but for [on_dir_changed], which holds it from
    line 491 to line 568.  So the lock is free wherever a function is
    entered from outside, and a [G_LOCK] there only succeeds; it is held
    in what [on_dir_changed] calls.  The functions that can be reached both
    ways take [held], which says whether the calling thread holds the lock.
    A [GMutex] is not recursive: locking it again is undefined. *)
Definition G_LOCK_templates (held : bool) : M unit :=
  if held then raise Relock else mret tt.

(** [fm_template_finalize] (lines 85-105).  The template leaves the global
    list here, when its last reference is dropped. *)
Definition fm_template_finalize (w : World) (held : bool) (object : addr)
    : M unit :=
  G_LOCK_templates held;;
  modify (λ s, with_templates (g_list_remove (templates s) object) s);;
  self ← get_templ object;
  match files self with
  | _ :: _ => g_error w "template reference failure"
  | [] => mret tt
  end;;
  modify (λ s, with_template_heap (delete object (template_heap s)) s).

(** [g_object_unref] of a template: the finalizer runs when the last
    reference goes. *)
Definition g_object_unref (w : World) (held : bool) (t : addr) : M unit :=
  r ← get_templ t;
  if decide (ref_count r ≤ 1)%nat then fm_template_finalize w held t
  else update_templ t (with_ref_count (ref_count r - 1)).

(** [fm_template_new]: [g_object_new] hands out a zeroed instance holding
    one reference.  (The [NULL] in [mime_type] is the empty name here; the
    one caller assigns the field before anything reads it.) *)
Definition fm_template_new : M addr :=
  t ← alloc;
  modify (λ s, with_template_heap
    (<[t := {| ref_count := 1; files := []; mime_type := "";
               template_file := None; icon := None; command := None;
               prompt := None; label := None |}]> (template_heap s)) s);;
  mret t.

(** ** MIME type of a template entry *)

(** [_fm_template_guess_mime_type] (lines 149-248).  The local [type] is
    assigned under [is_desktop_entry] only (line 166), and [g_free (type)]
    (line 198) uses it whenever the name ends in [.desktop]. *)
Definition _fm_template_guess_mime_type (w : World) (path : FmPath)
    (is_desktop_entry : bool) : M (option FmMimeType) :=
  let basename := fm_path_get_basename path in
  (* if file is desktop entry then find the real template file path *)
  let '(type, path, basename) :=
    if is_desktop_entry then
      match key_file_load w (fm_path_to_str path) with
      | Some kf =>
          match kf_MimeType kf with
          | Some type => (Some type, path, basename)
          | None =>
              match kf_URL kf with
              | Some url =>
                  let subpath :=
                    if is_absolute url then fm_path_new_for_str url
                    else fm_path_new_relative (fm_path_get_parent path) url in
                  (None, subpath, fm_path_get_basename subpath)
              | None => (None, path, basename)
              end
          end
      | None => (None, path, basename)
      end
    else (None, path, basename) in
  match type with
  | Some type => mret (Some type)                            (* goto _found *)
  | None =>
      (* no result from name - try file attributes *)
      let by_attributes :=
        match stat_is_dir w (fm_path_to_str path) with
        | None => None
        | Some true => Some "inode/directory"
        | Some false => None
        end in
      if g_str_has_suffix basename ".desktop" then
        (* [g_free (type)] *)
        (if is_desktop_entry then mret tt else raise Uninit);;
        mret
          match key_file_load w (fm_path_to_str path) with
          | Some kf =>
              match kf_Type kf with
              | Some url =>
                  if String.eqb url "Application"
                  then Some "application/x-desktop"
                  else by_attributes
              | None => by_attributes
              end
          | None => by_attributes
          end
      else
        mret
          match content_type_guess w basename with
          | (Some type, false) => Some type                  (* goto _found *)
          | _ => by_attributes
          end
  end.

(** The loop of [_fm_template_find_for_file] over the global list. *)
Fixpoint find_by_mime_type (l : list addr) (mime : FmMimeType) : M (option addr) :=
  match l with
  | [] => mret None
  | data :: l' =>
      r ← get_templ data;
      if String.eqb (mime_type r) mime then mret (Some data)
      else find_by_mime_type l' mime
  end.

(** [_fm_template_find_for_file] (lines 251-274): find or create. *)
Definition _fm_template_find_for_file (w : World) (path : FmPath)
    (is_desktop_entry : bool) : M (option addr) :=
  mime_type ← _fm_template_guess_mime_type w path is_desktop_entry;
  match mime_type with
  | None => mret None
  | Some mime =>
      s ← get;
      found ← find_by_mime_type (templates s) mime;
      match found with
      | Some data => g_object_ref data;; mret (Some data)
      | None =>
          t ← fm_template_new;
          update_templ t (λ r,
            {| ref_count := ref_count r; files := files r; mime_type := mime;
               template_file := template_file r; icon := icon r;
               command := command r; prompt := prompt r; label := label r |});;
          modify (λ s, with_templates (t :: templates s) s);;
          mret (Some t)
      end
  end.

(** ** Field resolution *)

(** What one chain entry does to the template: the body of
    [_fm_template_update_from_file] after its recursive call
    (lines 282-353).  The local [error] is declared without a value
    (line 287), so where the key file does not load, the message of the
    warning is read through a pointer that was never assigned
    ([error->message], line 345). *)
Definition update_from_entry (w : World) (templ file : addr) : M unit :=
  f ← get_file file;
  if is_desktop_entry f then
    match key_file_load w (fm_path_to_str (path f)) with
    | Some kf =>
        let hidden := kf_Hidden kf in
        update_file file (with_inactive hidden);;
        if hidden then mret tt
        else
          match kf_URL kf with
          | Some tmp =>
              if is_absolute tmp then
                update_templ templ
                  (with_template_file (Some (fm_path_new_for_str tmp)))
              else
                d ← get_dir (dir f);
                update_templ templ
                  (with_template_file (Some (fm_path_new_relative (dir_path d) tmp)))
          | None => mret tt
          end;;
          match kf_Icon kf with
          | Some tmp => update_templ templ (with_icon (Some tmp))
          | None => mret tt
          end;;
          match kf_Exec kf with
          | Some tmp => update_templ templ (with_command (Some tmp))
          | None => mret tt
          end;;
          match kf_Name kf with
          | Some tmp => update_templ templ (with_label (Some tmp))
          | None => mret tt
          end;;
          match kf_Comment kf with
          | Some tmp => update_templ templ (with_prompt (Some tmp))
          | None => mret tt
          end
    | None => raise Uninit
    end
  else (* plain file *)
    t ← get_templ templ;
    match template_file t with
    | None => update_templ templ (with_template_file (Some (path f)))
    | Some _ => mret tt
    end.

(** [_fm_template_update_from_file] (lines 276-354); [file] is the rest of
    the chain from the current entry on. *)
Fixpoint _fm_template_update_from_file (w : World) (templ : addr)
    (file : list addr) : M unit :=
  match file with
  | [] => mret tt
  | file :: next_in_templ =>
      (* update from less relevant file first *)
      _fm_template_update_from_file w templ next_in_templ;;
      update_from_entry w templ file
  end.

(** [_fm_template_update] (lines 357-372). *)
Definition _fm_template_update (w : World) (templ : addr) : M unit :=
  (* free all data *)
  update_templ templ (with_template_file None);;
  update_templ templ (with_icon None);;
  update_templ templ (with_command None);;
  update_templ templ (with_prompt None);;
  (* update from file list *)
  t ← get_templ templ;
  _fm_template_update_from_file w templ (files t).

(** ** The contribution chain *)

(** The inner [while] of [_fm_template_insert_sorted]: move [last_dir]
    forward to the directory of the new file or of the chain entry. *)
Fixpoint skip_dirs (file_dir next_dir : addr) (last_dir : list addr) : list addr :=
  match last_dir with
  | [] => []
  | d :: rest =>
      if decide (d = file_dir) then last_dir
      else if decide (d = next_dir) then last_dir
      else skip_dirs file_dir next_dir rest
  end.

(** The [for] loop of [_fm_template_insert_sorted] (lines 380-403), giving
    the chain with [file] linked in.  [next] is the rest of the chain. *)
Fixpoint insert_sorted_loop (file : addr) (f : FmTemplateFile)
    (last_dir : list addr) (next : list addr) : M (list addr) :=
  match next with
  | [] => mret [file]
  | n :: rest =>
      match last_dir with
      | [] => mret (file :: next)       (* the [while] is not entered; break *)
      | _ :: _ =>
          nx ← get_file n;
          let last_dir := skip_dirs (dir f) (dir nx) last_dir in
          match last_dir with
          | [] => mret (file :: next)   (* it must be corruption; break *)
          | d :: _ =>
              if decide (d = dir f) then
                if bool_decide (dir nx = d) && negb (is_desktop_entry f) then
                  if negb (is_desktop_entry nx) then mret (file :: next)
                  else
                    (* sort files after desktop items *)
                    rest' ← insert_sorted_loop file f last_dir rest;
                    mret (n :: rest')
                else mret (file :: next)
              else
                rest' ← insert_sorted_loop file f last_dir rest;
                mret (n :: rest')
          end
      end
  end.

(** [_fm_template_insert_sorted] (lines 375-405). *)
Definition _fm_template_insert_sorted (w : World) (templ file : addr) : M unit :=
  s ← get;
  t ← get_templ templ;
  f ← get_file file;
  chain ← insert_sorted_loop file f (templates_dirs s) (files t);
  update_templ templ (with_files chain);;
  _fm_template_update w templ.

(** The search of [_fm_template_file_free] for [file] in the chain:
    [None] when the walk reaches the end of the chain. *)
Fixpoint chain_unlink (file : addr) (chain : list addr) : option (list addr) :=
  match chain with
  | [] => None
  | file2 :: rest =>
      if decide (file2 = file) then Some rest
      else (file2 ::.) <$> chain_unlink file rest
  end.

(** [_fm_template_file_free] (lines 408-431). *)
Definition _fm_template_file_free (w : World) (held : bool) (templ file : addr)
    (do_update : bool) : M unit :=
  t ← get_templ templ;
  match chain_unlink file (files t) with
  | Some chain => update_templ templ (with_files chain)
  | None => g_critical w "FmTemplate: file being freed is missed in template"
  end;;
  g_object_unref w held templ;;
  _ ← get_file file;                                  (* [file->path] *)
  modify (λ s, with_file_heap (delete file (file_heap s)) s);;
  if do_update then _fm_template_update w templ else mret tt.

(** ** Directory entries *)

Record FmFileInfo := {
  fi_path : FmPath;
  fi_is_desktop_entry : bool;      (* [fm_file_info_is_desktop_entry] *)
}.

Inductive GFileMonitorEvent :=
  | G_FILE_MONITOR_EVENT_CHANGED
  | G_FILE_MONITOR_EVENT_CHANGES_DONE_HINT
  | G_FILE_MONITOR_EVENT_DELETED
  | G_FILE_MONITOR_EVENT_CREATED
  | G_FILE_MONITOR_EVENT_ATTRIBUTE_CHANGED
  | G_FILE_MONITOR_EVENT_PRE_UNMOUNT
  | G_FILE_MONITOR_EVENT_UNMOUNTED
  | G_FILE_MONITOR_EVENT_MOVED.

(** [for(file = dir->files; file; file = file->next_in_dir)
       if(fm_path_equal(path, file->path)) break;] *)
Fixpoint find_in_dir_by_path (l : list addr) (p : FmPath) : M (option addr) :=
  match l with
  | [] => mret None
  | file :: next_in_dir =>
      f ← get_file file;
      if fm_path_equal p (path f) then mret (Some file)
      else find_in_dir_by_path next_in_dir p
  end.

(** [for(file = dir->files; file; file = file->next_in_dir)
       if(strcmp(fm_path_get_basename(file->path), basename) == 0) break;] *)
Fixpoint find_in_dir_by_basename (l : list addr) (basename : string)
    : M (option addr) :=
  match l with
  | [] => mret None
  | file :: next_in_dir =>
      f ← get_file file;
      if String.eqb (fm_path_get_basename (path f)) basename then mret (Some file)
      else find_in_dir_by_basename next_in_dir basename
  end.

(** [file = g_slice_new(FmTemplateFile)] and the assignments that follow it
    (lines 460-464, 538-542).  [inactive] is not assigned. *)
Definition new_template_file (w : World) (templ : addr) (p : FmPath)
    (is_de : bool) (d : addr) : M addr :=
  file ← alloc;
  modify (λ s, with_file_heap
    (<[file := {| dir := d; templ := templ; path := p;
                  is_desktop_entry := is_de;
                  inactive := slice_junk w file |}]> (file_heap s)) s);;
  mret file.

(** The store [p->prev_in_dir = file].  Back links are implied by the
    positions in the list, so what remains of the store is the dereference
    of [p]. *)
Definition store_prev_in_dir (p : option addr) : M unit :=
  match p with
  | None => raise NullDeref
  | Some a => _ ← get_file a; mret tt
  end.

(** One round of the loop of [on_job_finished] (lines 445-470). *)
Definition on_job_finished_file (w : World) (d : addr) (fi : FmFileInfo) : M unit :=
  dr ← get_dir d;
  dup ← find_in_dir_by_path (dir_files dr) (fi_path fi);
  match dup with
  | Some _ => mret tt                                   (* it's duplicate *)
  | None =>
      (* ensure the path is based on dir->path *)
      let p := fm_path_new_child (dir_path dr) (fm_path_get_basename (fi_path fi)) in
      found ← _fm_template_find_for_file w p (fi_is_desktop_entry fi);
      match found with
      | None => mret tt                                 (* mime type guessing error *)
      | Some templ =>
          file ← new_template_file w templ p (fi_is_desktop_entry fi) d;
          match dir_files dr with
          | first :: _ => store_prev_in_dir (Some first)
          | [] => mret tt
          end;;
          update_dir d (with_dir_files (file :: dir_files dr));;
          _fm_template_insert_sorted w templ file
      end
  end.

(** [on_job_finished] (lines 433-472). *)
Fixpoint on_job_finished (w : World) (file_infos : list FmFileInfo) (d : addr)
    : M unit :=
  match file_infos with
  | [] => mret tt
  | fi :: l => on_job_finished_file w d fi;; on_job_finished w l d
  end.

(** [on_dir_changed] (lines 474-569).  The [switch] runs with the lock
    [templates] held (lines 491, 568). *)
Definition on_dir_changed (w : World) (gf : GFile) (evt : GFileMonitorEvent)
    (d : addr) : M unit :=
  dr ← get_dir d;
  if g_file_equal gf (fm_path_to_gfile (dir_path dr)) then
    mret tt                               (* it's event on folder itself, ignoring *)
  else
    let basename := g_file_get_basename gf in
    match evt with
    | G_FILE_MONITOR_EVENT_CHANGED =>
        found ← find_in_dir_by_basename (dir_files dr) basename;
        match found with
        | Some file =>
            f ← get_file file;
            if is_desktop_entry f      (* we aware only of entries content *)
            then _fm_template_update w (templ f)
            else mret tt
        | None => g_warning w "templates monitor: change for unknown file"
        end
    | G_FILE_MONITOR_EVENT_DELETED =>
        found ← find_in_dir_by_basename (dir_files dr) basename;
        match found with
        | Some file =>
            f ← get_file file;
            update_dir d (with_dir_files (unlink file (dir_files dr)));;
            _fm_template_file_free w true (templ f) file true
        | None => mret tt                 (* else it is already deleted *)
        end
    | G_FILE_MONITOR_EVENT_CREATED =>
        found ← find_in_dir_by_basename (dir_files dr) basename;
        match found with
        | None =>
            let p := fm_path_new_child (dir_path dr) basename in
            let is_de := g_str_has_suffix basename ".desktop" in
            found ← _fm_template_find_for_file w p is_de;
            match found with
            | Some templ =>
                file ← new_template_file w templ p is_de d;
                (* [dir->files->prev_in_dir = file], not guarded (line 545) *)
                store_prev_in_dir (head (dir_files dr));;
                update_dir d (with_dir_files (file :: dir_files dr));;
                _fm_template_insert_sorted w templ file
            | None =>
                g_warning w "could not guess type of template, ignoring it"
            end
        | Some _ => g_debug w "templates monitor: duplicate file"
        end
    | _ => mret tt                        (* ignore those *)
    end.

(** ** Set-up and tear-down *)

(** [_template_dir_init] (lines 571-589).  The listing job it starts
    reports later, through [on_job_finished]. *)
Definition _template_dir_init (w : World) (d : addr) (gf : GFile) : M unit :=
  let mon := monitor_directory w gf in
  update_dir d (λ r, {| dir_files := []; dir_path := dir_path r;
                         monitor := mon; user_dir := user_dir r |});;
  if mon then mret tt else g_debug w "file monitor cannot be created".

(** [g_slice_new(FmTemplateDir)] with [dir->path] assigned; [user_dir] is
    assigned ([Some]) for the two user directories only. *)
Definition new_template_dir (w : World) (p : FmPath) (is_user : option bool)
    : M addr :=
  d ← alloc;
  modify (λ s, with_dir_heap
    (<[d := {| dir_files := []; dir_path := p; monitor := false;
               user_dir := default (slice_junk w d) is_user |}]> (dir_heap s)) s);;
  mret d.

(** The first loop of [_fm_templates_init] (lines 603-624): the system
    directories, in the order of [g_get_system_data_dirs]. *)
Fixpoint init_system_dirs (w : World) (data_dirs : list string) : M unit :=
  match data_dirs with
  | [] => mret tt
  | data_dir :: rest =>
      let p := fm_path_new_child (fm_path_new_for_str data_dir) "templates" in
      let gfile := fm_path_to_gfile p in
      (if file_query_exists w gfile then
         d ← new_template_dir w p None;
         modify (λ s, with_templates_dirs (templates_dirs s ++ [d]) s);;
         _template_dir_init w d gfile
       else mret tt);;
      init_system_dirs w rest
  end.

(** [_fm_templates_init] (lines 591-656). *)
Definition _fm_templates_init (w : World) : M unit :=
  s ← get;
  match templates_dirs s with
  | _ :: _ => mret tt                     (* someone called us again? *)
  | [] =>
      (* prepare list of system template directories *)
      init_system_dirs w (system_data_dirs w);;
      (* add templates dir in user data *)
      let p := fm_path_new_child (fm_path_new_for_str (user_data_dir w)) "templates" in
      d ← new_template_dir w p (Some true);
      modify (λ s, with_templates_dirs (d :: templates_dirs s) s);;
      _template_dir_init w d (fm_path_to_gfile p);;
      (* add XDG_TEMPLATES_DIR at last *)
      let p := match user_special_dir_templates w with
               | Some dir_name => fm_path_new_for_str dir_name
               | None => fm_path_new_child (home w) "Templates"
               end in
      d ← new_template_dir w p (Some true);
      modify (λ s, with_templates_dirs (d :: templates_dirs s) s);;
      _template_dir_init w d (fm_path_to_gfile p)
  end.

(** The inner loop of [_fm_templates_finalize] (lines 673-680). *)
Fixpoint free_dir_files (w : World) (l : list addr) : M unit :=
  match l with
  | [] => mret tt
  | file :: next_in_dir =>
      f ← get_file file;
      _fm_template_file_free w false (templ f) file false;;
      free_dir_files w next_in_dir
  end.

(** The outer loop of [_fm_templates_finalize] (lines 663-682). *)
Fixpoint free_dirs (w : World) (l : list addr) : M unit :=
  match l with
  | [] => mret tt
  | d :: next =>
      modify (with_templates_dirs next);;
      dr ← get_dir d;
      free_dir_files w (dir_files dr);;
      modify (λ s, with_dir_heap (delete d (dir_heap s)) s);;
      free_dirs w next
  end.

(** [_fm_templates_finalize] (lines 658-683). *)
Definition _fm_templates_finalize (w : World) : M unit :=
  s ← get;
  free_dirs w (templates_dirs s).

(** ** Queries *)

(** The loop of [fm_template_list_all] (lines 701-704); [result] is the
    list built so far. *)
Fixpoint list_all_loop (user_only : bool) (l : list addr) (result : list addr)
    : M (list addr) :=
  match l with
  | [] => mret result
  | data :: l' =>
      t ← get_templ data;
      first ← match files t with
              | [] => raise NullDeref
              | first :: _ => get_file first
              end;
      keep ← (if inactive first then mret false
              else if negb user_only then mret true
              else d ← get_dir (dir first); mret (user_dir d));
      if keep : bool then
        g_object_ref data;;
        list_all_loop user_only l' (data :: result)
      else list_all_loop user_only l' result
  end.

(** [fm_template_list_all] (lines 696-707). *)
Definition fm_template_list_all (user_only : bool) : M (list addr) :=
  s ← get;
  list_all_loop user_only (templates s) [].

(** ** Creating a file from a template *)

(** What [fm_template_create_file] does outside the registry. *)
Inductive IoAction :=
  | IoCopy (src dst : GFile)
  | IoLaunch (app : GAppInfo) (dst : GFile).

(** The [GError **error] argument: [None] is a [NULL] pointer, [Some e] a
    location holding [e]. *)
Definition GErrorLoc := option (option GError).

(** [g_set_error], [g_propagate_error]: nothing to store to when the caller
    passed [NULL]. *)
Definition g_set_error (error : GErrorLoc) (e : GError) : GErrorLoc :=
  match error with
  | None => None
  | Some _ => Some (Some e)
  end.

Definition g_clear_error (error : GErrorLoc) : GErrorLoc :=
  match error with
  | None => None
  | Some _ => Some None
  end.

(** The read [( *error )->...]. *)
Definition deref_error (error : GErrorLoc) : M GError :=
  match error with
  | Some (Some e) => mret e
  | _ => raise NullDeref
  end.

Record CreateResult := {
  cr_ret : bool;
  cr_error : GErrorLoc;
  cr_io : list IoAction;
}.

(** [g_file_copy (tfile, path, ...)] (line 894).  With a [NULL] source GIO
    returns [FALSE] from its argument check, logging a critical message and
    leaving [error] alone. *)
Definition g_file_copy (w : World) (tfile : option GFile) (dst : GFile)
    (error : GErrorLoc) : M (bool * GErrorLoc * list IoAction) :=
  match tfile with
  | None =>
      g_critical w "g_file_copy: assertion 'G_IS_FILE (source)' failed";;
      mret (false, error, [])
  | Some src =>
      match file_copy w src dst with
      | None => mret (true, error, [IoCopy src dst])
      | Some e => mret (false, g_set_error error e, [IoCopy src dst])
      end
  end.

(** [g_object_unref (tfile)] (lines 902, 908). *)
Definition g_object_unref_file (w : World) (tfile : option GFile) : M unit :=
  match tfile with
  | None => g_critical w "g_object_unref: assertion 'G_IS_OBJECT (object)' failed"
  | Some _ => mret tt
  end.

(** [fm_template_create_file] (lines 852-914).  [templ] and [path] are
    [None] when they fail [FM_IS_TEMPLATE] and [G_IS_FILE]. *)
Definition fm_template_create_file (w : World) (templ : option addr)
    (path : option GFile) (error : GErrorLoc) : M CreateResult :=
  match templ, path with
  | Some templ, Some path =>
      t ← get_templ templ;
      let '(app, error) :=
        match command t with
        | Some command =>
            match app_from_commandline w command with
            | inl app => (Some app, error)
            | inr e => (None, g_set_error error e)
            end
        | None =>
            match app_default_for_type w (mime_type t) with
            | Some app => (Some app, error)
            | None =>
                (None, g_set_error error
                         {| domain_is_io := true; code := G_IO_ERROR_FAILED |})
            end
        end in
      match app with
      | None => mret {| cr_ret := false; cr_error := error; cr_io := [] |}
      | Some app =>
          t ← get_templ templ;
          let tfile := fm_path_to_str <$> template_file t in
          (* FIXME: it may block *)
          '(copied, error, io) ← g_file_copy w tfile path error;
          let launch (error : GErrorLoc) : M CreateResult :=
            g_object_unref_file w tfile;;
            match app_launch w app path with
            | None =>
                mret {| cr_ret := true; cr_error := error;
                        cr_io := io ++ [IoLaunch app path] |}
            | Some e =>
                mret {| cr_ret := false; cr_error := g_set_error error e;
                        cr_io := io ++ [IoLaunch app path] |}
            end in
          if copied : bool then launch error
          else
            e ← deref_error error;
            if negb (domain_is_io e)
               || negb (bool_decide (code e = G_IO_ERROR_NOT_FOUND)) then
              (* we ran into problems, application will run into them too
                 the most probably, so don't try to launch it then *)
              g_object_unref_file w tfile;;
              mret {| cr_ret := false; cr_error := error; cr_io := io |}
            else
              (* template file not found, it's normal *)
              launch (g_clear_error error)
      end
  | _, _ =>
      mret {| cr_ret := false;
              cr_error := g_set_error error
                            {| domain_is_io := true; code := G_IO_ERROR_FAILED |};
              cr_io := [] |}
  end.

(** ** Runs of the registry *)

Inductive Event :=
  (* the listing job of a directory reports its files *)
  | JobFinished (file_infos : list FmFileInfo) (d : addr)
  (* the monitor of a directory reports a change *)
  | DirChanged (gf : GFile) (evt : GFileMonitorEvent) (d : addr)
  (* a caller takes the list of templates and keeps the references *)
  | ListAll (user_only : bool)
  (* a caller drops a reference *)
  | Unref (t : addr).

Definition step (w : World) (ev : Event) : M unit :=
  match ev with
  | JobFinished file_infos d => on_job_finished w file_infos d
  | DirChanged gf evt d => on_dir_changed w gf evt d
  | ListAll user_only => _ ← fm_template_list_all user_only; mret tt
  | Unref t => g_object_unref w false t
  end.

(** Each event comes with the environment it is handled in. *)
Fixpoint run (evs : list (World * Event)) : M unit :=
  match evs with
  | [] => mret tt
  | (w, ev) :: rest => step w ev;; run rest
  end.

(** A state can be observed after [_fm_templates_init] and any number of
    events, none of which faulted or aborted. *)
Definition reachable (s : State) : Prop :=
  ∃ w0 evs, (_fm_templates_init w0;; run evs) empty_state = Ok (tt, s).

(** ** Properties of states *)

(** Position of a directory in the global list: the first directory has
    rank 0 and the highest priority. *)
Fixpoint dir_rank (dirs : list addr) (d : addr) : nat :=
  match dirs with
  | [] => 0
  | x :: rest => if decide (x = d) then 0 else S (dir_rank rest d)
  end.

(** The sort key of a chain entry: the rank of its directory, then desktop
    entries (0) before plain files (1). *)
Definition entry_key (dirs : list addr) (f : FmTemplateFile) : nat * nat :=
  (dir_rank dirs (dir f), if is_desktop_entry f then 0 else 1)%nat.

Definition key_le (a b : nat * nat) : Prop :=
  (a.1 < b.1 ∨ (a.1 = b.1 ∧ a.2 ≤ b.2))%nat.

(** Order of two chain entries given by address. *)
Definition chain_le (s : State) (a b : addr) : Prop :=
  ∃ fa fb, file_heap s !! a = Some fa ∧ file_heap s !! b = Some fb ∧
    key_le (entry_key (templates_dirs s) fa) (entry_key (templates_dirs s) fb).

Definition chain_sorted (s : State) (chain : list addr) : Prop :=
  StronglySorted (chain_le s) chain.

(** At most one template per MIME type: the global list has no template
    twice, holds exactly the allocated templates, and no two allocated
    templates have the same MIME type. *)
Definition registry_unique (s : State) : Prop :=
  NoDup (templates s) ∧
  (∀ t, t ∈ templates s ↔ is_Some (template_heap s !! t)) ∧
  (∀ t1 t2 r1 r2,
     template_heap s !! t1 = Some r1 → template_heap s !! t2 = Some r2 →
     mime_type r1 = mime_type r2 → t1 = t2).

(** Every chain entry is allocated, points back to the template whose
    chain it is in, and lies in a directory of the global list. *)
Definition chain_entries_ok (s : State) (t : addr) (chain : list addr) : Prop :=
  ∀ a, a ∈ chain →
    ∃ f, file_heap s !! a = Some f ∧ templ f = t ∧ dir f ∈ templates_dirs s.

(** What every observable state satisfies. *)
Record registry_inv (s : State) : Prop := {
  inv_unique : registry_unique s;
  inv_templ_fresh : ∀ t, is_Some (template_heap s !! t) → (t < next_free s)%nat;
  inv_file_fresh : ∀ a, is_Some (file_heap s !! a) → (a < next_free s)%nat;
  inv_dirs_nodup : NoDup (templates_dirs s);
  inv_dirs_listed : ∀ d, is_Some (dir_heap s !! d) → d ∈ templates_dirs s;
  inv_dirs_live : ∀ d, d ∈ templates_dirs s → is_Some (dir_heap s !! d);
  inv_chain_entries : ∀ t r, template_heap s !! t = Some r →
    chain_entries_ok s t (files r);
  inv_chain_nodup : ∀ t r, template_heap s !! t = Some r → NoDup (files r);
  inv_chain_sorted : ∀ t r, template_heap s !! t = Some r →
    chain_sorted s (files r);
}.

(** The head entry of every listed template can be read. *)
Definition heads_readable (s : State) : Prop :=
  ∀ t, t ∈ templates s →
    ∃ r first rest f d,
      template_heap s !! t = Some r ∧ files r = first :: rest ∧
      file_heap s !! first = Some f ∧ dir_heap s !! (dir f) = Some d.

(** Whether [fm_template_list_all] keeps a template, read off its head
    entry. *)
Definition listed (user_only : bool) (s : State) (t : addr) : Prop :=
  ∃ r first rest f d,
    template_heap s !! t = Some r ∧ files r = first :: rest ∧
    file_heap s !! first = Some f ∧ dir_heap s !! (dir f) = Some d ∧
    inactive f = false ∧ (user_only = true → user_dir d = true).

(** The application [fm_template_create_file] resolves for a template. *)
Definition resolved_app (w : World) (t : FmTemplate) : option GAppInfo :=
  match command t with
  | Some c => match app_from_commandline w c with
              | inl app => Some app
              | inr _ => None
              end
  | None => app_default_for_type w (mime_type t)
  end.

(** What a desktop entry that is not hidden leaves in the template
    (lines 298-339): every key it has overwrites the field. *)
Definition apply_key_file (kf : GKeyFile) (dir_path : FmPath) (t : FmTemplate)
    : FmTemplate :=
  let t := match kf_URL kf with
           | Some tmp =>
               with_template_file
                 (Some (if is_absolute tmp then fm_path_new_for_str tmp
                        else fm_path_new_relative dir_path tmp)) t
           | None => t
           end in
  let t := match kf_Icon kf with Some tmp => with_icon (Some tmp) t | None => t end in
  let t := match kf_Exec kf with Some tmp => with_command (Some tmp) t | None => t end in
  let t := match kf_Name kf with Some tmp => with_label (Some tmp) t | None => t end in
  match kf_Comment kf with Some tmp => with_prompt (Some tmp) t | None => t end.

(** The template as [_fm_template_update] leaves it before it reads the
    chain (lines 360-369). *)
Definition cleared (t : FmTemplate) : FmTemplate :=
  with_prompt None (with_command None (with_icon None (with_template_file None t))).

(** Two entries that differ in [inactive] at most, two templates that
    differ in the resolved fields and the reference count at most, and two
    states that differ in these and in the log at most. *)
Definition same_entry (f f' : FmTemplateFile) : Prop :=
  dir f = dir f' ∧ templ f = templ f' ∧ path f = path f' ∧
  is_desktop_entry f = is_desktop_entry f'.

Definition same_links (r r' : FmTemplate) : Prop :=
  files r = files r' ∧ mime_type r = mime_type r'.

(** A handler that changes resolved fields, reference counts, [inactive]
    marks and the log at most. *)
Definition preserves_fields {A} (m : M A) : Prop :=
  ∀ s a s', m s = Ok (a, s') →
    templates s' = templates s ∧ templates_dirs s' = templates_dirs s ∧
    dir_heap s' = dir_heap s ∧ next_free s' = next_free s ∧
    (∀ t, option_Forall2 same_links (template_heap s !! t) (template_heap s' !! t)) ∧
    (∀ a, option_Forall2 same_entry (file_heap s !! a) (file_heap s' !! a)).

(** Handlers that leave the entries alone. *)
Definition keeps_files {A} (m : M A) : Prop :=
  ∀ s a s', m s = Ok (a, s') → file_heap s' = file_heap s.

(** No chain holds the entry. *)
Definition unlinked (s : State) (file : addr) : Prop :=
  ∀ t r, template_heap s !! t = Some r → file ∉ files r.

Definition fields_only (s s' : State) : Prop :=
  templates s' = templates s ∧ templates_dirs s' = templates_dirs s ∧
  dir_heap s' = dir_heap s ∧ next_free s' = next_free s ∧
  (∀ t, option_Forall2 same_links (template_heap s !! t) (template_heap s' !! t)) ∧
  (∀ a, option_Forall2 same_entry (file_heap s !! a) (file_heap s' !! a)).

(** Two states that differ in reference counts and resolved fields of
    templates at most. *)
Definition same_chains (s s' : State) : Prop :=
  templates s' = templates s ∧ file_heap s' = file_heap s ∧
  dir_heap s' = dir_heap s ∧
  (∀ t, option_Forall2 (λ r r', files r = files r')
          (template_heap s !! t) (template_heap s' !! t)).

(** What holds while [_fm_templates_init] builds the list of directories. *)
Definition dirs_inv (s : State) : Prop :=
  templates s = [] ∧ template_heap s = ∅ ∧ file_heap s = ∅ ∧
  NoDup (templates_dirs s) ∧
  (∀ d, d ∈ templates_dirs s → d < next_free s) ∧
  (∀ d, is_Some (dir_heap s !! d) ↔ d ∈ templates_dirs s).

(** ** Example environment *)

Definition kf_empty : GKeyFile :=
  {| kf_Type := None; kf_MimeType := None; kf_URL := None; kf_Icon := None;
     kf_Exec := None; kf_Name := None; kf_Comment := None; kf_Hidden := false |}.

(** A system directory [/usr/share/templates] and the two user
    directories.  [write.desktop] is a desktop entry for [text/plain] with a
    name, [hidden.desktop] one that is hidden, [link.desktop] one with a
    URL; files ending in [.txt] are [text/plain]; no template file can be
    copied (not found) and [text/plain] has a default application. *)
Definition w_ex : World := {|
  key_file_load := λ filename,
    if g_str_has_suffix filename "/write.desktop" then
      Some {| kf_Type := Some "Application"; kf_MimeType := Some "text/plain";
              kf_URL := None; kf_Icon := None; kf_Exec := None;
              kf_Name := Some "New Text Document"; kf_Comment := None;
              kf_Hidden := false |}
    else if g_str_has_suffix filename "/hidden.desktop" then
      Some {| kf_Type := Some "Application"; kf_MimeType := Some "text/plain";
              kf_URL := None; kf_Icon := None; kf_Exec := None;
              kf_Name := None; kf_Comment := None; kf_Hidden := true |}
    else if g_str_has_suffix filename "/link.desktop" then
      Some {| kf_Type := Some "Application"; kf_MimeType := Some "text/plain";
              kf_URL := Some "skel/letter.txt"; kf_Icon := None; kf_Exec := None;
              kf_Name := None; kf_Comment := None; kf_Hidden := false |}
    else None;
  content_type_guess := λ basename,
    if g_str_has_suffix basename ".txt" then (Some "text/plain", false)
    else (Some "application/octet-stream", true);
  stat_is_dir := λ _, None;
  log_fatal := λ _, false;
  slice_junk := λ _, false;
  app_from_commandline := λ c, inl c;
  app_default_for_type := λ m,
    if String.eqb m "text/plain" then Some "editor" else None;
  file_copy := λ _ _,
    Some {| domain_is_io := true; code := G_IO_ERROR_NOT_FOUND |};
  app_launch := λ _ _, None;
  system_data_dirs := ["/usr/share"];
  user_data_dir := "/home/u/.local/share";
  user_special_dir_templates := Some "/home/u/Templates";
  home := "/home/u";
  file_query_exists := λ _, true;
  monitor_directory := λ _, true;
|}.

(** The same environment, with [junk] for what [g_slice_new] leaves in the
    bits that are not assigned. *)
Definition w_junk (junk : addr → bool) : World := {|
  key_file_load := key_file_load w_ex;
  content_type_guess := content_type_guess w_ex;
  stat_is_dir := stat_is_dir w_ex;
  log_fatal := log_fatal w_ex;
  slice_junk := junk;
  app_from_commandline := app_from_commandline w_ex;
  app_default_for_type := app_default_for_type w_ex;
  file_copy := file_copy w_ex;
  app_launch := app_launch w_ex;
  system_data_dirs := system_data_dirs w_ex;
  user_data_dir := user_data_dir w_ex;
  user_special_dir_templates := user_special_dir_templates w_ex;
  home := home w_ex;
  file_query_exists := file_query_exists w_ex;
  monitor_directory := monitor_directory w_ex;
|}.

(** The state a run ends in ([empty_state] if it does not end well). *)
Definition final_state (o : outcome (unit * State)) : State :=
  match o with
  | Ok (_, s) => s
  | _ => empty_state
  end.

Definition fi_plain (p : FmPath) : FmFileInfo :=
  {| fi_path := p; fi_is_desktop_entry := false |}.
Definition fi_desktop (p : FmPath) : FmFileInfo :=
  {| fi_path := p; fi_is_desktop_entry := true |}.

(** After set-up the directories are at addresses 2 (XDG templates), 1
    (user data) and 0 (system), in this order of priority. *)
Definition evs_two_entries : list (World * Event) :=
  [ (w_ex, JobFinished [fi_plain "/usr/share/templates/a.txt"] 0);
    (w_ex, JobFinished [fi_desktop "/home/u/Templates/write.desktop"] 2) ].

Definition s_two_entries : State :=
  final_state ((_fm_templates_init w_ex;; run evs_two_entries) empty_state).

(** The desktop entry of [s_two_entries] is deleted again. *)
Definition evs_desktop_deleted : list (World * Event) :=
  evs_two_entries ++
  [ (w_ex, DirChanged "/home/u/Templates/write.desktop"
             G_FILE_MONITOR_EVENT_DELETED 2) ].

(** One plain file is listed and then deleted; in the second run a caller
    has taken the list of templates in between and keeps its reference. *)
Definition evs_last_deleted : list (World * Event) :=
  [ (w_ex, JobFinished [fi_plain "/usr/share/templates/a.txt"] 0);
    (w_ex, DirChanged "/usr/share/templates/a.txt"
             G_FILE_MONITOR_EVENT_DELETED 0) ].

Definition evs_last_deleted_held : list (World * Event) :=
  [ (w_ex, JobFinished [fi_plain "/usr/share/templates/a.txt"] 0);
    (w_ex, ListAll false);
    (w_ex, DirChanged "/usr/share/templates/a.txt"
             G_FILE_MONITOR_EVENT_DELETED 0) ].

(** [s_two_entries] with the desktop entry (address 5) taken out of the
    chain of its template (address 3) behind the back of the code. *)
Definition s_missing : State :=
  with_template_heap
    (<[3 := {| ref_count := 2; files := [4]; mime_type := "text/plain";
               template_file := None; icon := None; command := None;
               prompt := None; label := None |}]>
       (template_heap s_two_entries))
    s_two_entries.

Definition missed_msg : string :=
  "FmTemplate: file being freed is missed in template".

(** A plain file in the system directory and a desktop entry with a
    relative URL in the XDG directory, both for [text/plain]. *)
Definition evs_link : list (World * Event) :=
  [ (w_ex, JobFinished [fi_plain "/usr/share/templates/a.txt"] 0);
    (w_ex, JobFinished [fi_desktop "/home/u/Templates/link.desktop"] 2) ].

Definition s_link : State :=
  final_state ((_fm_templates_init w_ex;; run evs_link) empty_state).

(** A hidden desktop entry in the XDG directory above a plain file in the
    system directory. *)
Definition evs_hidden : list (World * Event) :=
  [ (w_ex, JobFinished [fi_plain "/usr/share/templates/a.txt"] 0);
    (w_ex, JobFinished [fi_desktop "/home/u/Templates/hidden.desktop"] 2) ].

Definition s_hidden : State :=
  final_state ((_fm_templates_init w_ex;; run evs_hidden) empty_state).

(** Only the desktop entry [write.desktop] is listed: its template has a
    label and no target file. *)
Definition s_desktop_only : State :=
  final_state
    ((_fm_templates_init w_ex;;
      run [(w_ex, JobFinished [fi_desktop "/home/u/Templates/write.desktop"] 2)])
       empty_state).

(** Eight entries for [text/plain] in the three directories, from two
    listings with two files each, one with one file, and three [Created]
    events. *)
Definition evs_eight_entries : list (World * Event) :=
  [ (w_ex, JobFinished [fi_plain "/usr/share/templates/a.txt";
                        fi_plain "/usr/share/templates/z.txt"] 0);
    (w_ex, JobFinished [fi_plain "/home/u/Templates/c.txt";
                        fi_desktop "/home/u/Templates/write.desktop"] 2);
    (w_ex, JobFinished [fi_plain "/home/u/.local/share/templates/b.txt"] 1);
    (w_ex, DirChanged "/home/u/Templates/link.desktop"
             G_FILE_MONITOR_EVENT_CREATED 2);
    (w_ex, DirChanged "/home/u/.local/share/templates/hidden.desktop"
             G_FILE_MONITOR_EVENT_CREATED 1);
    (w_ex, DirChanged "/home/u/Templates/d.txt" G_FILE_MONITOR_EVENT_CREATED 2) ].

Definition s_eight_entries : State :=
  final_state ((_fm_templates_init w_ex;; run evs_eight_entries) empty_state).

(** ** Accessors *)

(** [strrchr (name, '.')], as the offset of the last dot. *)
Fixpoint strrchr_dot (name : string) : option nat :=
  match name with
  | EmptyString => None
  | String c rest =>
      match strrchr_dot rest with
      | Some point => Some (S point)
      | None => if Ascii.eqb c "."%char then Some 0 else None
      end
  end.

(** [fm_template_dup_name] (lines 722-740).  [nlen] tells whether the
    caller passed a location for the length; the second component of the
    result is what is stored there, [None] when nothing is stored. *)
Definition fm_template_dup_name (templ : addr) (nlen : bool)
    : M (option string * option nat) :=
  t ← get_templ templ;
  let name := fm_path_get_basename <$> template_file t in
  mret (name,
        match name with
        | Some name =>
            if nlen then
              match strrchr_dot name with
              | Some point => Some point
              | None => Some (String.length name)
              end
            else None
        | None => None
        end).

(** [fm_template_get_mime_type] (lines 753-756). *)
Definition fm_template_get_mime_type (templ : addr) : M FmMimeType :=
  t ← get_templ templ; mret (mime_type t).

(** [fm_template_icon] (lines 769-780); [mime_icon] is
    [fm_mime_type_get_icon]. *)
Definition fm_template_icon (mime_icon : FmMimeType → option FmIcon)
    (templ : addr) : M (option FmIcon) :=
  t ← get_templ templ;
  match icon t with
  | Some i => mret (Some i)
  | None => mret (mime_icon (mime_type t))
  end.

(** [fm_template_dup_prompt] (lines 794-802). *)
Definition fm_template_dup_prompt (templ : addr) : M (option string) :=
  t ← get_templ templ; mret (prompt t).

(** [fm_template_dup_label] (lines 815-823). *)
Definition fm_template_dup_label (templ : addr) : M (option string) :=
  t ← get_templ templ; mret (label t).

(** [fm_template_is_directory] (lines 835-838). *)
Definition fm_template_is_directory (templ : addr) : M bool :=
  t ← get_templ templ; mret (String.eqb (mime_type t) "inode/directory").

(** What the documentation of [fm_template_list_all] asks of its caller
    (line 690): [g_list_free_full (list, g_object_unref)]. *)
Fixpoint g_list_free_full_unref (w : World) (l : list addr) : M unit :=
  match l with
  | [] => mret tt
  | data :: l' => g_object_unref w false data;; g_list_free_full_unref w l'
  end.

(** ** The fold of the chain as a function

    What one readable entry makes of the template record, given the state
    the fold started in: the pure content of [update_from_entry]. *)
Definition entry_effect (w : World) (s : State) (file : addr) (t : FmTemplate)
    : FmTemplate :=
  match file_heap s !! file with
  | Some f =>
      if is_desktop_entry f then
        match key_file_load w (fm_path_to_str (path f)) with
        | Some kf =>
            if kf_Hidden kf then t
            else apply_key_file kf
                   (from_option dir_path "" (dir_heap s !! dir f)) t
        | None => t
        end
      else
        match template_file t with
        | None => with_template_file (Some (path f)) t
        | Some _ => t
        end
  | None => t
  end.

(** The mark that the fold leaves on an entry: a desktop entry that loads
    is inactive if and only if it is hidden. *)
Definition entry_mark (w : World) (f : FmTemplateFile) : FmTemplateFile :=
  if is_desktop_entry f then
    match key_file_load w (fm_path_to_str (path f)) with
    | Some kf => with_inactive (kf_Hidden kf) f
    | None => f
    end
  else f.

(** Whether the key file of an entry loads, where the fold asks for it:
    for a desktop entry. *)
Definition entry_loads (w : World) (s : State) (file : addr) : bool :=
  match file_heap s !! file with
  | Some f =>
      if is_desktop_entry f then
        match key_file_load w (fm_path_to_str (path f)) with
        | Some _ => true
        | None => false
        end
      else true
  | None => true
  end.

Definition chain_loads (w : World) (s : State) (chain : list addr) : bool :=
  forallb (entry_loads w s) chain.

(** Every allocated entry loads: the allocator has handed out the
    addresses below [next_free]. *)
Definition registry_loads (w : World) (s : State) : bool :=
  chain_loads w s (seq 0 (next_free s)).

(** A file that a listing of the directory at [dir_path] reports without
    harm: a desktop entry that loads, or a file of another kind whose name
    does not end in [.desktop]. *)
Definition listable (w : World) (dir_path : FmPath) (fi : FmFileInfo) : bool :=
  let p := fm_path_new_child dir_path (fm_path_get_basename (fi_path fi)) in
  if fi_is_desktop_entry fi then
    match key_file_load w (fm_path_to_str p) with
    | Some _ => true
    | None => false
    end
  else negb (g_str_has_suffix (fm_path_get_basename p) ".desktop").

(** Every entry of a chain is allocated, and so is its directory. *)
Definition entries_live (s : State) (chain : list addr) : Prop :=
  ∀ a, a ∈ chain →
    ∃ f dr, file_heap s !! a = Some f ∧ dir_heap s !! dir f = Some dr.

(** The key file of an entry that contributes to the template: a desktop
    entry that loads and is not hidden. *)
Definition contributes (w : World) (s : State) (file : addr) : option GKeyFile :=
  match file_heap s !! file with
  | Some f =>
      if is_desktop_entry f then
        match key_file_load w (fm_path_to_str (path f)) with
        | Some kf => if kf_Hidden kf then None else Some kf
        | None => None
        end
      else None
  | None => None
  end.

(** The value of a key in the first entry of the chain, from the head, that
    contributes and has the key. *)
Fixpoint first_key (w : World) (s : State) (key : GKeyFile → option string)
    (chain : list addr) : option string :=
  match chain with
  | [] => None
  | file :: rest =>
      match contributes w s file ≫= key with
      | Some v => Some v
      | None => first_key w s key rest
      end
  end.

(** The target that the [URL] key of the first contributing entry with
    that key names: the URL when it is absolute, else the URL under the
    directory of the entry. *)
Fixpoint first_url (w : World) (s : State) (chain : list addr) : option FmPath :=
  match chain with
  | [] => None
  | file :: rest =>
      match contributes w s file ≫= kf_URL, file_heap s !! file with
      | Some url, Some f =>
          Some (if is_absolute url then fm_path_new_for_str url
                else fm_path_new_relative
                       (from_option dir_path "" (dir_heap s !! dir f)) url)
      | _, _ => first_url w s rest
      end
  end.

(** The path of the last plain file of the chain, from the head. *)
Fixpoint last_plain (s : State) (chain : list addr) : option FmPath :=
  match chain with
  | [] => None
  | file :: rest =>
      match last_plain s rest with
      | Some p => Some p
      | None =>
          match file_heap s !! file with
          | Some f => if is_desktop_entry f then None else Some (path f)
          | None => None
          end
      end
  end.

(** ** Relations between the states before and after a handler *)

(** A handler result related to the state it started from. *)
Definition respects {A} (R : State → State → Prop) (m : M A) : Prop :=
  ∀ s a s', m s = Ok (a, s') → R s s'.

(** What a relation between two states has to allow for the handlers that
    read the registry and resolve fields to respect it: the stores they
    make to the log, to the marks of entries and to fields of templates
    other than chain, MIME type and reference count. *)
Record field_frame (R : State → State → Prop) : Prop := {
  frame_refl : ∀ s, R s s;
  frame_trans : ∀ s1 s2 s3, R s1 s2 → R s2 s3 → R s1 s3;
  frame_log : ∀ s e, R s (with_log (e :: log s) s);
  frame_inactive : ∀ s a r b, file_heap s !! a = Some r →
    R s (with_file_heap (<[a := with_inactive b r]> (file_heap s)) s);
  frame_templ_fields : ∀ s t r r',
    template_heap s !! t = Some r →
    ref_count r' = ref_count r → files r' = files r →
    mime_type r' = mime_type r →
    R s (with_template_heap (<[t := r']> (template_heap s)) s);
}.

(** And for the handlers that find, allocate, link and free templates: the
    stores to the global list, to chains and MIME types, and to reference
    counts. *)
Record templ_frame (R : State → State → Prop) : Prop := {
  frame_alloc : ∀ s, R s (with_next_free (S (next_free s)) s);
  frame_templates : ∀ s l, R s (with_templates l s);
  frame_templ_links : ∀ s t r r',
    template_heap s !! t = Some r → ref_count r' = ref_count r →
    R s (with_template_heap (<[t := r']> (template_heap s)) s);
  frame_templ_ref : ∀ s t r n, template_heap s !! t = Some r → 1 ≤ n →
    R s (with_template_heap (<[t := with_ref_count n r]> (template_heap s)) s);
  frame_templ_new : ∀ s t r, ref_count r = 1 →
    R s (with_template_heap (<[t := r]> (template_heap s)) s);
  frame_templ_delete : ∀ s t,
    R s (with_template_heap (delete t (template_heap s)) s);
}.

(** And for every handler: the stores that allocate and free entries and
    link them in the list of their directory. *)
Record entry_frame (R : State → State → Prop) : Prop := {
  frame_file_heap : ∀ s h, R s (with_file_heap h s);
  frame_dir_files : ∀ s d r l, dir_heap s !! d = Some r →
    R s (with_dir_heap (<[d := with_dir_files l r]> (dir_heap s)) s);
}.

(** The directories and their lists of entries are as they were, and every
    entry that was allocated still is and has its directory, its template,
    its path and its kind; the allocator has not gone back. *)
Definition entries_kept (s s' : State) : Prop :=
  dir_heap s' = dir_heap s ∧ next_free s ≤ next_free s' ∧
  ∀ a f, file_heap s !! a = Some f →
    ∃ f', file_heap s' !! a = Some f' ∧ same_entry f f'.

(** Every entry in the list of a directory is allocated, lies in that
    directory, and is in the chain of its template, which is allocated; no
    entry is in the list twice. *)
Definition dir_entries_ok (s : State) : Prop :=
  ∀ d dr, dir_heap s !! d = Some dr →
    NoDup (dir_files dr) ∧
    ∀ a, a ∈ dir_files dr →
      ∃ f r, file_heap s !! a = Some f ∧ dir f = d ∧
             template_heap s !! templ f = Some r ∧ a ∈ files r.

(** The directories are as they were; every entry that was allocated still
    is, with its directory, template, path and kind; every template that
    was allocated still is, with its chain. *)
Definition links_kept (s s' : State) : Prop :=
  dir_heap s' = dir_heap s ∧
  (∀ a f, file_heap s !! a = Some f →
     ∃ f', file_heap s' !! a = Some f' ∧ same_entry f f') ∧
  (∀ t r, template_heap s !! t = Some r →
     ∃ r', template_heap s' !! t = Some r' ∧ files r' = files r).

(** The ways a handler ends without a dereference of [NULL] or of freed
    memory, without a second lock and without a [g_error]: it returns; or
    it stops where a pointer that was never assigned is used; or, where
    [fatal] holds, it aborts at a log message. *)
Definition stops_only {A} (fatal : Prop) (o : outcome A) : Prop :=
  (∃ x, o = Ok x) ∨ o = Fault Uninit ∨ (fatal ∧ ∃ msg, o = Abort msg).

(** A warning or a debug message is fatal. *)
Definition warning_fatal (w : World) : Prop :=
  log_fatal w LOG_WARNING = true ∨ log_fatal w LOG_DEBUG = true.

(** Reference counts, chains and MIME types are as they were, and so are
    the entries but for their marks: what [preserves_fields] says, and the
    reference counts. *)
Definition fields_changed (s s' : State) : Prop :=
  fields_only s s' ∧
  ∀ t, option_Forall2 (λ r r', ref_count r' = ref_count r)
         (template_heap s !! t) (template_heap s' !! t).

(** The directories are as they were: the same list, and every directory
    with the path, the monitor and the user flag it had. *)
Definition dirs_fixed (s s' : State) : Prop :=
  templates_dirs s' = templates_dirs s ∧
  ∀ d, option_Forall2
         (λ r r', dir_path r' = dir_path r ∧ user_dir r' = user_dir r ∧
                  monitor r' = monitor r)
         (dir_heap s !! d) (dir_heap s' !! d).

(** Every allocated template holds a reference. *)
Definition refs_pos (s : State) : Prop :=
  ∀ t r, template_heap s !! t = Some r → 1 ≤ ref_count r.

(** Strict order of two chain entries. *)
Definition chain_lt (s : State) (a b : addr) : Prop :=
  ∃ fa fb, file_heap s !! a = Some fa ∧ file_heap s !! b = Some fb ∧
    let ka := entry_key (templates_dirs s) fa in
    let kb := entry_key (templates_dirs s) fb in
    ka.1 < kb.1 ∨ (ka.1 = kb.1 ∧ ka.2 < kb.2).

(** No ['/'] in a name. *)
Fixpoint no_slash (s : string) : bool :=
  match s with
  | EmptyString => true
  | String c s' => negb (Ascii.eqb c "/"%char) && no_slash s'
  end.

(** * Proofs *)

(** ** The handler monad *)

Lemma bind_Ok {A B} (m : M A) (f : A → M B) s a s1 :
  m s = Ok (a, s1) → (m ≫= f) s = f a s1.
Proof. intros H. unfold mbind, M_bind. by rewrite H. Qed.

Lemma ret_bind {A B} (a : A) (f : A → M B) : (mret a ≫= f) = f a.
Proof. reflexivity. Qed.

Lemma bind_inv {A B} (m : M A) (f : A → M B) s b s2 :
  (m ≫= f) s = Ok (b, s2) → ∃ a s1, m s = Ok (a, s1) ∧ f a s1 = Ok (b, s2).
Proof.
  unfold mbind, M_bind. destruct (m s) as [[a s1]| |]; [|done..].
  intros H. by exists a, s1.
Qed.

Lemma ret_inv {A} (a b : A) s s' :
  (mret a : M A) s = Ok (b, s') → a = b ∧ s = s'.
Proof. unfold mret, M_ret. by intros [= -> ->]. Qed.

(** Unfolds the monad and the accesses to the stores in the goal. *)
Ltac munfold :=
  repeat (progress (unfold mbind, M_bind, mret, M_ret, modify, alloc, get, raise,
                      update_templ, update_file, update_dir,
                      get_templ, get_file, get_dir, g_object_ref,
                      fm_template_new, new_template_file, store_prev_in_dir;
                    simpl)).

Lemma get_templ_Ok s t r :
  template_heap s !! t = Some r → get_templ t s = Ok (r, s).
Proof. intros H. unfold get_templ. by rewrite H. Qed.

Lemma get_templ_inv s t r s' :
  get_templ t s = Ok (r, s') → template_heap s !! t = Some r ∧ s' = s.
Proof. unfold get_templ. destruct (template_heap s !! t); naive_solver. Qed.

Lemma get_file_Ok s a f :
  file_heap s !! a = Some f → get_file a s = Ok (f, s).
Proof. intros H. unfold get_file. by rewrite H. Qed.

Lemma get_file_inv s a f s' :
  get_file a s = Ok (f, s') → file_heap s !! a = Some f ∧ s' = s.
Proof. unfold get_file. destruct (file_heap s !! a); naive_solver. Qed.

Lemma get_dir_Ok s d r :
  dir_heap s !! d = Some r → get_dir d s = Ok (r, s).
Proof. intros H. unfold get_dir. by rewrite H. Qed.

Lemma get_dir_inv s d r s' :
  get_dir d s = Ok (r, s') → dir_heap s !! d = Some r ∧ s' = s.
Proof. unfold get_dir. destruct (dir_heap s !! d); naive_solver. Qed.

Lemma update_templ_Ok s t f r :
  template_heap s !! t = Some r →
  update_templ t f s = Ok (tt, with_template_heap (<[t := f r]> (template_heap s)) s).
Proof. intros H. unfold update_templ. by rewrite (bind_Ok _ _ _ _ _ (get_templ_Ok _ _ _ H)). Qed.

Lemma update_templ_inv s t f u s' :
  update_templ t f s = Ok (u, s') →
  ∃ r, template_heap s !! t = Some r ∧
       s' = with_template_heap (<[t := f r]> (template_heap s)) s.
Proof.
  unfold update_templ. intros (r & s1 & [H ->]%get_templ_inv & [= <-])%bind_inv.
  by exists r.
Qed.

Lemma update_file_Ok s a f r :
  file_heap s !! a = Some r →
  update_file a f s = Ok (tt, with_file_heap (<[a := f r]> (file_heap s)) s).
Proof. intros H. unfold update_file. by rewrite (bind_Ok _ _ _ _ _ (get_file_Ok _ _ _ H)). Qed.

Lemma update_file_inv s a f u s' :
  update_file a f s = Ok (u, s') →
  ∃ r, file_heap s !! a = Some r ∧
       s' = with_file_heap (<[a := f r]> (file_heap s)) s.
Proof.
  unfold update_file. intros (r & s1 & [H ->]%get_file_inv & [= <-])%bind_inv.
  by exists r.
Qed.

Lemma update_dir_inv s d f u s' :
  update_dir d f s = Ok (u, s') →
  ∃ r, dir_heap s !! d = Some r ∧
       s' = with_dir_heap (<[d := f r]> (dir_heap s)) s.
Proof.
  unfold update_dir. intros (r & s1 & [H ->]%get_dir_inv & [= <-])%bind_inv.
  by exists r.
Qed.

(** Reading the global list for a MIME type leaves the state alone; it
    succeeds when every listed template is allocated. *)
Lemma find_by_mime_type_inv l mime s res s' :
  find_by_mime_type l mime s = Ok (res, s') →
  s' = s ∧
  match res with
  | Some t => t ∈ l ∧ ∃ r, template_heap s !! t = Some r ∧ mime_type r = mime
  | None => ∀ t r, t ∈ l → template_heap s !! t = Some r → mime_type r ≠ mime
  end.
Proof.
  revert res. induction l as [|data l IH]; intros res; simpl.
  - intros [<- <-]%ret_inv. split; [done|]. intros t r Ht. by apply elem_of_nil in Ht.
  - intros (r & s1 & [Hr ->]%get_templ_inv & H)%bind_inv.
    destruct (String.eqb_spec (mime_type r) mime) as [Heq|Hne].
    + apply ret_inv in H as [<- <-]. split; [done|]. split; [left|]. by exists r.
    + apply IH in H as [-> H]. split; [done|]. destruct res as [t|].
      * destruct H as [Ht H]. split; [by right|done].
      * intros t r' [->|Ht]%elem_of_cons Hr'; [congruence|by eapply H].
Qed.

Lemma find_by_mime_type_total l mime s :
  (∀ t, t ∈ l → is_Some (template_heap s !! t)) →
  ∃ res, find_by_mime_type l mime s = Ok (res, s).
Proof.
  induction l as [|data l IH]; intros Hl; simpl; [by eexists|].
  destruct (Hl data) as [r Hr]; [left|].
  rewrite (bind_Ok _ _ _ _ _ (get_templ_Ok _ _ _ Hr)).
  destruct (String.eqb _ _); [by eexists|].
  apply IH. intros t Ht. apply Hl. by right.
Qed.

(** The guess reads the environment only: it returns in the state it
    started in, and it stops, if it does, at the name that ends in
    [.desktop] of what is not a desktop entry. *)
Lemma guess_mime_type_cases w p is_de :
  (∃ m, ∀ s, _fm_template_guess_mime_type w p is_de s = Ok (m, s)) ∨
  (∀ s, _fm_template_guess_mime_type w p is_de s = Fault Uninit).
Proof.
  unfold _fm_template_guess_mime_type.
  destruct (if is_de then _ else _) as [[[type|] path] basename].
  - left. by eexists.
  - destruct (g_str_has_suffix basename ".desktop"); [|left; by eexists].
    destruct is_de; [left; by eexists|by right].
Qed.

Lemma guess_mime_type_inv w p is_de s m s' :
  _fm_template_guess_mime_type w p is_de s = Ok (m, s') →
  s' = s ∧ ∀ s0, _fm_template_guess_mime_type w p is_de s0 = Ok (m, s0).
Proof.
  destruct (guess_mime_type_cases w p is_de) as [[m' H]|H]; rewrite H; [|done].
  by intros [= <- <-].
Qed.

(** [_fm_template_find_for_file] gives a template whenever the MIME type
    is guessed and the global list can be read. *)
Lemma find_for_file_total w p is_de s mime :
  _fm_template_guess_mime_type w p is_de s = Ok (Some mime, s) →
  (∀ t, t ∈ templates s → is_Some (template_heap s !! t)) →
  ∃ t s', _fm_template_find_for_file w p is_de s = Ok (Some t, s') ∧
          dir_heap s' = dir_heap s ∧ file_heap s' = file_heap s.
Proof.
  intros Hg Hl. unfold _fm_template_find_for_file.
  rewrite (bind_Ok _ _ _ _ _ Hg).
  rewrite (bind_Ok get _ s s s eq_refl).
  destruct (find_by_mime_type_total (templates s) mime s Hl) as [res Hres].
  rewrite (bind_Ok _ _ _ _ _ Hres).
  destruct res as [t|].
  - apply find_by_mime_type_inv in Hres as (_ & _ & r & Hr & _).
    exists t. eexists. unfold g_object_ref.
    rewrite (bind_Ok _ _ _ _ _ (update_templ_Ok _ _ _ _ Hr)). done.
  - exists (next_free s). eexists. munfold. rewrite lookup_insert_eq. done.
Qed.

(** ** Creating a file *)

Lemma create_file_app w s templ t path error :
  template_heap s !! templ = Some t →
  fm_template_create_file w (Some templ) (Some path) error s =
  match resolved_app w t with
  | None =>
      Ok ({| cr_ret := false;
             cr_error :=
               match command t with
               | Some c => match app_from_commandline w c with
                           | inl _ => error
                           | inr e => g_set_error error e
                           end
               | None => g_set_error error
                           {| domain_is_io := true; code := G_IO_ERROR_FAILED |}
               end;
             cr_io := [] |}, s)
  | Some app =>
      ('(copied, error, io) ←
         g_file_copy w (fm_path_to_str <$> template_file t) path error;
       let launch (error : GErrorLoc) : M CreateResult :=
         g_object_unref_file w (fm_path_to_str <$> template_file t);;
         match app_launch w app path with
         | None =>
             mret {| cr_ret := true; cr_error := error;
                     cr_io := io ++ [IoLaunch app path] |}
         | Some e =>
             mret {| cr_ret := false; cr_error := g_set_error error e;
                     cr_io := io ++ [IoLaunch app path] |}
         end in
       if copied : bool then launch error
       else
         e ← deref_error error;
         if negb (domain_is_io e)
            || negb (bool_decide (code e = G_IO_ERROR_NOT_FOUND)) then
           g_object_unref_file w (fm_path_to_str <$> template_file t);;
           mret {| cr_ret := false; cr_error := error; cr_io := io |}
         else launch (g_clear_error error)) s
  end.
Proof.
  intros Ht. unfold fm_template_create_file, resolved_app.
  rewrite (bind_Ok _ _ _ _ _ (get_templ_Ok _ _ _ Ht)).
  destruct (command t) as [c|].
  - destruct (app_from_commandline w c) as [app|e]; [|done].
    by rewrite (bind_Ok _ _ _ _ _ (get_templ_Ok _ _ _ Ht)).
  - destruct (app_default_for_type w (mime_type t)) as [app|]; [|done].
    by rewrite (bind_Ok _ _ _ _ _ (get_templ_Ok _ _ _ Ht)).
Qed.

(** A copy that fails, for a caller that passes a location for the
    error. *)
Lemma create_file_copy_failed w s templ t p path app e :
  template_heap s !! templ = Some t →
  template_file t = Some p →
  resolved_app w t = Some app →
  file_copy w (fm_path_to_str p) path = Some e →
  fm_template_create_file w (Some templ) (Some path) (Some None) s =
  if domain_is_io e && bool_decide (code e = G_IO_ERROR_NOT_FOUND) then
    Ok ({| cr_ret := bool_decide (app_launch w app path = None);
           cr_error := Some (app_launch w app path);
           cr_io := [IoCopy (fm_path_to_str p) path; IoLaunch app path] |}, s)
  else
    Ok ({| cr_ret := false; cr_error := Some (Some e);
           cr_io := [IoCopy (fm_path_to_str p) path] |}, s).
Proof.
  intros Ht Hp Happ Hcopy. rewrite (create_file_app _ _ _ _ _ _ Ht), Happ, Hp.
  unfold g_file_copy. simpl. rewrite Hcopy. munfold.
  destruct (domain_is_io e); simpl; [|done].
  destruct (bool_decide (code e = G_IO_ERROR_NOT_FOUND)); simpl; [|done].
  by destruct (app_launch w app path).
Qed.

(** A copy that succeeds is followed by the launch. *)
Lemma create_file_copied w s templ t p path app error :
  template_heap s !! templ = Some t →
  template_file t = Some p →
  resolved_app w t = Some app →
  file_copy w (fm_path_to_str p) path = None →
  fm_template_create_file w (Some templ) (Some path) error s =
  Ok ({| cr_ret := bool_decide (app_launch w app path = None);
         cr_error := match app_launch w app path with
                     | Some e => g_set_error error e
                     | None => error
                     end;
         cr_io := [IoCopy (fm_path_to_str p) path; IoLaunch app path] |}, s).
Proof.
  intros Ht Hp Happ Hcopy. rewrite (create_file_app _ _ _ _ _ _ Ht), Happ, Hp.
  unfold g_file_copy. simpl. rewrite Hcopy. munfold.
  by destruct (app_launch w app path).
Qed.

(** [fm_template_create_file] for a caller that passes a location for the
    error, holding none yet, on a template with a target file and an
    application resolved, when the copy of the target file fails.  If the
    failure is that the source is not found, the application is launched
    on the destination and the result of the call is that of the launch;
    after any other failure the call returns [FALSE] with the error of the
    copy and launches nothing.  So a template without command whose target
    file does not exist and whose MIME type has a default application is
    created with success when the launch succeeds. *)
Lemma create_file_tolerates_not_found w s templ t p path app e :
  template_heap s !! templ = Some t →
  template_file t = Some p →
  resolved_app w t = Some app →
  file_copy w (fm_path_to_str p) path = Some e →
  (domain_is_io e = true ∧ code e = G_IO_ERROR_NOT_FOUND →
   fm_template_create_file w (Some templ) (Some path) (Some None) s =
   Ok ({| cr_ret := bool_decide (app_launch w app path = None);
          cr_error := Some (app_launch w app path);
          cr_io := [IoCopy (fm_path_to_str p) path; IoLaunch app path] |}, s)) ∧
  (¬ (domain_is_io e = true ∧ code e = G_IO_ERROR_NOT_FOUND) →
   fm_template_create_file w (Some templ) (Some path) (Some None) s =
   Ok ({| cr_ret := false; cr_error := Some (Some e);
          cr_io := [IoCopy (fm_path_to_str p) path] |}, s)) ∧
  (command t = None → app_default_for_type w (mime_type t) = Some app →
   domain_is_io e = true → code e = G_IO_ERROR_NOT_FOUND →
   app_launch w app path = None →
   fm_template_create_file w (Some templ) (Some path) (Some None) s =
   Ok ({| cr_ret := true; cr_error := Some None;
          cr_io := [IoCopy (fm_path_to_str p) path; IoLaunch app path] |}, s)).
Proof.
  intros Ht Hp Happ Hcopy.
  pose proof (create_file_copy_failed _ _ _ _ _ _ _ _ Ht Hp Happ Hcopy) as H.
  split; [|split].
  - intros [Hio Hcode]. rewrite H, Hio. by rewrite bool_decide_eq_true_2.
  - intros Hnot. rewrite H. destruct (domain_is_io e); [|done].
    rewrite bool_decide_eq_false_2; [done|]. intros ?. by apply Hnot.
  - intros _ _ Hio Hcode Hlaunch. rewrite H, Hio, Hlaunch.
    by rewrite bool_decide_eq_true_2.
Qed.

Lemma create_file_tolerates_not_found_witness :
  fm_template_create_file w_ex (Some 3) (Some "/home/u/new.txt") (Some None)
    s_two_entries =
  Ok ({| cr_ret := true; cr_error := Some None;
         cr_io := [IoCopy "/usr/share/templates/a.txt" "/home/u/new.txt";
                   IoLaunch "editor" "/home/u/new.txt"] |}, s_two_entries).
Proof.
  refine (proj2 (proj2 (create_file_tolerates_not_found w_ex s_two_entries 3
    {| ref_count := 2; files := [5; 4]; mime_type := "text/plain";
       template_file := Some "/usr/share/templates/a.txt"; icon := None;
       command := None; prompt := None; label := Some "New Text Document" |}
    "/usr/share/templates/a.txt" "/home/u/new.txt" "editor"
    {| domain_is_io := true; code := G_IO_ERROR_NOT_FOUND |} _ _ _ _))
    _ _ _ _ _).
  - vm_compute. reflexivity.
  - reflexivity.
  - reflexivity.
  - reflexivity.
  - reflexivity.
  - reflexivity.
  - reflexivity.
  - reflexivity.
  - reflexivity.
Defined.

(** C7, at the failing input.  A caller may pass [NULL] for [error]: the
    parameter is documented as optional (line 844).  Then, on a template
    with a target file and an application resolved, the test of the error
    after a failed copy (line 897) reads through the [NULL] pointer,
    whatever the failure was, the source that is not found included: the
    failure is not tolerated and the application is not launched. *)
Theorem create_file_null_error_faults w s templ t p path app e :
  template_heap s !! templ = Some t →
  template_file t = Some p →
  resolved_app w t = Some app →
  file_copy w (fm_path_to_str p) path = Some e →
  fm_template_create_file w (Some templ) (Some path) None s = Fault NullDeref.
Proof.
  intros Ht Hp Happ Hcopy. rewrite (create_file_app _ _ _ _ _ _ Ht), Happ, Hp.
  unfold g_file_copy. simpl. by rewrite Hcopy.
Qed.

Lemma create_file_null_error_faults_witness :
  fm_template_create_file w_ex (Some 3) (Some "/home/u/new.txt") None
    s_two_entries = Fault NullDeref.
Proof.
  apply (create_file_null_error_faults w_ex s_two_entries 3
    {| ref_count := 2; files := [5; 4]; mime_type := "text/plain";
       template_file := Some "/usr/share/templates/a.txt"; icon := None;
       command := None; prompt := None; label := Some "New Text Document" |}
    "/usr/share/templates/a.txt" "/home/u/new.txt" "editor"
    {| domain_is_io := true; code := G_IO_ERROR_NOT_FOUND |}).
  - vm_compute. reflexivity.
  - reflexivity.
  - reflexivity.
  - reflexivity.
Defined.

(** C8, at the failing input.  For a template without target file the code
    still calls [g_file_copy], with a [NULL] source (line 894).  GIO rejects
    the call with a critical message - the end of the program where these
    are fatal - and returns [FALSE] without an error set, so that the test
    of the error (line 897) reads through a [NULL] pointer.  The application
    is not launched. *)
Theorem create_file_without_target_faults w s templ t path app error :
  template_heap s !! templ = Some t →
  template_file t = None →
  resolved_app w t = Some app →
  error = None ∨ error = Some None →
  fm_template_create_file w (Some templ) (Some path) error s =
  if log_fatal w LOG_CRITICAL
  then Abort "g_file_copy: assertion 'G_IS_FILE (source)' failed"
  else Fault NullDeref.
Proof.
  intros Ht Hp Happ Herr. rewrite (create_file_app _ _ _ _ _ _ Ht), Happ, Hp.
  unfold g_file_copy, g_critical, g_log. simpl. munfold.
  destruct (log_fatal w LOG_CRITICAL); [done|].
  by destruct Herr as [-> | ->].
Qed.

Lemma create_file_without_target_faults_witness :
  fm_template_create_file w_ex (Some 3) (Some "/home/u/new.txt") (Some None)
    s_desktop_only = Fault NullDeref.
Proof.
  refine (create_file_without_target_faults w_ex s_desktop_only 3
    {| ref_count := 1; files := [4]; mime_type := "text/plain";
       template_file := None; icon := None; command := None; prompt := None;
       label := Some "New Text Document" |}
    "/home/u/new.txt" "editor" (Some None) _ _ _ _).
  - vm_compute. reflexivity.
  - reflexivity.
  - reflexivity.
  - right. reflexivity.
Defined.

(** ** A file created in an empty directory *)

(** The state right after set-up in the example environment. *)
Lemma init_example :
  _fm_templates_init w_ex empty_state =
  Ok (tt, {| templates := []; templates_dirs := [2; 1; 0];
             template_heap := ∅; file_heap := ∅;
             dir_heap :=
               <[2 := {| dir_files := []; dir_path := "/home/u/Templates";
                         monitor := true; user_dir := true |}]>
               (<[1 := {| dir_files := [];
                          dir_path := "/home/u/.local/share/templates";
                          monitor := true; user_dir := true |}]>
               (<[0 := {| dir_files := []; dir_path := "/usr/share/templates";
                          monitor := true; user_dir := false |}]> ∅));
             next_free := 3; log := [] |}).
Proof. vm_compute. reflexivity. Qed.

(** C10, at the failing input.  A [Created] event for a file of a known
    type in a directory whose entry list is empty: the handler finds or
    creates the template, allocates the entry and then stores to
    [dir->files->prev_in_dir] with [dir->files == NULL] (line 545). *)
Theorem created_in_empty_dir_faults w s gf d dr mime :
  dir_heap s !! d = Some dr →
  dir_files dr = [] →
  g_file_equal gf (fm_path_to_gfile (dir_path dr)) = false →
  _fm_template_guess_mime_type w
    (fm_path_new_child (dir_path dr) (g_file_get_basename gf))
    (g_str_has_suffix (g_file_get_basename gf) ".desktop") s = Ok (Some mime, s) →
  (∀ t, t ∈ templates s → is_Some (template_heap s !! t)) →
  on_dir_changed w gf G_FILE_MONITOR_EVENT_CREATED d s = Fault NullDeref.
Proof.
  intros Hd Hfiles Hgf Hmime Hlive. unfold on_dir_changed.
  rewrite (bind_Ok _ _ _ _ _ (get_dir_Ok _ _ _ Hd)), Hgf, Hfiles. simpl.
  rewrite (bind_Ok _ _ s None s eq_refl).
  destruct (find_for_file_total _ _ _ _ _ Hmime Hlive) as (t & s' & Hfind & _).
  rewrite (bind_Ok _ _ _ _ _ Hfind). by munfold.
Qed.

Lemma created_in_empty_dir_faults_witness :
  on_dir_changed w_ex "/home/u/Templates/a.txt" G_FILE_MONITOR_EVENT_CREATED 2
    (final_state (_fm_templates_init w_ex empty_state)) = Fault NullDeref.
Proof.
  eapply (created_in_empty_dir_faults w_ex _ "/home/u/Templates/a.txt" 2
            {| dir_files := []; dir_path := "/home/u/Templates";
               monitor := true; user_dir := true |} "text/plain").
  - vm_compute. reflexivity.
  - reflexivity.
  - vm_compute. reflexivity.
  - vm_compute. reflexivity.
  - intros t Ht. vm_compute in Ht. by apply elem_of_nil in Ht.
Defined.

(** The listing job guards the same store (line 467) and fills an empty
    directory. *)
Lemma job_finished_in_empty_dir :
  ∃ s, (_fm_templates_init w_ex;;
        on_job_finished w_ex [fi_plain "/home/u/Templates/a.txt"] 2) empty_state
       = Ok (tt, s) ∧
       dir_files <$> dir_heap s !! 2 = Some [4] ∧
       files <$> template_heap s !! 3 = Some [4].
Proof. eexists. split; [vm_compute; reflexivity|]. split; vm_compute; reflexivity. Qed.

(** In a directory that already has an entry the [Created] event links the
    new entry at the front of the list. *)
Lemma created_in_filled_dir :
  ∃ s, (_fm_templates_init w_ex;;
        on_job_finished w_ex [fi_plain "/home/u/Templates/a.txt"] 2;;
        on_dir_changed w_ex "/home/u/Templates/write.desktop"
          G_FILE_MONITOR_EVENT_CREATED 2) empty_state
       = Ok (tt, s) ∧
       dir_files <$> dir_heap s !! 2 = Some [5; 4] ∧
       files <$> template_heap s !! 3 = Some [5; 4].
Proof. eexists. split; [vm_compute; reflexivity|]. split; vm_compute; reflexivity. Qed.

(** ** Removal of the last entry *)

(** C3, at the failing input.  A caller holds a reference from
    [fm_template_list_all] when the only entry of a template is deleted:
    the template stays in the global list, with an empty chain, because it
    leaves the list in [fm_template_finalize] only, when the last reference
    goes.  The next [fm_template_list_all] then reads [files->inactive]
    through [NULL].  Without the outside reference the [Deleted] handler
    drops the last reference itself, under the lock that the finalizer then
    takes again (line 90). *)
Theorem last_entry_deleted_template_stays :
  (∃ s r,
     (_fm_templates_init w_ex;; run evs_last_deleted_held) empty_state = Ok (tt, s) ∧
     templates s = [3] ∧ template_heap s !! 3 = Some r ∧
     files r = [] ∧ ref_count r = 1 ∧
     fm_template_list_all false s = Fault NullDeref) ∧
  (_fm_templates_init w_ex;; run evs_last_deleted) empty_state = Fault Relock.
Proof.
  split; [|vm_compute; reflexivity].
  eexists. eexists. split; [vm_compute; reflexivity|].
  repeat split; vm_compute; reflexivity.
Qed.

(** ** Recomputing the fields *)

(** C4, at the failing input.  [_fm_template_update] clears
    [template_file], [icon], [command] and [prompt], not [label].  After the
    desktop entry that gave the label is deleted, the template has one
    entry, a plain file, and still the label. *)
Theorem update_keeps_stale_label :
  ∃ s r f,
    (_fm_templates_init w_ex;; run evs_desktop_deleted) empty_state = Ok (tt, s) ∧
    template_heap s !! 3 = Some r ∧ files r = [4] ∧
    file_heap s !! 4 = Some f ∧ is_desktop_entry f = false ∧
    label r = Some "New Text Document".
Proof.
  eexists. eexists. eexists. split; [vm_compute; reflexivity|].
  repeat split; vm_compute; reflexivity.
Qed.

(** ** An entry that is not in its chain *)

Lemma g_object_unref_shared w held s t r :
  template_heap s !! t = Some r → (1 < ref_count r)%nat →
  g_object_unref w held t s =
  Ok (tt, with_template_heap
            (<[t := with_ref_count (ref_count r - 1) r]> (template_heap s)) s).
Proof.
  intros Hr Hn. unfold g_object_unref.
  rewrite (bind_Ok _ _ _ _ _ (get_templ_Ok _ _ _ Hr)).
  destruct (decide _); [lia|]. by apply update_templ_Ok.
Qed.

(** C9 as stated fails: the entry at address 5 is not in the chain of its
    template, and [_fm_template_file_free] returns normally, having logged
    a message. *)
Lemma missing_entry_is_not_fatal :
  ∃ r s',
    template_heap s_missing !! 3 = Some r ∧
    chain_unlink 5 (files r) = None ∧
    _fm_template_file_free w_ex true 3 5 true s_missing = Ok (tt, s') ∧
    log s' = [(LOG_CRITICAL, missed_msg)].
Proof.
  eexists. eexists. split; [vm_compute; reflexivity|].
  split; [reflexivity|]. split; vm_compute; reflexivity.
Qed.

(** C9, amended.  An entry that is not found in the chain of its template
    is reported with [g_critical].  This ends the program only where
    critical messages have been made fatal.  Otherwise the message is
    logged and the removal goes on, whatever the number of references of
    the template, with the steps that follow the search (lines 426-430),
    on the chain as it was: the reference to the template is dropped, the
    entry is freed and, if asked for, the fields are recomputed.  Where the
    template holds another reference, and the entry is allocated, the first
    two of these steps return, with the count one less and the entry
    gone. *)
Theorem file_free_missing_entry w held s templ file do_update r :
  template_heap s !! templ = Some r →
  chain_unlink file (files r) = None →
  let s1 := with_log ((LOG_CRITICAL, missed_msg) :: log s) s in
  (log_fatal w LOG_CRITICAL = true →
   _fm_template_file_free w held templ file do_update s = Abort missed_msg) ∧
  (log_fatal w LOG_CRITICAL = false →
   template_heap s1 !! templ = Some r ∧
   _fm_template_file_free w held templ file do_update s =
   (g_object_unref w held templ;;
    _ ← get_file file;
    modify (λ s, with_file_heap (delete file (file_heap s)) s);;
    if do_update then _fm_template_update w templ else mret tt) s1) ∧
  (log_fatal w LOG_CRITICAL = false →
   is_Some (file_heap s !! file) → (1 < ref_count r)%nat →
   _fm_template_file_free w held templ file do_update s =
   (if do_update then _fm_template_update w templ else mret tt)
     (with_file_heap (delete file (file_heap s))
        (with_template_heap
           (<[templ := with_ref_count (ref_count r - 1) r]> (template_heap s))
           s1))).
Proof.
  intros Hr Hmiss s1. unfold _fm_template_file_free.
  rewrite (bind_Ok _ _ _ _ _ (get_templ_Ok _ _ _ Hr)), Hmiss.
  assert (log_fatal w LOG_CRITICAL = false →
          g_critical w missed_msg s = Ok (tt, s1)) as Hlog.
  { intros Hfatal. unfold g_critical, g_log. by rewrite Hfatal. }
  split_and!.
  - intros Hfatal. unfold g_critical, g_log. munfold. by rewrite Hfatal.
  - intros Hfatal. split; [done|].
    by rewrite (bind_Ok _ _ _ _ _ (Hlog Hfatal)).
  - intros Hfatal [f Hf] Hn.
    rewrite (bind_Ok _ _ _ _ _ (Hlog Hfatal)).
    rewrite (bind_Ok _ _ _ _ _ (g_object_unref_shared w held s1 templ r Hr Hn)).
    erewrite (bind_Ok (get_file file)); [|by apply get_file_Ok].
    by rewrite (bind_Ok (modify _) _ _ tt _ eq_refl).
Qed.

Lemma file_free_missing_entry_witness :
  _fm_template_file_free w_ex false 3 5 false s_missing =
  Ok (tt, with_file_heap (delete 5 (file_heap s_missing))
            (with_template_heap
               (<[3 := {| ref_count := 1; files := [4]; mime_type := "text/plain";
                          template_file := None; icon := None; command := None;
                          prompt := None; label := None |}]>
                  (template_heap s_missing))
               (with_log [(LOG_CRITICAL, missed_msg)] s_missing))).
Proof.
  refine (proj2 (proj2 (file_free_missing_entry w_ex false s_missing 3 5 false
                   {| ref_count := 2; files := [4]; mime_type := "text/plain";
                      template_file := None; icon := None; command := None;
                      prompt := None; label := None |} _ _)) _ _ _).
  - vm_compute. reflexivity.
  - reflexivity.
  - reflexivity.
  - vm_compute. eexists. reflexivity.
  - simpl. lia.
Defined.

(** ** What one entry does to the template *)

Lemma with_template_heap_id s t r :
  template_heap s !! t = Some r →
  with_template_heap (<[t := r]> (template_heap s)) s = s.
Proof. intros H. rewrite insert_id by done. by destruct s. Qed.

Lemma with_template_heap_twice h h' s :
  with_template_heap h (with_template_heap h' s) = with_template_heap h s.
Proof. reflexivity. Qed.

(** An assignment to a field that is made only if a key is there. *)
Lemma update_templ_opt {X} (o : option X) (g : X → FmTemplate → FmTemplate) s t r :
  template_heap s !! t = Some r →
  (match o with Some x => update_templ t (g x) | None => mret tt end) s =
  Ok (tt, with_template_heap
            (<[t := match o with Some x => g x r | None => r end]> (template_heap s)) s).
Proof.
  intros H. destruct o; [by apply update_templ_Ok|].
  by rewrite with_template_heap_id.
Qed.

Lemma update_from_entry_plain w s templ a f t :
  file_heap s !! a = Some f → is_desktop_entry f = false →
  template_heap s !! templ = Some t →
  update_from_entry w templ a s =
  Ok (tt, with_template_heap
            (<[templ := match template_file t with
                        | None => with_template_file (Some (path f)) t
                        | Some _ => t
                        end]> (template_heap s)) s).
Proof.
  intros Hf Hde Ht. unfold update_from_entry.
  rewrite (bind_Ok _ _ _ _ _ (get_file_Ok _ _ _ Hf)), Hde.
  rewrite (bind_Ok _ _ _ _ _ (get_templ_Ok _ _ _ Ht)).
  destruct (template_file t); [|by apply update_templ_Ok].
  by rewrite with_template_heap_id.
Qed.

Lemma update_from_entry_hidden w s templ a f kf :
  file_heap s !! a = Some f → is_desktop_entry f = true →
  key_file_load w (fm_path_to_str (path f)) = Some kf → kf_Hidden kf = true →
  update_from_entry w templ a s =
  Ok (tt, with_file_heap (<[a := with_inactive true f]> (file_heap s)) s).
Proof.
  intros Hf Hde Hkf Hh. unfold update_from_entry.
  rewrite (bind_Ok _ _ _ _ _ (get_file_Ok _ _ _ Hf)), Hde, Hkf, Hh.
  by rewrite (bind_Ok _ _ _ _ _ (update_file_Ok _ _ _ _ Hf)).
Qed.

Lemma update_from_entry_desktop w s templ a f kf t dr :
  file_heap s !! a = Some f → is_desktop_entry f = true →
  key_file_load w (fm_path_to_str (path f)) = Some kf → kf_Hidden kf = false →
  template_heap s !! templ = Some t →
  dir_heap s !! dir f = Some dr →
  update_from_entry w templ a s =
  Ok (tt, with_template_heap
            (<[templ := apply_key_file kf (dir_path dr) t]> (template_heap s))
            (with_file_heap (<[a := with_inactive false f]> (file_heap s)) s)).
Proof.
  intros Hf Hde Hkf Hh Ht Hd. unfold update_from_entry.
  rewrite (bind_Ok _ _ _ _ _ (get_file_Ok _ _ _ Hf)), Hde, Hkf, Hh.
  rewrite (bind_Ok _ _ _ _ _ (update_file_Ok _ _ _ _ Hf)).
  set (s1 := with_file_heap _ s).
  assert (template_heap s1 !! templ = Some t) as Ht1 by done.
  assert (dir_heap s1 !! dir f = Some dr) as Hd1 by done.
  unfold apply_key_file.
  set (t1 := match kf_URL kf with Some _ => _ | None => t end).
  assert ((match kf_URL kf with
           | Some tmp =>
               if is_absolute tmp then
                 update_templ templ (with_template_file (Some (fm_path_new_for_str tmp)))
               else
                 d ← get_dir (dir f);
                 update_templ templ
                   (with_template_file (Some (fm_path_new_relative (dir_path d) tmp)))
           | None => mret tt
           end) s1 = Ok (tt, with_template_heap (<[templ := t1]> (template_heap s1)) s1))
    as Hurl.
  { subst t1. destruct (kf_URL kf) as [tmp|]; [|by rewrite with_template_heap_id].
    destruct (is_absolute tmp); [by apply update_templ_Ok|].
    rewrite (bind_Ok _ _ _ _ _ (get_dir_Ok _ _ _ Hd1)). by apply update_templ_Ok. }
  rewrite (bind_Ok _ _ _ _ _ Hurl).
  rewrite (bind_Ok _ _ _ _ _
             (update_templ_opt (kf_Icon kf) (λ x, with_icon (Some x)) _ templ t1
                (lookup_insert_eq _ _ _))).
  rewrite with_template_heap_twice. simpl. rewrite insert_insert_eq.
  set (t2 := match kf_Icon kf with Some _ => _ | None => t1 end).
  rewrite (bind_Ok _ _ _ _ _
             (update_templ_opt (kf_Exec kf) (λ x, with_command (Some x)) _ templ t2
                (lookup_insert_eq _ _ _))).
  rewrite with_template_heap_twice. simpl. rewrite insert_insert_eq.
  set (t3 := match kf_Exec kf with Some _ => _ | None => t2 end).
  rewrite (bind_Ok _ _ _ _ _
             (update_templ_opt (kf_Name kf) (λ x, with_label (Some x)) _ templ t3
                (lookup_insert_eq _ _ _))).
  rewrite with_template_heap_twice. simpl. rewrite insert_insert_eq.
  set (t4 := match kf_Name kf with Some _ => _ | None => t3 end).
  rewrite (update_templ_opt (kf_Comment kf) (λ x, with_prompt (Some x)) _ templ t4
             (lookup_insert_eq _ _ _)).
  rewrite with_template_heap_twice. simpl. by rewrite insert_insert_eq.
Qed.

Lemma apply_key_file_url kf dp t url :
  kf_URL kf = Some url →
  template_file (apply_key_file kf dp t) =
  Some (if is_absolute url then fm_path_new_for_str url
        else fm_path_new_relative dp url).
Proof.
  intros H. unfold apply_key_file. rewrite H.
  by destruct (kf_Icon kf), (kf_Exec kf), (kf_Name kf), (kf_Comment kf).
Qed.

(** [_fm_template_update] is the fold of the chain over the cleared
    template. *)
Lemma update_unfold w s templ t :
  template_heap s !! templ = Some t →
  _fm_template_update w templ s =
  _fm_template_update_from_file w templ (files t)
    (with_template_heap (<[templ := cleared t]> (template_heap s)) s).
Proof.
  intros Ht. unfold _fm_template_update.
  rewrite (bind_Ok _ _ _ _ _ (update_templ_Ok _ _ _ _ Ht)).
  rewrite (bind_Ok _ _ _ _ _ (update_templ_Ok _ _ _ _ (lookup_insert_eq _ _ _))).
  rewrite with_template_heap_twice. simpl. rewrite insert_insert_eq.
  rewrite (bind_Ok _ _ _ _ _ (update_templ_Ok _ _ _ _ (lookup_insert_eq _ _ _))).
  rewrite with_template_heap_twice. simpl. rewrite insert_insert_eq.
  rewrite (bind_Ok _ _ _ _ _ (update_templ_Ok _ _ _ _ (lookup_insert_eq _ _ _))).
  rewrite with_template_heap_twice. simpl. rewrite insert_insert_eq.
  erewrite bind_Ok; [|apply get_templ_Ok, lookup_insert_eq]. done.
Qed.

(** ** C5: the target file *)

(** C5.  A template with two entries, a plain file and a desktop entry that
    is not hidden and has a [URL] key, in either order: after
    [_fm_template_update] the target file is the URL, taken as it is when
    it is absolute and else relative to the directory of the desktop entry.
    And a plain file sets the target file only where there is none. *)
Theorem target_file_precedence w s templ t d p fd fp kf url dr :
  template_heap s !! templ = Some t →
  files t = [d; p] ∨ files t = [p; d] →
  file_heap s !! d = Some fd → is_desktop_entry fd = true →
  key_file_load w (fm_path_to_str (path fd)) = Some kf →
  kf_Hidden kf = false → kf_URL kf = Some url →
  dir_heap s !! dir fd = Some dr →
  file_heap s !! p = Some fp → is_desktop_entry fp = false →
  (∃ s' t',
     _fm_template_update w templ s = Ok (tt, s') ∧
     template_heap s' !! templ = Some t' ∧
     template_file t' =
       Some (if is_absolute url then fm_path_new_for_str url
             else fm_path_new_relative (dir_path dr) url)) ∧
  (∀ s0 t0,
     template_heap s0 !! templ = Some t0 → file_heap s0 !! p = Some fp →
     ∃ s1 t1,
       update_from_entry w templ p s0 = Ok (tt, s1) ∧
       template_heap s1 !! templ = Some t1 ∧
       template_file t1 = match template_file t0 with
                          | Some target => Some target
                          | None => Some (path fp)
                          end).
Proof.
  intros Ht Hchain Hd Hde Hkf Hh Hurl Hdr Hp Hpl.
  assert (d ≠ p) as Hne by (intros ->; congruence).
  split.
  - rewrite (update_unfold _ _ _ _ Ht).
    set (s0 := with_template_heap _ s).
    assert (template_heap s0 !! templ = Some (cleared t)) as Ht0
      by apply lookup_insert_eq.
    destruct Hchain as [-> | ->]; simpl.
    + (* the plain file is read first, then the desktop entry *)
      rewrite ret_bind.
      erewrite bind_Ok; [|by eapply update_from_entry_plain].
      erewrite update_from_entry_desktop;
        [|done..|apply lookup_insert_eq|done].
      eexists. eexists. split; [done|]. simpl. rewrite lookup_insert_eq.
      split; [done|]. by apply apply_key_file_url.
    + (* the desktop entry is read first, then the plain file *)
      rewrite ret_bind.
      erewrite bind_Ok; [|by eapply update_from_entry_desktop].
      erewrite update_from_entry_plain;
        [|simpl; rewrite lookup_insert_ne; done|done|apply lookup_insert_eq].
      eexists. eexists. split; [done|]. simpl. rewrite lookup_insert_eq.
      rewrite (apply_key_file_url _ _ _ _ Hurl). split; [done|].
      by apply apply_key_file_url.
  - intros s0 t0 Ht0 Hp0.
    rewrite (update_from_entry_plain _ _ _ _ _ _ Hp0 Hpl Ht0).
    eexists. eexists. split; [done|]. simpl. rewrite lookup_insert_eq.
    split; [done|]. by destruct (template_file t0) eqn:E.
Qed.

Lemma target_file_precedence_witness :
  ∃ s' t',
    _fm_template_update w_ex 3 s_link = Ok (tt, s') ∧
    template_heap s' !! 3 = Some t' ∧
    template_file t' = Some "/home/u/Templates/skel/letter.txt".
Proof.
  refine (proj1 (target_file_precedence w_ex s_link 3
    {| ref_count := 2; files := [5; 4]; mime_type := "text/plain";
       template_file := Some "/home/u/Templates/skel/letter.txt";
       icon := None; command := None; prompt := None; label := None |}
    5 4
    {| dir := 2; templ := 3; path := "/home/u/Templates/link.desktop";
       is_desktop_entry := true; inactive := false |}
    {| dir := 0; templ := 3; path := "/usr/share/templates/a.txt";
       is_desktop_entry := false; inactive := false |}
    {| kf_Type := Some "Application"; kf_MimeType := Some "text/plain";
       kf_URL := Some "skel/letter.txt"; kf_Icon := None; kf_Exec := None;
       kf_Name := None; kf_Comment := None; kf_Hidden := false |}
    "skel/letter.txt"
    {| dir_files := [5]; dir_path := "/home/u/Templates";
       monitor := true; user_dir := true |}
    _ _ _ _ _ _ _ _ _ _)).
  - vm_compute. reflexivity.
  - left. reflexivity.
  - vm_compute. reflexivity.
  - reflexivity.
  - vm_compute. reflexivity.
  - reflexivity.
  - reflexivity.
  - vm_compute. reflexivity.
  - vm_compute. reflexivity.
  - reflexivity.
Defined.

(** ** The list of templates *)

Lemma same_chains_refl s : same_chains s s.
Proof.
  repeat split. intros t. destruct (template_heap s !! t); by constructor.
Qed.

Lemma same_chains_ref s s1 t r :
  same_chains s s1 → template_heap s1 !! t = Some r →
  same_chains s
    (with_template_heap
       (<[t := with_ref_count (S (ref_count r)) r]> (template_heap s1)) s1).
Proof.
  intros (Ht & Hf & Hd & Hc) Hr. repeat split; [done..|].
  intros t'. simpl. destruct (decide (t = t')) as [<-|Hne].
  - rewrite lookup_insert_eq. specialize (Hc t). rewrite Hr in Hc.
    inversion Hc; subst. by constructor.
  - rewrite lookup_insert_ne by done. apply Hc.
Qed.

Lemma same_chains_lookup s s1 t r :
  same_chains s s1 → template_heap s !! t = Some r →
  ∃ r1, template_heap s1 !! t = Some r1 ∧ files r1 = files r.
Proof.
  intros (_ & _ & _ & Hc) Hr. specialize (Hc t). rewrite Hr in Hc.
  destruct (template_heap s1 !! t) as [r1|] eqn:E; inversion Hc; subst.
  by exists r1.
Qed.

Lemma listed_iff user_only s t r first rest f d :
  template_heap s !! t = Some r → files r = first :: rest →
  file_heap s !! first = Some f → dir_heap s !! dir f = Some d →
  listed user_only s t ↔
  (if inactive f then false else if negb user_only then true else user_dir d) = true.
Proof.
  intros Hr Hfiles Hf Hd. split.
  - intros (r' & first' & rest' & f' & d' & Hr' & Hfiles' & Hf' & Hd' & Hin & Hu).
    assert (r' = r) as -> by congruence.
    assert (first' = first) as -> by congruence.
    assert (f' = f) as -> by congruence.
    assert (d' = d) as -> by congruence.
    rewrite Hin. destruct user_only; [|done]. by apply Hu.
  - intros Hk. exists r, first, rest, f, d. repeat split; try done.
    + by destruct (inactive f).
    + intros ->. by destruct (inactive f).
Qed.

Lemma list_all_loop_spec user_only s l :
  (∀ t, t ∈ l →
     ∃ r first rest f d,
       template_heap s !! t = Some r ∧ files r = first :: rest ∧
       file_heap s !! first = Some f ∧ dir_heap s !! (dir f) = Some d) →
  ∀ result s1, same_chains s s1 →
  ∃ res s2,
    list_all_loop user_only l result s1 = Ok (res, s2) ∧ same_chains s s2 ∧
    ∀ t, t ∈ res ↔ t ∈ result ∨ (t ∈ l ∧ listed user_only s t).
Proof.
  induction l as [|data l IH]; intros Hl result s1 Hs1; simpl.
  - exists result, s1. split; [done|]. split; [done|]. intros t.
    rewrite elem_of_nil. tauto.
  - destruct (Hl data) as (r & first & rest & f & d & Hr & Hfiles & Hf & Hd); [left|].
    pose proof Hs1 as (_ & Hfh & Hdh & _).
    destruct (same_chains_lookup _ _ _ _ Hs1 Hr) as (r1 & H & Hfiles1).
    rewrite Hfiles in Hfiles1.
    rewrite (bind_Ok _ _ _ _ _ (get_templ_Ok _ _ _ H)), Hfiles1.
    rewrite <-Hfh in Hf. rewrite <-Hdh in Hd.
    rewrite (bind_Ok _ _ _ _ _ (get_file_Ok _ _ _ Hf)).
    rewrite Hfh in Hf. rewrite Hdh in Hd.
    pose proof (listed_iff user_only s data r first rest f d Hr Hfiles Hf Hd) as Hiff.
    assert (∀ acc', (∀ t, t ∈ acc' ↔ t ∈ result ∨ (t = data ∧ listed user_only s data)) →
            ∀ s1', same_chains s s1' →
            ∃ res s2, list_all_loop user_only l acc' s1' = Ok (res, s2) ∧
              same_chains s s2 ∧
              ∀ t, t ∈ res ↔ t ∈ result ∨ (t ∈ data :: l ∧ listed user_only s t))
      as Hrest.
    { intros acc' Hacc s1' Hs1'.
      destruct (IH (λ t Ht, Hl t (list_elem_of_further _ _ _ Ht)) acc' s1' Hs1')
        as (res & s2 & Hrun & Hs2 & Hres).
      exists res, s2. split; [done|]. split; [done|]. intros t.
      rewrite Hres, Hacc, elem_of_cons. intuition (subst; auto). }
    assert (∀ s1', s1' = s1 ∨
              s1' = with_template_heap
                      (<[data := with_ref_count (S (ref_count r1)) r1]>
                         (template_heap s1)) s1 → same_chains s s1') as Hsame.
    { intros s1' [->| ->]; [done|]. by apply same_chains_ref. }
    destruct (inactive f) eqn:Hin.
    { rewrite ret_bind. apply Hrest; [|done]. intros t. split; [tauto|].
      intros [?|[_ ?%Hiff]]; done. }
    destruct user_only; simpl.
    + rewrite <-Hdh in Hd.
      rewrite (bind_Ok (d ← get_dir (dir f); mret (user_dir d)) _ s1 (user_dir d) s1)
        by by rewrite (bind_Ok _ _ _ _ _ (get_dir_Ok _ _ _ Hd)).
      destruct (user_dir d) eqn:Hud.
      * unfold g_object_ref.
        rewrite (bind_Ok _ _ _ _ _ (update_templ_Ok _ _ _ _ H)).
        apply Hrest; [|apply Hsame; by right]. intros t.
        rewrite elem_of_cons. pose proof (proj2 Hiff eq_refl).
        intuition (subst; auto).
      * apply Hrest; [|done]. intros t. split; [tauto|].
        intros [?|[_ ?%Hiff]]; done.
    + rewrite ret_bind. unfold g_object_ref.
      rewrite (bind_Ok _ _ _ _ _ (update_templ_Ok _ _ _ _ H)).
      apply Hrest; [|apply Hsame; by right]. intros t.
      rewrite elem_of_cons. pose proof (proj2 Hiff eq_refl).
      intuition (subst; auto).
Qed.

(** In [s_hidden] the hidden desktop entry is the head of the chain and the
    plain file below it is active: nothing is listed. *)
Lemma list_all_hidden_head :
  files <$> template_heap s_hidden !! 3 = Some [5; 4] ∧
  inactive <$> file_heap s_hidden !! 5 = Some true ∧
  inactive <$> file_heap s_hidden !! 4 = Some false ∧
  ∃ s', fm_template_list_all false s_hidden = Ok ([], s').
Proof.
  split; [vm_compute; reflexivity|]. split; [vm_compute; reflexivity|].
  split; [vm_compute; reflexivity|]. eexists. vm_compute. reflexivity.
Qed.

(** ** Handlers that leave the links alone *)

Lemma fields_only_refl s : fields_only s s.
Proof.
  repeat split.
  - intros t. destruct (template_heap s !! t); by constructor.
  - intros a. destruct (file_heap s !! a); by constructor.
Qed.

Lemma fields_only_trans s1 s2 s3 :
  fields_only s1 s2 → fields_only s2 s3 → fields_only s1 s3.
Proof.
  intros (H1 & H2 & H3 & H4 & H5 & H6) (G1 & G2 & G3 & G4 & G5 & G6).
  repeat split; try congruence.
  - intros t. specialize (H5 t). specialize (G5 t).
    destruct H5 as [r1 r2 [? ?]|]; inversion G5 as [? r3 [? ?]|]; subst;
      constructor. split; congruence.
  - intros a. specialize (H6 a). specialize (G6 a).
    destruct H6 as [f1 f2 (? & ? & ? & ?)|];
      inversion G6 as [? f3 (? & ? & ? & ?)|]; subst; constructor.
    repeat split; congruence.
Qed.

Lemma pf_ret {A} (a : A) : preserves_fields (mret a : M A).
Proof. intros s b s' [_ <-]%ret_inv. apply fields_only_refl. Qed.

Lemma pf_bind {A B} (m : M A) (f : A → M B) :
  preserves_fields m → (∀ a, preserves_fields (f a)) → preserves_fields (m ≫= f).
Proof.
  intros Hm Hf s b s' (a & s1 & H1 & H2)%bind_inv.
  eapply fields_only_trans; [by eapply Hm|by eapply Hf].
Qed.

Lemma pf_get : preserves_fields get.
Proof. intros s a s' [= <- <-]. apply fields_only_refl. Qed.

Lemma pf_raise {A} e : preserves_fields (raise e : M A).
Proof. intros s a s' H. discriminate. Qed.

Lemma pf_get_templ t : preserves_fields (get_templ t).
Proof. intros s a s' [_ ->]%get_templ_inv. apply fields_only_refl. Qed.

Lemma pf_get_file a : preserves_fields (get_file a).
Proof. intros s f s' [_ ->]%get_file_inv. apply fields_only_refl. Qed.

Lemma pf_get_dir d : preserves_fields (get_dir d).
Proof. intros s f s' [_ ->]%get_dir_inv. apply fields_only_refl. Qed.

Lemma pf_update_templ t f :
  (∀ r, same_links r (f r)) → preserves_fields (update_templ t f).
Proof.
  intros Hf s u s' (r & Hr & ->)%update_templ_inv. repeat split; simpl.
  - intros t'. destruct (decide (t = t')) as [<-|Hne].
    + rewrite lookup_insert_eq, Hr. constructor. apply Hf.
    + rewrite lookup_insert_ne by done.
      destruct (template_heap s !! t'); by constructor.
  - intros a. destruct (file_heap s !! a); by constructor.
Qed.

Lemma pf_update_file a b : preserves_fields (update_file a (with_inactive b)).
Proof.
  intros s u s' (r & Hr & ->)%update_file_inv. repeat split; simpl.
  - intros t. destruct (template_heap s !! t); by constructor.
  - intros a'. destruct (decide (a = a')) as [<-|Hne].
    + rewrite lookup_insert_eq, Hr. by constructor.
    + rewrite lookup_insert_ne by done.
      destruct (file_heap s !! a'); by constructor.
Qed.

Lemma fields_only_log s l : fields_only s (with_log l s).
Proof. apply (fields_only_refl s). Qed.

Lemma pf_g_log w lvl msg : preserves_fields (g_log w lvl msg).
Proof.
  intros s u s' H. unfold g_log in H.
  destruct lvl; [done|..]; destruct (log_fatal w _); try done;
    inversion H; subst; apply fields_only_log.
Qed.

Lemma pf_g_object_ref t : preserves_fields (g_object_ref t).
Proof. apply pf_update_templ. done. Qed.

Create HintDb pf discriminated.
#[local] Hint Resolve pf_ret pf_get pf_raise pf_get_templ pf_get_file pf_get_dir
  pf_update_file pf_g_log pf_g_object_ref : pf.
#[local] Hint Extern 1 (preserves_fields (update_templ _ _)) =>
  apply pf_update_templ; done : pf.
#[local] Hint Extern 1 (preserves_fields (g_warning _ _)) => apply pf_g_log : pf.
#[local] Hint Extern 1 (preserves_fields (g_debug _ _)) => apply pf_g_log : pf.
#[local] Hint Extern 1 (preserves_fields (g_critical _ _)) => apply pf_g_log : pf.

(** Splits a handler at its binds and branches. *)
Ltac pf_step :=
  match goal with
  | |- preserves_fields (_ ≫= _) => apply pf_bind; [|intros ?]
  | |- preserves_fields (match ?x with _ => _ end) => destruct x
  | |- preserves_fields (if ?x then _ else _) => destruct x
  | |- preserves_fields _ => solve [auto with pf]
  end.

Lemma pf_update_from_entry w templ file :
  preserves_fields (update_from_entry w templ file).
Proof. unfold update_from_entry. repeat pf_step. Qed.

Lemma pf_update_from_file w templ chain :
  preserves_fields (_fm_template_update_from_file w templ chain).
Proof.
  induction chain as [|file chain IH]; simpl; [apply pf_ret|].
  apply pf_bind; [done|]. intros _. apply pf_update_from_entry.
Qed.

Lemma pf_update w templ : preserves_fields (_fm_template_update w templ).
Proof.
  unfold _fm_template_update. repeat pf_step. apply pf_update_from_file.
Qed.

Lemma pf_find_by_mime_type l mime : preserves_fields (find_by_mime_type l mime).
Proof. induction l; simpl; repeat pf_step. Qed.

Lemma pf_find_in_dir_by_path l p : preserves_fields (find_in_dir_by_path l p).
Proof. induction l; simpl; repeat pf_step. Qed.

Lemma pf_find_in_dir_by_basename l b :
  preserves_fields (find_in_dir_by_basename l b).
Proof. induction l; simpl; repeat pf_step. Qed.

Lemma pf_store_prev_in_dir p : preserves_fields (store_prev_in_dir p).
Proof. unfold store_prev_in_dir. repeat pf_step. Qed.

Lemma pf_insert_sorted_loop file f last_dir next :
  preserves_fields (insert_sorted_loop file f last_dir next).
Proof.
  revert last_dir. induction next as [|n rest IH]; intros last_dir; simpl;
    [apply pf_ret|].
  destruct last_dir as [|d0 last_dir0]; [apply pf_ret|].
  apply pf_bind; [apply pf_get_file|]. intros nx.
  destruct (skip_dirs _ _ _); [apply pf_ret|].
  repeat pf_step.
Qed.

Lemma pf_list_all_loop user_only l result :
  preserves_fields (list_all_loop user_only l result).
Proof.
  revert result. induction l as [|data l IH]; intros result; simpl; repeat pf_step.
Qed.

Lemma pf_list_all user_only : preserves_fields (fm_template_list_all user_only).
Proof. unfold fm_template_list_all. repeat pf_step. apply pf_list_all_loop. Qed.

#[local] Hint Resolve pf_update pf_find_by_mime_type pf_find_in_dir_by_path
  pf_find_in_dir_by_basename pf_store_prev_in_dir pf_insert_sorted_loop
  pf_list_all : pf.

(** ** The invariant under changes of fields *)

Lemma fields_only_templ s s' t r' :
  fields_only s s' → template_heap s' !! t = Some r' →
  ∃ r, template_heap s !! t = Some r ∧ same_links r r'.
Proof.
  intros (_ & _ & _ & _ & H & _) Hr. specialize (H t). rewrite Hr in H.
  inversion H; subst. eauto.
Qed.

Lemma fields_only_templ_fwd s s' t r :
  fields_only s s' → template_heap s !! t = Some r →
  ∃ r', template_heap s' !! t = Some r' ∧ same_links r r'.
Proof.
  intros (_ & _ & _ & _ & H & _) Hr. specialize (H t). rewrite Hr in H.
  inversion H; subst. eauto.
Qed.

Lemma fields_only_file s s' a f' :
  fields_only s s' → file_heap s' !! a = Some f' →
  ∃ f, file_heap s !! a = Some f ∧ same_entry f f'.
Proof.
  intros (_ & _ & _ & _ & _ & H) Hf. specialize (H a). rewrite Hf in H.
  inversion H; subst. eauto.
Qed.

Lemma fields_only_file_fwd s s' a f :
  fields_only s s' → file_heap s !! a = Some f →
  ∃ f', file_heap s' !! a = Some f' ∧ same_entry f f'.
Proof.
  intros (_ & _ & _ & _ & _ & H) Hf. specialize (H a). rewrite Hf in H.
  inversion H; subst. eauto.
Qed.

Lemma StronglySorted_mono {A} (R R' : A → A → Prop) l :
  (∀ x y, x ∈ l → y ∈ l → R x y → R' x y) →
  StronglySorted R l → StronglySorted R' l.
Proof.
  induction l as [|x l IH]; intros HR Hs; [constructor|].
  inversion Hs as [|? ? Hl Hx]; subst. constructor.
  - apply IH; [|done]. intros y z Hy Hz. apply HR; by right.
  - rewrite Forall_forall in Hx |- *. intros y Hy.
    apply HR; [left|by right|by apply Hx].
Qed.

Lemma chain_le_fields_only s s' a b :
  fields_only s s' → chain_le s a b → chain_le s' a b.
Proof.
  intros Hfo (fa & fb & Ha & Hb & Hle).
  destruct (fields_only_file_fwd _ _ _ _ Hfo Ha) as (fa' & Ha' & Hda & _ & _ & Hea).
  destruct (fields_only_file_fwd _ _ _ _ Hfo Hb) as (fb' & Hb' & Hdb & _ & _ & Heb).
  exists fa', fb'. split; [done|]. split; [done|].
  destruct Hfo as (_ & -> & _). unfold entry_key in *.
  by rewrite <-Hda, <-Hdb, <-Hea, <-Heb.
Qed.

Lemma unlinked_fields_only s s' file :
  fields_only s s' → unlinked s file → unlinked s' file.
Proof.
  intros Hfo Hu t r' Hr'.
  destruct (fields_only_templ _ _ _ _ Hfo Hr') as (r & Hr & Hfiles & _).
  rewrite <-Hfiles. by eapply Hu.
Qed.

Lemma inv_fields_only s s' :
  registry_inv s → fields_only s s' → registry_inv s'.
Proof.
  intros [[Hnd [Hlist Hmime]] Htf Hff Hdn Hdl Hdv Hce Hcn Hcs] Hfo.
  pose proof Hfo as (Et & Ed & Edh & En & Hth & Hfh).
  split.
  - split; [by rewrite Et|]. split.
    + intros t. rewrite Et, Hlist. specialize (Hth t).
      split; intros [x Hx]; rewrite Hx in Hth; inversion Hth; eauto.
    + intros t1 t2 r1' r2' H1 H2 Hm.
      destruct (fields_only_templ _ _ _ _ Hfo H1) as (r1 & G1 & _ & M1).
      destruct (fields_only_templ _ _ _ _ Hfo H2) as (r2 & G2 & _ & M2).
      apply (Hmime t1 t2 r1 r2 G1 G2). congruence.
  - intros t [r' Hr']. rewrite En. apply Htf.
    destruct (fields_only_templ _ _ _ _ Hfo Hr') as (r & Hr & _). eauto.
  - intros a [f' Hf']. rewrite En. apply Hff.
    destruct (fields_only_file _ _ _ _ Hfo Hf') as (f & Hf & _). eauto.
  - by rewrite Ed.
  - intros d. rewrite Edh, Ed. apply Hdl.
  - intros d. rewrite Edh, Ed. apply Hdv.
  - intros t r' Hr' a Ha.
    destruct (fields_only_templ _ _ _ _ Hfo Hr') as (r & Hr & Hfiles & _).
    rewrite <-Hfiles in Ha. destruct (Hce t r Hr a Ha) as (f & Hf & Htempl & Hdir).
    destruct (fields_only_file_fwd _ _ _ _ Hfo Hf) as (f' & Hf' & Hd' & Ht' & _).
    exists f'. rewrite Ed, <-Hd', <-Ht'. done.
  - intros t r' Hr'.
    destruct (fields_only_templ _ _ _ _ Hfo Hr') as (r & Hr & Hfiles & _).
    rewrite <-Hfiles. by eapply Hcn.
  - intros t r' Hr'.
    destruct (fields_only_templ _ _ _ _ Hfo Hr') as (r & Hr & Hfiles & _).
    rewrite <-Hfiles. eapply StronglySorted_mono; [|by eapply Hcs].
    intros x y _ _. by apply chain_le_fields_only.
Qed.

(** ** Ranks of directories *)

Lemma dir_rank_lt dirs x : x ∈ dirs → (dir_rank dirs x < length dirs)%nat.
Proof.
  induction dirs as [|d dirs IH]; intros Hx; [by apply elem_of_nil in Hx|].
  simpl. destruct (decide (d = x)); [lia|].
  apply elem_of_cons in Hx as [->|Hx]; [done|]. specialize (IH Hx). lia.
Qed.

Lemma dir_rank_app_l pre suf x :
  x ∈ pre → dir_rank (pre ++ suf) x = dir_rank pre x.
Proof.
  induction pre as [|d pre IH]; intros Hx; [by apply elem_of_nil in Hx|].
  simpl. destruct (decide (d = x)); [done|].
  apply elem_of_cons in Hx as [->|Hx]; [done|]. by rewrite IH.
Qed.

Lemma dir_rank_app_r pre suf x :
  x ∉ pre → dir_rank (pre ++ suf) x = (length pre + dir_rank suf x)%nat.
Proof.
  induction pre as [|d pre IH]; intros Hx; [done|].
  simpl. apply not_elem_of_cons in Hx as [Hne Hx].
  destruct (decide (d = x)); [done|]. by rewrite IH.
Qed.

Section cursor.
(** The global list split at the cursor of the insertion: [pre] has been
    passed, [d] is the directory under the cursor. *)
Context (pre : list addr) (d : addr) (rest : list addr).
Hypothesis Hnodup : NoDup (pre ++ d :: rest).

Lemma rank_at_cursor : dir_rank (pre ++ d :: rest) d = length pre.
Proof using Hnodup.
  apply NoDup_app in Hnodup as (_ & Hdisj & _).
  rewrite dir_rank_app_r.
  - simpl. destruct (decide (d = d)); [lia|done].
  - intros Hd. apply (Hdisj d Hd). left.
Qed.

Lemma rank_after_cursor x :
  x ∈ rest → (length pre < dir_rank (pre ++ d :: rest) x)%nat.
Proof using Hnodup.
  intros Hx. apply NoDup_app in Hnodup as (_ & Hdisj & Hnd).
  apply NoDup_cons in Hnd as [Hd _].
  rewrite dir_rank_app_r.
  - simpl. destruct (decide (d = x)) as [->|]; [done|lia].
  - intros Hp. apply (Hdisj x Hp). by right.
Qed.

Lemma rank_before_cursor x :
  x ∈ pre → (dir_rank (pre ++ d :: rest) x < length pre)%nat.
Proof.
  intros Hx. rewrite dir_rank_app_l by done. by apply dir_rank_lt.
Qed.

Lemma rank_from_cursor x :
  x ∈ pre ++ d :: rest → (length pre ≤ dir_rank (pre ++ d :: rest) x)%nat →
  x ∈ d :: rest.
Proof.
  intros [Hx|Hx]%elem_of_app Hle; [|done].
  apply rank_before_cursor in Hx. lia.
Qed.
End cursor.

Lemma skip_dirs_spec fd nd l :
  ∃ skipped,
    l = skipped ++ skip_dirs fd nd l ∧ (fd ∉ skipped) ∧ (nd ∉ skipped).
Proof.
  induction l as [|d l (skipped & Hl & Hf & Hn)]; simpl.
  - exists []. split; [done|]. split; apply not_elem_of_nil.
  - destruct (decide (d = fd)); [|destruct (decide (d = nd))].
    + exists []. split; [done|]. split; apply not_elem_of_nil.
    + exists []. split; [done|]. split; apply not_elem_of_nil.
    + exists (d :: skipped). split; [by rewrite Hl at 1|].
      split; apply not_elem_of_cons; split; congruence.
Qed.

Lemma skip_dirs_head fd nd l d l' :
  skip_dirs fd nd l = d :: l' → d = fd ∨ (d ≠ fd ∧ d = nd).
Proof.
  induction l as [|x l IH]; simpl; [done|].
  destruct (decide (x = fd)); [intros [= -> ->]; by left|].
  destruct (decide (x = nd)); [intros [= <- <-]; by right|]. done.
Qed.

(** ** The order of chain entries *)

Lemma chain_le_trans s a b c : chain_le s a b → chain_le s b c → chain_le s a c.
Proof.
  intros (fa & fb & Ha & Hb & Hab) (fb' & fc & Hb' & Hc & Hbc).
  assert (fb' = fb) as -> by congruence.
  exists fa, fc. split; [done|]. split; [done|].
  unfold key_le in *. lia.
Qed.

Lemma StronglySorted_insert {A} (R : A → A → Prop) l1 x l2 :
  StronglySorted R (l1 ++ l2) →
  Forall (λ y, R y x) l1 → Forall (R x) l2 →
  StronglySorted R (l1 ++ x :: l2).
Proof.
  induction l1 as [|y l1 IH]; simpl; intros Hs H1 H2.
  - by constructor.
  - inversion Hs as [|? ? Hs' Hy]; subst.
    apply Forall_cons in H1 as [Hyx H1]. constructor; [by apply IH|].
    apply Forall_app in Hy as [Hy1 Hy2].
    apply Forall_app. split; [done|]. by constructor.
Qed.

Lemma StronglySorted_unlink s a chain chain' :
  chain_unlink a chain = Some chain' →
  StronglySorted (chain_le s) chain → StronglySorted (chain_le s) chain'.
Proof.
  revert chain'. induction chain as [|x chain IH]; intros chain'; simpl; [done|].
  intros H Hs. inversion Hs as [|? ? Hs' Hx]; subst.
  destruct (decide (x = a)); [by injection H as <-|].
  destruct (chain_unlink a chain) as [c|] eqn:E; [|done]. injection H as <-.
  constructor; [by apply IH|].
  rewrite Forall_forall in Hx |- *. intros y Hy. apply Hx.
  clear -E Hy. revert c E Hy. induction chain as [|z chain IH]; intros c; simpl; [done|].
  destruct (decide (z = a)); [intros [= <-] ?; by right|].
  destruct (chain_unlink a chain) as [c'|]; [|done]. intros [= <-].
  intros [->|?]%elem_of_cons; [left|right; eauto].
Qed.

Lemma chain_unlink_elem a chain chain' x :
  chain_unlink a chain = Some chain' → x ∈ chain' → x ∈ chain.
Proof.
  revert chain'. induction chain as [|z chain IH]; intros c; simpl; [done|].
  destruct (decide (z = a)); [intros [= <-] ?; by right|].
  destruct (chain_unlink a chain) as [c'|]; [|done]. intros [= <-].
  intros [->|?]%elem_of_cons; [left|right; eauto].
Qed.

Lemma chain_unlink_NoDup a chain chain' :
  chain_unlink a chain = Some chain' → NoDup chain → NoDup chain' ∧ a ∉ chain'.
Proof.
  revert chain'. induction chain as [|z chain IH]; intros c; simpl; [done|].
  intros H [Hz Hnd]%NoDup_cons.
  destruct (decide (z = a)) as [->|Hne]; [by injection H as <-|].
  destruct (chain_unlink a chain) as [c'|] eqn:E; [|done]. injection H as <-.
  destruct (IH c' eq_refl Hnd) as [Hnd' Ha]. split.
  - constructor; [|done]. intros Hin. apply Hz. by eapply chain_unlink_elem.
  - apply not_elem_of_cons. split; [congruence|done].
Qed.

Lemma chain_unlink_None a chain : chain_unlink a chain = None → a ∉ chain.
Proof.
  induction chain as [|z chain IH]; simpl; [intros _; apply not_elem_of_nil|].
  destruct (decide (z = a)); [done|].
  destruct (chain_unlink a chain); [done|]. intros _.
  apply not_elem_of_cons. split; [congruence|by apply IH].
Qed.

(** ** The sorted insertion *)

Lemma chain_le_intro s a b fa fb :
  file_heap s !! a = Some fa → file_heap s !! b = Some fb →
  key_le (entry_key (templates_dirs s) fa) (entry_key (templates_dirs s) fb) →
  chain_le s a b.
Proof. intros. by exists fa, fb. Qed.

Lemma chain_le_rank s a b fa fb :
  chain_le s a b → file_heap s !! a = Some fa → file_heap s !! b = Some fb →
  dir_rank (templates_dirs s) (dir fa) ≤ dir_rank (templates_dirs s) (dir fb).
Proof.
  intros (fa' & fb' & Ha & Hb & Hle) Ha' Hb'.
  assert (fa' = fa) as -> by congruence. assert (fb' = fb) as -> by congruence.
  unfold key_le, entry_key in Hle. simpl in Hle. lia.
Qed.

(** The loop puts [file] between a part of the chain that sorts before it
    and a part that sorts after it.  [pre] are the directories the cursor
    has passed. *)
Lemma insert_sorted_loop_spec s file f :
  NoDup (templates_dirs s) →
  file_heap s !! file = Some f →
  ∀ next last_dir pre,
    templates_dirs s = pre ++ last_dir →
    dir f ∈ last_dir →
    (∀ a, a ∈ next → ∃ fa, file_heap s !! a = Some fa ∧ dir fa ∈ last_dir) →
    chain_sorted s next →
    ∃ l1 l2,
      insert_sorted_loop file f last_dir next s = Ok (l1 ++ file :: l2, s) ∧
      next = l1 ++ l2 ∧
      Forall (λ a, chain_le s a file) l1 ∧ Forall (chain_le s file) l2.
Proof.
  intros Hnodup Hfile. induction next as [|n rest IH];
    intros last_dir pre Hsplit Hfdir Hnext Hsorted; simpl.
  { exists [], []. by repeat split. }
  destruct last_dir as [|d0 ld0] eqn:Eld; [by apply elem_of_nil in Hfdir|].
  rewrite <-Eld in *. clear d0 ld0 Eld.
  destruct (Hnext n) as (nx & Hn & Hndir); [left|].
  rewrite (bind_Ok _ _ _ _ _ (get_file_Ok _ _ _ Hn)).
  destruct (skip_dirs_spec (dir f) (dir nx) last_dir) as (skipped & Hskip & Hsf & Hsn).
  destruct (skip_dirs (dir f) (dir nx) last_dir) as [|d ld] eqn:Eskip.
  { rewrite app_nil_r in Hskip. by subst. }
  apply skip_dirs_head in Eskip as Hhead.
  (* the list of directories split at the new cursor *)
  assert (templates_dirs s = (pre ++ skipped) ++ d :: ld) as Hsplit'
    by (by rewrite <-app_assoc, <-Hskip).
  rewrite Hsplit' in Hnodup.
  assert (∀ x, x ∈ last_dir → x ∉ skipped → x ∈ d :: ld) as Hin.
  { intros x Hx Hns. rewrite Hskip in Hx. by apply elem_of_app in Hx as [?|?]. }
  pose proof (Hin _ Hfdir Hsf) as Hfdir'. pose proof (Hin _ Hndir Hsn) as Hndir'.
  apply StronglySorted_inv in Hsorted as [Hsorted' Hn_le].
  rewrite Forall_forall in Hn_le.
  (* [file] sorts before [n], hence before the rest of the chain *)
  assert (chain_le s file n → ∃ l1 l2,
            Ok (file :: n :: rest, s) = Ok (l1 ++ file :: l2, s) ∧
            n :: rest = l1 ++ l2 ∧
            Forall (λ a, chain_le s a file) l1 ∧ Forall (chain_le s file) l2)
    as Hbreak.
  { intros Hle. exists [], (n :: rest). repeat split; [constructor|].
    constructor; [done|]. apply Forall_forall. intros a Ha.
    eapply chain_le_trans; [done|by apply Hn_le]. }
  (* [n] sorts before [file]: the loop goes on behind [n] *)
  assert (rank_n : d = dir nx →
            dir_rank (templates_dirs s) (dir nx) = length (pre ++ skipped)).
  { intros <-. rewrite Hsplit'. by apply rank_at_cursor. }
  assert (chain_le s n file → d = dir nx → ∃ l1 l2,
            (rest' ← insert_sorted_loop file f (d :: ld) rest; mret (n :: rest')) s
              = Ok (l1 ++ file :: l2, s) ∧
            n :: rest = l1 ++ l2 ∧
            Forall (λ a, chain_le s a file) l1 ∧ Forall (chain_le s file) l2)
    as Hcont.
  { intros Hle Hd.
    destruct (IH (d :: ld) (pre ++ skipped)) as (l1 & l2 & Hrun & -> & H1 & H2);
      [by rewrite Hsplit'|done| |done|].
    - intros a Ha. destruct (Hnext a) as (fa & Hfa & Hadir); [by right|].
      exists fa. split; [done|].
      apply (rank_from_cursor (pre ++ skipped)).
      + rewrite <-Hsplit', Hsplit. apply elem_of_app. by right.
      + rewrite <-Hsplit', <-(rank_n Hd).
        eapply chain_le_rank; [by apply Hn_le|done..].
    - exists (n :: l1), l2. rewrite (bind_Ok _ _ _ _ _ Hrun).
      repeat split; [|done]. by constructor. }
  destruct (decide (d = dir f)) as [Hdf|Hdf].
  - assert (dir_rank (templates_dirs s) (dir f) = length (pre ++ skipped)) as Hrf.
    { rewrite Hsplit', <-Hdf. by apply rank_at_cursor. }
    destruct (bool_decide (dir nx = d) && negb (is_desktop_entry f)) eqn:Hcond.
    + apply andb_true_iff in Hcond as [Hnd%bool_decide_eq_true Hplain].
      apply negb_true_iff in Hplain.
      assert (dir_rank (templates_dirs s) (dir nx) = length (pre ++ skipped)) as Hrn
        by by apply rank_n.
      destruct (is_desktop_entry nx) eqn:Hnde; simpl.
      * apply Hcont; [|done]. apply (chain_le_intro _ _ _ nx f); [done..|].
        unfold key_le, entry_key. simpl. rewrite Hnde, Hplain. lia.
      * apply Hbreak. apply (chain_le_intro _ _ _ f nx); [done..|].
        unfold key_le, entry_key. simpl. rewrite Hnde, Hplain. lia.
    + apply Hbreak. apply (chain_le_intro _ _ _ f nx); [done..|].
      unfold key_le, entry_key. simpl. rewrite Hrf.
      apply andb_false_iff in Hcond as [Hnd%bool_decide_eq_false|Hde%negb_false_iff].
      * left. rewrite Hsplit'. apply rank_after_cursor; [done|].
        apply elem_of_cons in Hndir' as [?|?]; [congruence|done].
      * destruct (decide (dir nx = d)) as [Hnd|Hnd].
        -- right. rewrite (rank_n (eq_sym Hnd)), Hde. split; [done|].
           destruct (is_desktop_entry nx); lia.
        -- left. rewrite Hsplit'. apply rank_after_cursor; [done|].
           apply elem_of_cons in Hndir' as [?|?]; [congruence|done].
  - destruct Hhead as [?|[_ Hdn]]; [done|].
    apply Hcont; [|done]. apply (chain_le_intro _ _ _ nx f); [done..|].
    unfold key_le, entry_key. simpl. left. rewrite (rank_n Hdn).
    rewrite Hsplit'. apply rank_after_cursor; [done|].
    apply elem_of_cons in Hfdir' as [?|?]; [congruence|done].
Qed.

(** ** The invariant under changes of the links *)

Lemma inv_set_chain s templ t chain :
  registry_inv s → template_heap s !! templ = Some t →
  chain_entries_ok s templ chain → NoDup chain → chain_sorted s chain →
  registry_inv
    (with_template_heap (<[templ := with_files chain t]> (template_heap s)) s).
Proof.
  intros [[Hnd [Hlist Hmime]] Htf Hff Hdn Hdl Hdv Hce Hcn Hcs] Ht Hok Hnodup Hsorted.
  assert (∀ t', is_Some ((<[templ := with_files chain t]> (template_heap s)) !! t')
                ↔ is_Some (template_heap s !! t')) as Hlive.
  { intros t'. rewrite lookup_insert_is_Some. split.
    - intros [<-|[_ ?]]; [by eexists|done].
    - intros ?. destruct (decide (templ = t')); [by left|by right]. }
  assert (∀ t' r', (<[templ := with_files chain t]> (template_heap s)) !! t' = Some r' →
          (t' = templ ∧ r' = with_files chain t) ∨
          (t' ≠ templ ∧ template_heap s !! t' = Some r')) as Hcases.
  { intros t' r'. destruct (decide (templ = t')) as [<-|Hne].
    - rewrite lookup_insert_eq. intros [= <-]. by left.
    - rewrite lookup_insert_ne by done. intros ?. by right. }
  split; simpl; try done.
  - split; [done|]. split.
    + intros t'. by rewrite Hlive.
    + intros t1 t2 r1 r2 [[-> ->]|[_ H1]]%Hcases [[-> ->]|[_ H2]]%Hcases Hm;
        try done; simpl in Hm; eauto.
  - intros t' Ht'%Hlive. by apply Htf.
  - intros t' r' [[-> ->]|[_ H1]]%Hcases; [done|]. by eapply Hce.
  - intros t' r' [[-> ->]|[_ H1]]%Hcases; [done|]. by eapply Hcn.
  - intros t' r' [[-> ->]|[_ H1]]%Hcases; [done|]. by eapply Hcs.
Qed.

Lemma inv_new_file w s templ p is_de d file s' :
  registry_inv s → d ∈ templates_dirs s →
  new_template_file w templ p is_de d s = Ok (file, s') →
  registry_inv s' ∧ unlinked s' file ∧
  file_heap s' !! file =
    Some {| dir := d; templ := templ; path := p; is_desktop_entry := is_de;
            inactive := slice_junk w file |} ∧
  template_heap s' = template_heap s ∧ dir_heap s' = dir_heap s ∧
  templates_dirs s' = templates_dirs s ∧ templates s' = templates s.
Proof.
  intros Hinv Hd H. unfold new_template_file in H.
  apply bind_inv in H as (a & s1 & [= <- <-] & H).
  apply bind_inv in H as ([] & s2 & [= <-] & [= <- <-]).
  pose proof Hinv as [[Hnd [Hlist Hmime]] Htf Hff Hdn Hdl Hdv Hce Hcn Hcs].
  assert (file_heap s !! next_free s = None) as Hfresh.
  { destruct (file_heap s !! next_free s) eqn:E; [|done].
    assert (next_free s < next_free s) by (apply Hff; eauto). lia. }
  assert (∀ a, is_Some (file_heap s !! a) → a ≠ next_free s) as Hne.
  { intros a Ha ->. rewrite Hfresh in Ha. by destruct Ha. }
  assert (∀ a b, chain_le s a b →
            chain_le (with_file_heap (<[next_free s := {|
              dir := d; templ := templ; path := p; is_desktop_entry := is_de;
              inactive := slice_junk w (next_free s) |}]> (file_heap s))
              (with_next_free (S (next_free s)) s)) a b) as Hle.
  { intros a b (fa & fb & Ha & Hb & Hk). exists fa, fb. simpl.
    rewrite !lookup_insert_ne by (apply not_eq_sym, Hne; eauto). done. }
  split; [|split; [|split; [simpl; by rewrite lookup_insert_eq|done]]].
  - split; simpl; try done.
    + intros t Ht. specialize (Htf t Ht). lia.
    + intros a [Ha|[_ Ha]]%lookup_insert_is_Some; [lia|].
      specialize (Hff a Ha). lia.
    + intros t r Hr a Ha. destruct (Hce t r Hr a Ha) as (f & Hf & ?).
      exists f. simpl. rewrite lookup_insert_ne; [done|].
      apply not_eq_sym, Hne. eauto.
    + intros t r Hr. eapply StronglySorted_mono; [|by eapply Hcs].
      intros x y _ _. apply Hle.
  - intros t r Hr Hin. simpl in Hr.
    destruct (Hce t r Hr _ Hin) as (f & Hf & _). by rewrite Hfresh in Hf.
Qed.

Lemma inv_update_dir s d f u s' :
  registry_inv s → update_dir d f s = Ok (u, s') →
  registry_inv s' ∧ template_heap s' = template_heap s ∧
  file_heap s' = file_heap s ∧ templates_dirs s' = templates_dirs s ∧
  templates s' = templates s.
Proof.
  intros [[Hnd [Hlist Hmime]] Htf Hff Hdn Hdl Hdv Hce Hcn Hcs]
    (r & Hr & ->)%update_dir_inv.
  split; [|done]. split; simpl; try done.
  - intros d' [<-|[_ ?]]%lookup_insert_is_Some; apply Hdl; eauto.
  - intros d' Hd'%Hdv. apply lookup_insert_is_Some.
    destruct (decide (d = d')); [by left|by right].
Qed.

Lemma inv_delete_file s file :
  registry_inv s → unlinked s file →
  registry_inv (with_file_heap (delete file (file_heap s)) s).
Proof.
  intros [[Hnd [Hlist Hmime]] Htf Hff Hdn Hdl Hdv Hce Hcn Hcs] Hun.
  split; simpl; try done.
  - intros a [f Hf]. apply lookup_delete_Some in Hf as [_ Hf]. apply Hff. eauto.
  - intros t r Hr a Ha. destruct (Hce t r Hr a Ha) as (f & Hf & ?).
    exists f. simpl. rewrite lookup_delete_ne; [done|].
    intros <-. by apply (Hun t r Hr).
  - intros t r Hr. eapply StronglySorted_mono; [|by eapply Hcs].
    intros x y Hx Hy (fx & fy & Hfx & Hfy & Hk). exists fx, fy. simpl.
    rewrite !lookup_delete_ne; [done|..]; intros <-; by apply (Hun t r Hr).
Qed.

Lemma elem_of_unlink a l x :
  NoDup l → x ∈ unlink a l ↔ x ≠ a ∧ x ∈ l.
Proof.
  induction l as [|y l IH]; simpl; intros Hnd.
  - rewrite elem_of_nil. tauto.
  - apply NoDup_cons in Hnd as [Hy Hnd]. destruct (decide (y = a)) as [->|Hne].
    + rewrite elem_of_cons. split; [|tauto].
      intros Hx. split; [by intros ->|by right].
    + rewrite !elem_of_cons, IH by done. split; [|tauto].
      intros [->|?]; tauto.
Qed.

Lemma NoDup_unlink a l : NoDup l → NoDup (unlink a l).
Proof.
  induction l as [|y l IH]; simpl; intros Hnd; [done|].
  apply NoDup_cons in Hnd as [Hy Hnd]. destruct (decide (y = a)); [done|].
  constructor; [|by apply IH]. rewrite elem_of_unlink by done. tauto.
Qed.

Lemma g_object_unref_inv w held s t u s' :
  registry_inv s → g_object_unref w held t s = Ok (u, s') →
  registry_inv s' ∧ file_heap s' = file_heap s ∧ dir_heap s' = dir_heap s ∧
  templates_dirs s' = templates_dirs s ∧
  (∀ file, unlinked s file → unlinked s' file).
Proof.
  intros Hinv (r & s1 & [Hr ->]%get_templ_inv & H)%bind_inv. destruct u.
  destruct (decide (ref_count r ≤ 1)).
  - unfold fm_template_finalize in H.
    apply bind_inv in H as ([] & s0 & Hlock & H).
    destruct held; [done|]. apply ret_inv in Hlock as [_ <-].
    apply bind_inv in H as ([] & s1 & [= <-] & H).
    apply bind_inv in H as (self & s2 & [Hself ->]%get_templ_inv & H).
    simpl in Hself. assert (self = r) as -> by congruence.
    apply bind_inv in H as ([] & s3 & Hfiles & [= <-]).
    destruct (files r) eqn:Efiles; [|done]. apply ret_inv in Hfiles as [_ <-].
    destruct Hinv as [[Hnd [Hlist Hmime]] Htf Hff Hdn Hdl Hdv Hce Hcn Hcs].
    assert (∀ t' r', delete t (template_heap s) !! t' = Some r' →
                     template_heap s !! t' = Some r') as Hdel.
    { intros t' r' [_ H1]%lookup_delete_Some. done. }
    split; [|repeat split; try done].
    + split; unfold registry_unique; simpl; try done.
      * split; [by apply NoDup_unlink|]. split.
        -- intros t'. unfold g_list_remove.
           rewrite elem_of_unlink by done.
           rewrite Hlist, lookup_delete_is_Some. split; intros [? ?]; split; done.
        -- intros t1 t2 r1 r2 H1%Hdel H2%Hdel. by eapply Hmime.
      * intros t' [_ Ht']%lookup_delete_is_Some. by apply Htf.
      * intros t' r' H1%Hdel. by eapply Hce.
      * intros t' r' H1%Hdel. by eapply Hcn.
      * intros t' r' H1%Hdel. by eapply Hcs.
    + intros file Hun t' r' H1%Hdel. by eapply Hun.
  - assert (fields_only s s') as Hfo.
    { eapply (pf_update_templ t (with_ref_count (ref_count r - 1))); [done|apply H]. }
    split; [by eapply inv_fields_only|].
    pose proof Hfo as (_ & -> & -> & _). 
    apply update_templ_inv in H as (? & ? & ->). repeat split; try done.
    intros file. by apply unlinked_fields_only.
Qed.

(** ** The invariant and the handlers *)

(** What [_fm_template_find_for_file] returns: nothing when the MIME type
    is not guessed, a listed template of the guessed type when there is
    one, and else a new one. *)
Lemma find_for_file_inv w p is_de s res s' :
  registry_inv s →
  _fm_template_find_for_file w p is_de s = Ok (res, s') →
  registry_inv s' ∧ file_heap s' = file_heap s ∧ dir_heap s' = dir_heap s ∧
  templates_dirs s' = templates_dirs s ∧
  match res with
  | None => _fm_template_guess_mime_type w p is_de s = Ok (None, s) ∧ s' = s
  | Some t =>
      ∃ r', template_heap s' !! t = Some r' ∧
            _fm_template_guess_mime_type w p is_de s = Ok (Some (mime_type r'), s) ∧
            ((t ∈ templates s ∧ templates s' = templates s) ∨
             (template_heap s !! t = None ∧ templates s' = t :: templates s))
  end.
Proof.
  intros Hinv H. unfold _fm_template_find_for_file in H.
  apply bind_inv in H as (guessed & s00 & Hguess & H).
  apply guess_mime_type_inv in Hguess as [-> Hguess]. specialize (Hguess s).
  destruct guessed as [mime|]; [|apply ret_inv in H as [<- <-]; done].
  apply bind_inv in H as (s0 & s1 & [= <- <-] & H).
  apply bind_inv in H as (found & s1 & [-> Hfound]%find_by_mime_type_inv & H).
  destruct found as [data|].
  - destruct Hfound as (Hin & r & Hr & <-).
    apply bind_inv in H as ([] & s1 & H & [<- <-]%ret_inv).
    pose proof (pf_g_object_ref data _ _ _ H) as Hfo.
    split; [by eapply inv_fields_only|].
    pose proof Hfo as (Ht & -> & -> & _). 
    apply update_templ_inv in H as (r0 & Hr0 & ->).
    assert (r0 = r) as -> by congruence.
    split; [done|]. split; [done|]. split; [done|].
    eexists. simpl. rewrite lookup_insert_eq. split; [done|]. split; [done|].
    by left.
  - unfold fm_template_new in H.
    apply bind_inv in H as (t & s1 & H1 & H).
    apply bind_inv in H1 as (t0 & s2 & [= <- <-] & H1).
    apply bind_inv in H1 as ([] & s2 & [= <-] & [<- <-]%ret_inv).
    apply bind_inv in H as ([] & s2 & (r0 & Hr0 & ->)%update_templ_inv & H).
    apply bind_inv in H as ([] & s2 & [= <-] & [<- <-]%ret_inv).
    simpl in Hr0. rewrite lookup_insert_eq in Hr0. injection Hr0 as <-. simpl.
    rewrite insert_insert_eq.
    destruct Hinv as [[Hnd [Hlist Hmime]] Htf Hff Hdn Hdl Hdv Hce Hcn Hcs].
    assert (template_heap s !! next_free s = None) as Hfresh.
    { destruct (template_heap s !! next_free s) eqn:E; [|done].
      assert (next_free s < next_free s) by (apply Htf; eauto). lia. }
    set (r' := {| ref_count := 1; files := []; mime_type := mime;
                  template_file := None; icon := None; command := None;
                  prompt := None; label := None |}).
    assert (∀ t' r1, <[next_free s := r']> (template_heap s) !! t' = Some r1 →
              (t' = next_free s ∧ r1 = r') ∨
              (t' ≠ next_free s ∧ template_heap s !! t' = Some r1)) as Hcases.
    { intros t' r1. destruct (decide (next_free s = t')) as [<-|Hne].
      - rewrite lookup_insert_eq. intros [= <-]. by left.
      - rewrite lookup_insert_ne by done. intros ?. by right. }
    split; [|split; [done|]; split; [done|]; split; [done|]].
    + split; unfold registry_unique; simpl; try done.
      * split; [|split].
        -- constructor; [|done]. rewrite Hlist, Hfresh. by intros [? ?].
        -- intros t'. rewrite elem_of_cons, Hlist, lookup_insert_is_Some.
           split; [intros [->|?]|intros [<-|[? ?]]]; try tauto.
           destruct (decide (next_free s = t')); tauto.
        -- intros t1 t2 r1 r2 [[-> ->]|[_ H1]]%Hcases [[-> ->]|[_ H2]]%Hcases Hm;
             try done; simpl in Hm.
           ++ exfalso. eapply (Hfound t2 r2); [apply Hlist; eauto|done..].
           ++ exfalso. eapply (Hfound t1 r1); [apply Hlist; eauto|done..].
           ++ by eapply Hmime.
      * intros t' [<-|[_ Ht']]%lookup_insert_is_Some; [lia|].
        specialize (Htf _ Ht'). lia.
      * intros a Ha. specialize (Hff _ Ha). lia.
      * intros t' r1 [[-> ->]|[_ H1]]%Hcases; [|by eapply Hce].
        intros a Ha. by apply elem_of_nil in Ha.
      * intros t' r1 [[-> ->]|[_ H1]]%Hcases; [constructor|by eapply Hcn].
      * intros t' r1 [[-> ->]|[_ H1]]%Hcases; [constructor|by eapply Hcs].
    + exists r'. rewrite lookup_insert_eq. split; [done|]. split; [done|].
      by right.
Qed.

Lemma insert_sorted_inv w s tp file f u s' :
  registry_inv s → unlinked s file →
  file_heap s !! file = Some f → templ f = tp → dir f ∈ templates_dirs s →
  _fm_template_insert_sorted w tp file s = Ok (u, s') →
  registry_inv s'.
Proof.
  intros Hinv Hun Hf Htempl Hdir H. unfold _fm_template_insert_sorted in H.
  apply bind_inv in H as (s0 & s1 & [= <- <-] & H).
  apply bind_inv in H as (t & s1 & [Ht ->]%get_templ_inv & H).
  apply bind_inv in H as (f' & s1 & [Hf' ->]%get_file_inv & H).
  assert (f' = f) as -> by congruence.
  apply bind_inv in H as (chain & s1 & Hloop & H).
  apply bind_inv in H as ([] & s2 & (t' & Ht' & ->)%update_templ_inv & H).
  pose proof Hinv as [_ _ _ Hdn _ _ Hce Hcn Hcs].
  destruct (insert_sorted_loop_spec s file f Hdn Hf (files t) (templates_dirs s) [])
    as (l1 & l2 & Hrun & Hfiles & H1 & H2); [done..| |by eapply Hcs|].
  { intros a Ha. destruct (Hce tp t Ht a Ha) as (fa & ? & ? & ?). eauto. }
  rewrite Hrun in Hloop. injection Hloop as <- <-.
  assert (t' = t) as -> by congruence.
  eapply inv_fields_only; [|by eapply pf_update].
  apply inv_set_chain; [done..| | |].
  - intros a [Ha|[->|Ha]%elem_of_cons]%elem_of_app; [|by exists f|];
      eapply (Hce tp t Ht); rewrite Hfiles, elem_of_app; eauto.
  - specialize (Hcn _ _ Ht). specialize (Hun _ _ Ht). rewrite Hfiles in Hcn, Hun.
    apply NoDup_app in Hcn as (N1 & N2 & N3).
    apply not_elem_of_app in Hun as [U1 U2].
    apply NoDup_app. split; [done|]. split.
    + intros x Hx [->|?]%elem_of_cons; [done|by eapply N2].
    + by constructor.
  - apply StronglySorted_insert; [|done..]. rewrite <-Hfiles. by eapply Hcs.
Qed.

Lemma file_free_inv w held s tp file f do_update u s' :
  registry_inv s → file_heap s !! file = Some f → templ f = tp →
  _fm_template_file_free w held tp file do_update s = Ok (u, s') →
  registry_inv s'.
Proof.
  intros Hinv Hf Htempl H. unfold _fm_template_file_free in H.
  apply bind_inv in H as (t & s1 & [Ht ->]%get_templ_inv & H).
  apply bind_inv in H as ([] & s1 & Hunlink & H).
  (* once the chain is handled no chain holds the entry *)
  assert (registry_inv s1 ∧ unlinked s1 file) as [Hinv1 Hun1].
  { pose proof Hinv as [_ _ _ _ _ _ Hce Hcn Hcs].
    assert (∀ t' r', t' ≠ tp → template_heap s !! t' = Some r' → file ∉ files r')
      as Hother.
    { intros t' r' Hne Hr' Hin.
      destruct (Hce t' r' Hr' file Hin) as (f' & Hf' & Ht' & _). congruence. }
    destruct (chain_unlink file (files t)) as [chain|] eqn:E.
    - apply update_templ_inv in Hunlink as (t' & Ht' & ->).
      assert (t' = t) as -> by congruence.
      destruct (chain_unlink_NoDup _ _ _ E (Hcn _ _ Ht)) as [Hnd Hnotin].
      split.
      + apply inv_set_chain; [done..| |done|].
        * intros a Ha. eapply (Hce tp t Ht). by eapply chain_unlink_elem.
        * eapply StronglySorted_unlink; [done|]. by eapply Hcs.
      + intros t' r'. simpl. destruct (decide (tp = t')) as [<-|Hne].
        * rewrite lookup_insert_eq. by intros [= <-].
        * rewrite lookup_insert_ne by done. by apply Hother.
    - pose proof (pf_g_log _ _ _ _ _ _ Hunlink) as Hfo.
      split; [by eapply inv_fields_only|].
      eapply unlinked_fields_only; [done|].
      intros t' r' Hr'. destruct (decide (t' = tp)) as [->|Hne].
      + assert (r' = t) as -> by congruence. by apply chain_unlink_None.
      + by eapply Hother. }
  apply bind_inv in H as ([] & s2 & Hunref & H).
  destruct (g_object_unref_inv _ _ _ _ _ _ Hinv1 Hunref) as (Hinv2 & Hfh & _ & _ & Hun2).
  apply bind_inv in H as (f' & s3 & [_ ->]%get_file_inv & H).
  apply bind_inv in H as ([] & s3 & [= <-] & H).
  assert (registry_inv (with_file_heap (delete file (file_heap s2)) s2)) as Hinv3
    by (apply inv_delete_file; auto).
  destruct do_update.
  - eapply inv_fields_only; [done|by eapply pf_update].
  - by apply ret_inv in H as [_ <-].
Qed.

(** A new entry for [p] in directory [d]: the common part of the listing
    job and of the [Created] event, from [_fm_template_find_for_file] on. *)
Lemma link_new_file_inv w s d p is_de tp s1 file s2 s3 s4 u :
  registry_inv s → d ∈ templates_dirs s →
  _fm_template_find_for_file w p is_de s = Ok (Some tp, s1) →
  new_template_file w tp p is_de d s1 = Ok (file, s2) →
  fields_only s2 s3 →
  (∃ g u', update_dir d g s3 = Ok (u', s4)) →
  ∀ s', _fm_template_insert_sorted w tp file s4 = Ok (u, s') → registry_inv s'.
Proof.
  intros Hinv Hd Hfind Hnew Hfo (g & u' & Hupd) s' Hins.
  destruct (find_for_file_inv _ _ _ _ _ _ Hinv Hfind) as (Hinv1 & _ & _ & Hdirs & _).
  rewrite <-Hdirs in Hd.
  destruct (inv_new_file _ _ _ _ _ _ _ _ Hinv1 Hd Hnew)
    as (Hinv2 & Hun2 & Hfile2 & _ & _ & Hdirs2 & _).
  pose proof (inv_fields_only _ _ Hinv2 Hfo) as Hinv3.
  pose proof (unlinked_fields_only _ _ _ Hfo Hun2) as Hun3.
  destruct (fields_only_file_fwd _ _ _ _ Hfo Hfile2) as (f3 & Hfile3 & Hd3 & Ht3 & _).
  destruct Hfo as (_ & Hdirs3 & _).
  destruct (inv_update_dir _ _ _ _ _ Hinv3 Hupd) as (Hinv4 & Hth4 & Hfh4 & Hdirs4 & _).
  eapply (insert_sorted_inv w s4 tp file f3); [done| | | | |done].
  - intros t r. rewrite Hth4. apply Hun3.
  - by rewrite Hfh4.
  - by rewrite <-Ht3.
  - rewrite Hdirs4, Hdirs3, Hdirs2, <-Hd3. done.
Qed.

Lemma on_job_finished_file_inv w d fi s u s' :
  registry_inv s → on_job_finished_file w d fi s = Ok (u, s') → registry_inv s'.
Proof.
  intros Hinv H. unfold on_job_finished_file in H.
  apply bind_inv in H as (dr & s1 & [Hdr ->]%get_dir_inv & H).
  apply bind_inv in H as (dup & s1 & Hdup & H).
  pose proof (inv_fields_only _ _ Hinv (pf_find_in_dir_by_path _ _ _ _ _ Hdup)) as Hinv1.
  destruct dup; [by apply ret_inv in H as [_ <-]|].
  apply bind_inv in H as (found & s2 & Hfind & H).
  destruct found as [tp|].
  2:{ apply ret_inv in H as [_ <-].
      by destruct (find_for_file_inv _ _ _ _ _ _ Hinv1 Hfind) as (? & _). }
  apply bind_inv in H as (file & s3 & Hnew & H).
  apply bind_inv in H as ([] & s4 & Hprev & H).
  apply bind_inv in H as ([] & s5 & Hupd & H).
  assert (d ∈ templates_dirs s1) as Hd.
  { destruct (pf_find_in_dir_by_path _ _ _ _ _ Hdup) as (_ & -> & _).
    apply Hinv. eauto. }
  eapply (link_new_file_inv w s1 d); [done..| |by eauto|done].
  destruct (dir_files dr); [apply ret_inv in Hprev as [_ <-]; apply fields_only_refl|].
  by eapply pf_store_prev_in_dir.
Qed.

Lemma on_job_finished_inv w file_infos d s u s' :
  registry_inv s → on_job_finished w file_infos d s = Ok (u, s') → registry_inv s'.
Proof.
  revert s. induction file_infos as [|fi l IH]; intros s Hinv H; simpl in H.
  - by apply ret_inv in H as [_ <-].
  - apply bind_inv in H as ([] & s1 & H1 & H).
    eapply IH; [|done]. by eapply on_job_finished_file_inv.
Qed.

Lemma on_dir_changed_inv w gf evt d s u s' :
  registry_inv s → on_dir_changed w gf evt d s = Ok (u, s') → registry_inv s'.
Proof.
  intros Hinv H. unfold on_dir_changed in H.
  apply bind_inv in H as (dr & s1 & [Hdr ->]%get_dir_inv & H).
  destruct (g_file_equal _ _); [by apply ret_inv in H as [_ <-]|].
  assert (d ∈ templates_dirs s) as Hd by (apply Hinv; eauto).
  destruct evt; try (by apply ret_inv in H as [_ <-]).
  - (* changed *)
    eapply inv_fields_only; [done|].
    refine ((_ : preserves_fields _) _ _ _ H). repeat pf_step.
  - (* deleted *)
    apply bind_inv in H as (found & s1 & Hfound & H).
    pose proof (pf_find_in_dir_by_basename _ _ _ _ _ Hfound) as Hfo1.
    pose proof (inv_fields_only _ _ Hinv Hfo1) as Hinv1.
    destruct found as [file|]; [|by apply ret_inv in H as [_ <-]].
    apply bind_inv in H as (f & s2 & [Hf ->]%get_file_inv & H).
    apply bind_inv in H as ([] & s2 & Hupd & H).
    destruct (inv_update_dir _ _ _ _ _ Hinv1 Hupd) as (Hinv2 & _ & Hfh & _).
    eapply (file_free_inv w _ s2 (templ f) file f); [done| |done..].
    by rewrite Hfh.
  - (* created *)
    apply bind_inv in H as (found & s1 & Hfound & H).
    pose proof (pf_find_in_dir_by_basename _ _ _ _ _ Hfound) as Hfo1.
    pose proof (inv_fields_only _ _ Hinv Hfo1) as Hinv1.
    destruct found as [file|].
    { apply (inv_fields_only _ _ Hinv1). exact (pf_g_log _ _ _ _ _ _ H). }
    apply bind_inv in H as (found & s2 & Hfind & H).
    destruct found as [tp|].
    2:{ destruct (find_for_file_inv _ _ _ _ _ _ Hinv1 Hfind) as (Hinv2 & _).
        apply (inv_fields_only _ _ Hinv2). exact (pf_g_log _ _ _ _ _ _ H). }
    apply bind_inv in H as (file & s3 & Hnew & H).
    apply bind_inv in H as ([] & s4 & Hprev & H).
    apply bind_inv in H as ([] & s5 & Hupd & H).
    eapply (link_new_file_inv w s1 d); [done| |done..| |by eauto|done].
    + by destruct Hfo1 as (_ & -> & _).
    + by eapply pf_store_prev_in_dir.
Qed.

Lemma g_object_unref_inv' w held t s u s' :
  registry_inv s → g_object_unref w held t s = Ok (u, s') → registry_inv s'.
Proof. intros Hinv H. by destruct (g_object_unref_inv _ _ _ _ _ _ Hinv H). Qed.

Lemma step_inv w ev s u s' :
  registry_inv s → step w ev s = Ok (u, s') → registry_inv s'.
Proof.
  intros Hinv H. destruct ev; simpl in H.
  - by eapply on_job_finished_inv.
  - by eapply on_dir_changed_inv.
  - apply bind_inv in H as (l & s1 & H & [_ <-]%ret_inv).
    eapply inv_fields_only; [done|by eapply pf_list_all].
  - by eapply g_object_unref_inv'.
Qed.

Lemma run_inv evs s u s' :
  registry_inv s → run evs s = Ok (u, s') → registry_inv s'.
Proof.
  revert s. induction evs as [|[w ev] evs IH]; intros s Hinv H; simpl in H.
  - by apply ret_inv in H as [_ <-].
  - apply bind_inv in H as ([] & s1 & H1 & H).
    eapply IH; [|done]. by eapply step_inv.
Qed.

(** ** The invariant after set-up *)

Lemma dirs_inv_registry s : dirs_inv s → registry_inv s.
Proof.
  intros (Ht & Hth & Hfh & Hnd & Hlt & Hlisted).
  split; unfold registry_unique; rewrite ?Ht, ?Hth, ?Hfh; try done.
  - split; [constructor|]. split.
    + intros t. rewrite elem_of_nil, lookup_empty. split; [done|by intros [? ?]].
    + intros t1 t2 r1 r2. by rewrite lookup_empty.
  - intros t. rewrite lookup_empty. by intros [? ?].
  - intros t. rewrite lookup_empty. by intros [? ?].
  - intros d. apply Hlisted.
  - intros d. apply Hlisted.
Qed.

Lemma template_dir_init_dirs_inv w d gf s u s' :
  dirs_inv s → _template_dir_init w d gf s = Ok (u, s') →
  dirs_inv s' ∧ templates_dirs s' = templates_dirs s.
Proof.
  intros (Ht & Hth & Hfh & Hnd & Hlt & Hlisted) H. unfold _template_dir_init in H.
  destruct u. apply bind_inv in H as ([] & s1 & (r & Hr & ->)%update_dir_inv & H).
  assert (∀ l, dirs_inv (with_log l (with_dir_heap
            (<[d := {| dir_files := []; dir_path := dir_path r;
                       monitor := monitor_directory w gf;
                       user_dir := user_dir r |}]> (dir_heap s)) s))) as Hs1.
  { intros l. repeat split; simpl; try done.
    - intros [<-|[_ ?]]%lookup_insert_is_Some; apply Hlisted; eauto.
    - intros Hd%Hlisted. apply lookup_insert_is_Some.
      destruct (decide (d = d0)); [by left|by right]. }
  destruct (monitor_directory w gf).
  - apply ret_inv in H as [_ <-]. split; [|done]. apply (Hs1 (log s)).
  - unfold g_debug, g_log in H. destruct (log_fatal w LOG_DEBUG); [done|].
    injection H as <-. split; [|done]. apply Hs1.
Qed.

(** A directory is allocated, put at the front or at the end of the list,
    and initialised. *)
Lemma add_dir_dirs_inv w p is_user gf (place : addr → list addr → list addr)
    s u s' :
  (∀ d l, place d l = d :: l ∨ place d l = l ++ [d]) →
  dirs_inv s →
  (d ← new_template_dir w p is_user;
   modify (λ s, with_templates_dirs (place d (templates_dirs s)) s);;
   _template_dir_init w d gf) s = Ok (u, s') →
  dirs_inv s'.
Proof.
  intros Hplace (Ht & Hth & Hfh & Hnd & Hlt & Hlisted) H.
  apply bind_inv in H as (d & s1 & Hnew & H). unfold new_template_dir in Hnew.
  apply bind_inv in Hnew as (d0 & s2 & [= <- <-] & Hnew).
  apply bind_inv in Hnew as ([] & s2 & [= <-] & [<- <-]%ret_inv).
  apply bind_inv in H as ([] & s2 & [= <-] & H).
  eapply template_dir_init_dirs_inv; [|done]. simpl.
  assert (next_free s ∉ templates_dirs s) as Hfresh.
  { intros Hin. specialize (Hlt _ Hin). lia. }
  assert (∀ x, x ∈ place (next_free s) (templates_dirs s) ↔
               x = next_free s ∨ x ∈ templates_dirs s) as Hin.
  { intros x. destruct (Hplace (next_free s) (templates_dirs s)) as [-> | ->].
    - by rewrite elem_of_cons.
    - rewrite elem_of_app, list_elem_of_singleton. tauto. }
  repeat split; simpl; try done.
  - destruct (Hplace (next_free s) (templates_dirs s)) as [-> | ->].
    + by constructor.
    + apply NoDup_app. split; [done|]. split; [|apply NoDup_singleton].
      intros x Hx ->%list_elem_of_singleton. done.
  - intros x [->|Hx]%Hin; [lia|]. specialize (Hlt _ Hx). lia.
  - intros [<-|[_ Hx]]%lookup_insert_is_Some; apply Hin; [by left|].
    right. by apply Hlisted.
  - intros [->|Hx%Hlisted]%Hin; apply lookup_insert_is_Some; [by left|].
    destruct (decide (next_free s = d)); [by left|by right].
Qed.

Lemma init_system_dirs_inv w data_dirs s u s' :
  dirs_inv s → init_system_dirs w data_dirs s = Ok (u, s') → dirs_inv s'.
Proof.
  revert s. induction data_dirs as [|data_dir rest IH]; intros s Hinv H; simpl in H.
  - by apply ret_inv in H as [_ <-].
  - apply bind_inv in H as ([] & s1 & H1 & H). eapply IH; [|done].
    destruct (file_query_exists w _); [|by apply ret_inv in H1 as [_ <-]].
    eapply (add_dir_dirs_inv w _ _ _ (λ d l, l ++ [d])); [|done..].
    intros d l. by right.
Qed.

Lemma init_inv w s :
  _fm_templates_init w empty_state = Ok (tt, s) → registry_inv s.
Proof.
  intros H. unfold _fm_templates_init in H.
  apply bind_inv in H as (s0 & s1 & [= <- <-] & H). simpl in H.
  apply bind_inv in H as ([] & s1 & Hsys & H).
  assert (dirs_inv empty_state) as Hinv0.
  { repeat split; simpl; try done; try constructor.
    - intros d Hd. by apply elem_of_nil in Hd.
    - rewrite lookup_empty. by intros [? ?].
    - intros Hd. by apply elem_of_nil in Hd. }
  pose proof (init_system_dirs_inv _ _ _ _ _ Hinv0 Hsys) as Hinv1.
  apply bind_inv in H as (d & s2 & Hnew & H).
  apply bind_inv in H as ([] & s3 & Hmod & H).
  apply bind_inv in H as ([] & s4 & Hinit & H).
  assert (dirs_inv s4) as Hinv4.
  { eapply (add_dir_dirs_inv w _ (Some true) _ (λ d l, d :: l) s1); [by left|done|].
    rewrite (bind_Ok _ _ _ _ _ Hnew), (bind_Ok _ _ _ _ _ Hmod). exact Hinit. }
  apply dirs_inv_registry.
  eapply (add_dir_dirs_inv w _ (Some true) _ (λ d l, d :: l) s4); [by left|done|].
  exact H.
Qed.

Lemma reachable_inv s : reachable s → registry_inv s.
Proof.
  intros (w0 & evs & H). apply bind_inv in H as ([] & s0 & Hinit & Hrun).
  eapply run_inv; [|done]. by eapply init_inv.
Qed.

(** ** C1: one template per MIME type *)

(** C1.  In every state that can be observed - after set-up and any
    events: listings, changes reported by the monitors, callers taking and
    dropping references - the global list holds no template twice and no two
    templates of one MIME type, and [_fm_template_find_for_file] for a file
    of the type of a listed template takes a reference to that template and
    allocates nothing. *)
Theorem registry_one_template_per_mime_type s :
  reachable s →
  registry_unique s ∧
  (∀ w p is_de t r,
     t ∈ templates s → template_heap s !! t = Some r →
     _fm_template_guess_mime_type w p is_de s = Ok (Some (mime_type r), s) →
     _fm_template_find_for_file w p is_de s =
     Ok (Some t,
         with_template_heap
           (<[t := with_ref_count (S (ref_count r)) r]> (template_heap s)) s)).
Proof.
  intros Hinv%reachable_inv. split; [apply Hinv|].
  intros w p is_de t r Ht Hr Hg. unfold _fm_template_find_for_file.
  rewrite (bind_Ok _ _ _ _ _ Hg).
  rewrite (bind_Ok get _ s s s eq_refl).
  destruct Hinv as [(_ & Hlist & Hmime) _ _ _ _ _ _ _ _].
  destruct (find_by_mime_type_total (templates s) (mime_type r) s) as [res Hres].
  { intros t' Ht'. by apply Hlist. }
  rewrite (bind_Ok _ _ _ _ _ Hres).
  apply find_by_mime_type_inv in Hres as [_ Hres]. destruct res as [data|].
  - destruct Hres as (_ & r' & Hr' & Hm).
    assert (data = t) as -> by by eapply Hmime.
    unfold g_object_ref. by rewrite (bind_Ok _ _ _ _ _ (update_templ_Ok _ _ _ _ Hr)).
  - by destruct (Hres t r Ht Hr).
Qed.

Lemma registry_one_template_per_mime_type_witness :
  registry_unique s_two_entries ∧
  (∀ w p is_de t r,
     t ∈ templates s_two_entries → template_heap s_two_entries !! t = Some r →
     _fm_template_guess_mime_type w p is_de s_two_entries =
       Ok (Some (mime_type r), s_two_entries) →
     _fm_template_find_for_file w p is_de s_two_entries =
     Ok (Some t,
         with_template_heap
           (<[t := with_ref_count (S (ref_count r)) r]>
              (template_heap s_two_entries)) s_two_entries)).
Proof.
  apply (registry_one_template_per_mime_type s_two_entries).
  exists w_ex, evs_two_entries. vm_compute. reflexivity.
Defined.

(** The two entries of [s_two_entries] are of type [text/plain] and share
    the one template. *)
Lemma two_entries_one_template :
  templates s_two_entries = [3] ∧
  map_to_list (mime_type <$> template_heap s_two_entries) = [(3, "text/plain")] ∧
  map_to_list (templ <$> file_heap s_two_entries) = [(4, 3); (5, 3)].
Proof. repeat split; vm_compute; reflexivity. Qed.

(** ** C2: the order of the chain *)

(** C2.  In every state that can be observed every chain is sorted by the
    rank of the directory of the entry and, within a directory, desktop
    entries before plain files.  For a new entry of any kind in any listed
    directory the insertion loop returns the old chain with the entry put
    in, sorted again, and this is the chain of the template when
    [_fm_template_insert_sorted] returns. *)
Theorem chain_sorted_by_priority s :
  reachable s →
  (∀ t r, template_heap s !! t = Some r → chain_sorted s (files r)) ∧
  (∀ w t r p is_de d,
     template_heap s !! t = Some r → d ∈ templates_dirs s →
     ∃ file s1 chain',
       new_template_file w t p is_de d s = Ok (file, s1) ∧
       insert_sorted_loop file
         {| dir := d; templ := t; path := p; is_desktop_entry := is_de;
            inactive := slice_junk w file |}
         (templates_dirs s1) (files r) s1 = Ok (chain', s1) ∧
       chain' ≡ₚ file :: files r ∧
       chain_sorted s1 chain' ∧
       ∀ u s', _fm_template_insert_sorted w t file s1 = Ok (u, s') →
         ∃ r', template_heap s' !! t = Some r' ∧ files r' = chain' ∧
               chain_sorted s' chain').
Proof.
  intros Hinv%reachable_inv. split; [apply Hinv|].
  intros w t r p is_de d Hr Hd.
  destruct (new_template_file w t p is_de d s) as [[file s1]| |] eqn:Hnew; [|done..].
  destruct (inv_new_file _ _ _ _ _ _ _ _ Hinv Hd Hnew)
    as (Hinv1 & Hun1 & Hfile1 & Hth1 & _ & Hdirs1 & _).
  rewrite <-Hth1 in Hr.
  pose proof Hinv1 as [_ _ _ Hdn _ _ Hce _ Hcs].
  destruct (insert_sorted_loop_spec s1 file _ Hdn Hfile1 (files r) (templates_dirs s1) [])
    as (l1 & l2 & Hrun & Hfiles & H1 & H2); [done|by rewrite Hdirs1| |by eapply Hcs|].
  { intros a Ha. destruct (Hce t r Hr a Ha) as (fa & ? & ? & ?). eauto. }
  assert (chain_sorted s1 (l1 ++ file :: l2)) as Hsorted.
  { apply StronglySorted_insert; [|done..]. rewrite <-Hfiles. by eapply Hcs. }
  exists file, s1, (l1 ++ file :: l2). split; [done|]. split; [done|].
  split; [by rewrite Hfiles, Permutation_middle|]. split; [done|].
  intros u s' H. unfold _fm_template_insert_sorted in H.
  apply bind_inv in H as (s0 & s2 & [= <- <-] & H).
  apply bind_inv in H as (r0 & s2 & [Hr0 ->]%get_templ_inv & H).
  apply bind_inv in H as (f' & s2 & [Hf' ->]%get_file_inv & H).
  assert (r0 = r) as -> by congruence.
  assert (f' = {| dir := d; templ := t; path := p; is_desktop_entry := is_de;
                  inactive := slice_junk w file |}) as -> by congruence.
  rewrite (bind_Ok _ _ _ _ _ Hrun) in H.
  apply bind_inv in H as ([] & s2 & (r0 & Hr0' & ->)%update_templ_inv & H).
  apply pf_update in H as Hfo.
  destruct (fields_only_templ_fwd _ _ t (with_files (l1 ++ file :: l2) r0) Hfo)
    as (r' & Hr' & Hfiles' & _); [apply lookup_insert_eq|].
  exists r'. split; [done|]. split; [done|].
  eapply StronglySorted_mono; [|exact Hsorted].
  intros x y _ _ Hle. by apply (chain_le_fields_only _ _ _ _ Hfo).
Qed.

Lemma chain_sorted_by_priority_witness :
  (∀ t r, template_heap s_two_entries !! t = Some r →
          chain_sorted s_two_entries (files r)) ∧
  (∀ w t r p is_de d,
     template_heap s_two_entries !! t = Some r →
     d ∈ templates_dirs s_two_entries →
     ∃ file s1 chain',
       new_template_file w t p is_de d s_two_entries = Ok (file, s1) ∧
       insert_sorted_loop file
         {| dir := d; templ := t; path := p; is_desktop_entry := is_de;
            inactive := slice_junk w file |}
         (templates_dirs s1) (files r) s1 = Ok (chain', s1) ∧
       chain' ≡ₚ file :: files r ∧
       chain_sorted s1 chain' ∧
       ∀ u s', _fm_template_insert_sorted w t file s1 = Ok (u, s') →
         ∃ r', template_heap s' !! t = Some r' ∧ files r' = chain' ∧
               chain_sorted s' chain').
Proof.
  apply (chain_sorted_by_priority s_two_entries).
  exists w_ex, evs_two_entries. vm_compute. reflexivity.
Defined.

(** ** C6: the list of templates *)

(** In a state that can be observed the head entry of every listed
    template with a non-empty chain can be read, and its directory. *)
Lemma reachable_heads_readable s :
  reachable s →
  (∀ t r, t ∈ templates s → template_heap s !! t = Some r → files r ≠ []) →
  heads_readable s.
Proof.
  intros Hinv%reachable_inv Hne t Ht.
  destruct Hinv as [(_ & Hlist & _) _ _ _ _ Hdv Hce _ _].
  destruct (proj1 (Hlist t) Ht) as [r Hr].
  destruct (files r) as [|first rest] eqn:Hfiles; [by destruct (Hne t r Ht Hr)|].
  destruct (Hce t r Hr first) as (f & Hf & _ & Hdir); [rewrite Hfiles; left|].
  destruct (Hdv _ Hdir) as [d Hd]. by exists r, first, rest, f, d.
Qed.

(** What [fm_template_list_all] returns, in terms of the two bits as they
    are stored: in every state that can be observed in which each listed
    template has a chain head, it returns the listed templates whose head
    entry has [inactive] unset and, with [user_only], lies in a directory
    with [user_dir] set.  A template whose head entry has [inactive] set is
    left out, whatever its other entries are. *)
Lemma list_all_by_head user_only s :
  reachable s →
  (∀ t r, t ∈ templates s → template_heap s !! t = Some r → files r ≠ []) →
  ∃ l s',
    fm_template_list_all user_only s = Ok (l, s') ∧
    (∀ t, t ∈ l ↔ t ∈ templates s ∧ listed user_only s t) ∧
    (∀ t r first rest f,
       template_heap s !! t = Some r → files r = first :: rest →
       file_heap s !! first = Some f → inactive f = true → t ∉ l).
Proof.
  intros Hreach Hne.
  pose proof (reachable_heads_readable s Hreach Hne) as Hs.
  unfold fm_template_list_all.
  rewrite (bind_Ok get _ s s s eq_refl).
  destruct (list_all_loop_spec user_only s (templates s) Hs [] s (same_chains_refl s))
    as (l & s' & Hrun & _ & Hl).
  exists l, s'. split; [done|].
  assert (∀ t, t ∈ l ↔ t ∈ templates s ∧ listed user_only s t) as Hiff.
  { intros t. rewrite Hl, elem_of_nil. tauto. }
  split; [done|].
  intros t r first rest f Hr Hfiles Hf Hin
    [_ (r' & first' & rest' & f' & d' & Hr' & Hfiles' & Hf' & _ & Hin' & _)]%Hiff.
  assert (r' = r) as -> by congruence.
  assert (first' = first) as -> by congruence.
  congruence.
Qed.

Lemma list_all_by_head_witness :
  ∃ l s',
    fm_template_list_all false s_hidden = Ok (l, s') ∧
    (∀ t, t ∈ l ↔ t ∈ templates s_hidden ∧ listed false s_hidden t) ∧
    (∀ t r first rest f,
       template_heap s_hidden !! t = Some r → files r = first :: rest →
       file_heap s_hidden !! first = Some f → inactive f = true → t ∉ l).
Proof.
  apply (list_all_by_head false s_hidden).
  - exists w_ex, evs_hidden. vm_compute. reflexivity.
  - intros t r Ht Hr. vm_compute in Ht. apply list_elem_of_singleton in Ht as ->.
    vm_compute in Hr. injection Hr as <-. discriminate.
Defined.

(** C6, at the failing input.  The two bits that [fm_template_list_all]
    reads are not always assigned: [user_dir] is set for the two user
    directories (lines 634, 648) and never cleared for a system directory,
    and [inactive] is assigned only when a desktop entry loads (line 294),
    never for a plain file.  [g_slice_new] does not clear what it hands
    out.  Where it leaves the bits set, a plain file listed in the system
    directory gives a template that [fm_template_list_all (TRUE)] returns,
    although its only entry lies in no user directory; and a plain file
    listed in a user directory gives a template that
    [fm_template_list_all (FALSE)] leaves out, although nothing marked its
    only entry as hidden. *)
Theorem list_all_reads_unassigned_bits :
  (∃ s s' f d,
     let w := w_junk (λ a, Nat.eqb a 0) in
     (_fm_templates_init w;;
      run [(w, JobFinished [fi_plain "/usr/share/templates/a.txt"] 0)])
       empty_state = Ok (tt, s) ∧
     templates s = [3] ∧ files <$> template_heap s !! 3 = Some [4] ∧
     file_heap s !! 4 = Some f ∧ dir f = 0 ∧
     dir_heap s !! 0 = Some d ∧ dir_path d = "/usr/share/templates" ∧
     fm_template_list_all true s = Ok ([3], s')) ∧
  (∃ s s' f d,
     let w := w_junk (λ a, Nat.eqb a 4) in
     (_fm_templates_init w;;
      run [(w, JobFinished [fi_plain "/home/u/Templates/a.txt"] 2)])
       empty_state = Ok (tt, s) ∧
     templates s = [3] ∧ files <$> template_heap s !! 3 = Some [4] ∧
     file_heap s !! 4 = Some f ∧ is_desktop_entry f = false ∧ dir f = 2 ∧
     dir_heap s !! 2 = Some d ∧ user_dir d = true ∧
     fm_template_list_all false s = Ok ([], s')).
Proof.
  split.
  - eexists _, _, _, _. simpl. split; [vm_compute; reflexivity|].
    split_and!; vm_compute; reflexivity.
  - eexists _, _, _, _. simpl. split; [vm_compute; reflexivity|].
    split_and!; vm_compute; reflexivity.
Qed.

(** ** More on recomputing the fields *)

(** For a chain of plain files the fold leaves everything but the target
    file as it finds it. *)
Lemma update_from_file_plain_chain w t chain s t0 :
  template_heap s !! t = Some t0 →
  Forall (λ a, ∃ f, file_heap s !! a = Some f ∧ is_desktop_entry f = false) chain →
  ∃ t1,
    _fm_template_update_from_file w t chain s =
      Ok (tt, with_template_heap (<[t := t1]> (template_heap s)) s) ∧
    label t1 = label t0 ∧ icon t1 = icon t0 ∧ command t1 = command t0 ∧
    prompt t1 = prompt t0 ∧ files t1 = files t0.
Proof.
  intros Ht Hchain. induction Hchain as [|a chain (f & Hf & Hplain) _ IH]; simpl.
  - exists t0. by rewrite with_template_heap_id.
  - destruct IH as (t1 & Hrun & Hl & Hi & Hc & Hp & Hfs).
    rewrite (bind_Ok _ _ _ _ _ Hrun).
    erewrite update_from_entry_plain; [|exact Hf|done|apply lookup_insert_eq].
    rewrite with_template_heap_twice. simpl. rewrite insert_insert_eq.
    eexists. split; [done|]. by destruct (template_file t1).
Qed.

(** The general form of the failing input of C4: whenever the chain of a
    template holds plain files only, [_fm_template_update] leaves [icon],
    [command] and [prompt] unset, as no entry defines them, but the label
    is the one from before the call. *)
Lemma update_plain_chain_keeps_label w s t r :
  template_heap s !! t = Some r →
  Forall (λ a, ∃ f, file_heap s !! a = Some f ∧ is_desktop_entry f = false)
    (files r) →
  ∃ s' r',
    _fm_template_update w t s = Ok (tt, s') ∧
    template_heap s' !! t = Some r' ∧
    icon r' = None ∧ command r' = None ∧ prompt r' = None ∧
    label r' = label r.
Proof.
  intros Hr Hchain. rewrite (update_unfold _ _ _ _ Hr).
  destruct (update_from_file_plain_chain w t (files r)
              (with_template_heap (<[t := cleared r]> (template_heap s)) s)
              (cleared r)) as (t1 & Hrun & Hl & Hi & Hc & Hp & _);
    [apply lookup_insert_eq|done|].
  eexists. exists t1. split; [exact Hrun|]. simpl. rewrite lookup_insert_eq.
  by rewrite Hl, Hi, Hc, Hp.
Qed.

Lemma keeps_files_ret {A} (a : A) : keeps_files (mret a : M A).
Proof. by intros s b s' [_ <-]%ret_inv. Qed.

Lemma keeps_files_bind {A B} (m : M A) (f : A → M B) :
  keeps_files m → (∀ a, keeps_files (f a)) → keeps_files (m ≫= f).
Proof.
  intros Hm Hf s b s' (a & s1 & H1 & H2)%bind_inv.
  rewrite (Hf _ _ _ _ H2). by eapply Hm.
Qed.

Lemma keeps_files_update_templ t f : keeps_files (update_templ t f).
Proof. by intros s u s' (r & _ & ->)%update_templ_inv. Qed.

Lemma keeps_files_get_dir d : keeps_files (get_dir d).
Proof. by intros s r s' [_ ->]%get_dir_inv. Qed.

(** [_fm_template_update] leaves in [inactive] of the head entry, when it
    is a desktop entry that loads, the value of its [Hidden] key
    (line 294): the head is the last entry the fold reads. *)
Lemma update_marks_head w s t r first rest f kf u s' :
  template_heap s !! t = Some r → files r = first :: rest →
  file_heap s !! first = Some f → is_desktop_entry f = true →
  key_file_load w (fm_path_to_str (path f)) = Some kf →
  _fm_template_update w t s = Ok (u, s') →
  ∃ f', file_heap s' !! first = Some f' ∧ inactive f' = kf_Hidden kf.
Proof.
  intros Hr Hfiles Hf Hde Hkf H. rewrite (update_unfold _ _ _ _ Hr), Hfiles in H.
  simpl in H. apply bind_inv in H as ([] & s1 & Hrest & H).
  apply pf_update_from_file in Hrest as Hfo.
  destruct (fields_only_file_fwd _ _ first f Hfo Hf) as (f1 & Hf1 & _ & _ & Hp & Hd).
  unfold update_from_entry in H.
  rewrite (bind_Ok _ _ _ _ _ (get_file_Ok _ _ _ Hf1)), <-Hd, Hde, <-Hp, Hkf in H.
  rewrite (bind_Ok _ _ _ _ _ (update_file_Ok _ _ _ _ Hf1)) in H.
  assert (keeps_files
            (if kf_Hidden kf then mret tt
             else
               match kf_URL kf with
               | Some tmp =>
                   if is_absolute tmp then
                     update_templ t (with_template_file (Some (fm_path_new_for_str tmp)))
                   else
                     d ← get_dir (dir f1);
                     update_templ t
                       (with_template_file (Some (fm_path_new_relative (dir_path d) tmp)))
               | None => mret tt
               end;;
               match kf_Icon kf with
               | Some tmp => update_templ t (with_icon (Some tmp))
               | None => mret tt
               end;;
               match kf_Exec kf with
               | Some tmp => update_templ t (with_command (Some tmp))
               | None => mret tt
               end;;
               match kf_Name kf with
               | Some tmp => update_templ t (with_label (Some tmp))
               | None => mret tt
               end;;
               match kf_Comment kf with
               | Some tmp => update_templ t (with_prompt (Some tmp))
               | None => mret tt
               end)) as Hkeep.
  { repeat first
      [ apply keeps_files_ret | apply keeps_files_update_templ
      | apply keeps_files_get_dir
      | apply keeps_files_bind; [|intros ?]
      | match goal with
        | |- keeps_files (match ?x with _ => _ end) => destruct x
        | |- keeps_files (if ?x then _ else _) => destruct x
        end ]. }
  apply Hkeep in H. rewrite H. simpl. rewrite lookup_insert_eq. by eexists.
Qed.

(** ** A longer chain *)

(** The chain of [s_eight_entries] from head to tail, each entry with the
    rank of its directory and its kind: the XDG directory first, then the
    user data directory, then the system directory; desktop entries before
    plain files in each; a new entry before the entries of its own rank and
    kind. *)
Lemma eight_entries_chain :
  (λ a, (λ f, (fm_path_get_basename (path f),
               entry_key (templates_dirs s_eight_entries) f))
          <$> file_heap s_eight_entries !! a)
    <$> default [] (files <$> template_heap s_eight_entries !! 3) =
  [ Some ("link.desktop", (0, 0)); Some ("write.desktop", (0, 0));
    Some ("d.txt", (0, 1)); Some ("c.txt", (0, 1));
    Some ("hidden.desktop", (1, 0)); Some ("b.txt", (1, 1));
    Some ("z.txt", (2, 1)); Some ("a.txt", (2, 1)) ].
Proof. vm_compute. reflexivity. Qed.
(** ** Names *)

Lemma string_app_cons (a : ascii) (s s' : string) :
  String a s +:+ s' = String a (s +:+ s').
Proof. reflexivity. Qed.

Lemma string_app_nil_r (s : string) : s +:+ "" = s.
Proof. induction s as [|a s IH]; [done|]. by rewrite string_app_cons, IH. Qed.

Lemma string_app_cons_r (s : string) c s' :
  (s +:+ String c "") +:+ s' = s +:+ String c s'.
Proof. induction s as [|a s IH]; [done|]. by rewrite !string_app_cons, IH. Qed.

Lemma last_component_app s1 s2 acc :
  last_component (s1 +:+ s2) acc = last_component s2 (last_component s1 acc).
Proof.
  revert acc. induction s1 as [|c s1 IH]; intros acc; [done|].
  rewrite string_app_cons. simpl. destruct (Ascii.eqb c "/"); apply IH.
Qed.

Lemma last_component_no_slash s acc :
  no_slash s = true → last_component s acc = acc +:+ s.
Proof.
  revert acc. induction s as [|c s IH]; intros acc; simpl.
  - intros _. by rewrite string_app_nil_r.
  - destruct (Ascii.eqb c "/"); [done|]. simpl. intros H. rewrite (IH _ H).
    apply string_app_cons_r.
Qed.

Lemma no_slash_app s1 s2 :
  no_slash (s1 +:+ s2) = no_slash s1 && no_slash s2.
Proof.
  induction s1 as [|c s1 IH]; [done|].
  rewrite string_app_cons. simpl. rewrite IH. by rewrite andb_assoc.
Qed.

Lemma last_component_is_name s acc :
  no_slash acc = true → no_slash (last_component s acc) = true.
Proof.
  revert acc. induction s as [|c s IH]; intros acc Hacc; simpl; [done|].
  destruct (Ascii.eqb c "/") eqn:Hc; [by apply IH|].
  apply IH. rewrite no_slash_app, Hacc. simpl. by rewrite Hc.
Qed.

(** The name of a child is the name it was made with. *)
Lemma basename_new_child parent basename :
  no_slash basename = true →
  fm_path_get_basename (fm_path_new_child parent basename) = basename.
Proof.
  intros H. unfold fm_path_get_basename, fm_path_new_child.
  rewrite last_component_app. change ("/" +:+ basename) with (String "/" basename).
  simpl. by rewrite last_component_no_slash.
Qed.

Lemma g_file_get_basename_is_name gf : no_slash (g_file_get_basename gf) = true.
Proof. by apply last_component_is_name. Qed.

Lemma strrchr_dot_spec name :
  match strrchr_dot name with
  | Some n =>
      String.get n name = Some "."%char ∧
      ∀ i, n < i → String.get i name ≠ Some "."%char
  | None => ∀ i, String.get i name ≠ Some "."%char
  end.
Proof.
  induction name as [|c rest IH]; simpl; [done|].
  destruct (strrchr_dot rest) as [n|].
  - destruct IH as [Hn Hafter]. split; [done|].
    intros [|i] Hi; [lia|]. simpl. apply Hafter. lia.
  - destruct (Ascii.eqb_spec c ".") as [->|Hc].
    + split; [done|]. intros [|i] Hi; [lia|]. simpl. apply IH.
    + intros [|i]; simpl; [congruence|apply IH].
Qed.

Lemma string_get_Some s n c : String.get n s = Some c → n < String.length s.
Proof.
  revert n. induction s as [|a s IH]; intros [|n]; simpl; try done; [lia|].
  intros H%IH. lia.
Qed.

(** X1.  [fm_template_dup_name] reads the name of the target file and
    leaves the registry alone.  Without a target file it gives no name and
    stores no length.  With one, the name is the last component of the path
    and has no ['/'], and the length stored for a caller that asks for it
    is the offset of the last dot of the name - the character at the offset
    is a dot and no dot comes after it - or, for a name without any dot,
    the length of the name: it is the length of the name without its last
    suffix, and 0 for a name such as [.hidden]. *)
Theorem dup_name_splits_at_last_dot s templ t nlen :
  template_heap s !! templ = Some t →
  ∃ name len,
    fm_template_dup_name templ nlen s = Ok ((name, len), s) ∧
    name = fm_path_get_basename <$> template_file t ∧
    match name, len with
    | Some name, Some n =>
        nlen = true ∧ no_slash name = true ∧
        ((String.get n name = Some "."%char ∧
          ∀ i, n < i → String.get i name ≠ Some "."%char) ∨
         (n = String.length name ∧
          ∀ i, String.get i name ≠ Some "."%char))
    | Some _, None => nlen = false
    | None, Some _ => False
    | None, None => True
    end.
Proof.
  intros Ht. unfold fm_template_dup_name.
  rewrite (bind_Ok _ _ _ _ _ (get_templ_Ok _ _ _ Ht)).
  eexists _, _. split; [reflexivity|]. split; [done|].
  destruct (template_file t) as [p|]; simpl; [|done].
  destruct nlen; [|done].
  pose proof (strrchr_dot_spec (fm_path_get_basename p)) as Hdot.
  destruct (strrchr_dot (fm_path_get_basename p)) as [n|].
  - split; [done|]. split; [by apply last_component_is_name|]. by left.
  - split; [done|]. split; [by apply last_component_is_name|]. by right.
Qed.

Lemma dup_name_splits_at_last_dot_witness :
  ∃ name len,
    fm_template_dup_name 3 true s_link = Ok ((name, len), s_link) ∧
    name = Some "letter.txt" ∧ len = Some 6.
Proof.
  destruct (dup_name_splits_at_last_dot s_link 3
    {| ref_count := 2; files := [5; 4]; mime_type := "text/plain";
       template_file := Some "/home/u/Templates/skel/letter.txt"; icon := None;
       command := None; prompt := None; label := None |} true)
    as (name & len & H & Hname & _).
  - vm_compute. reflexivity.
  - exists name, len. split; [exact H|]. subst name.
    vm_compute in H. injection H as <-. split; reflexivity.
Defined.

(** ** Set-up *)

Lemma update_dir_Ok s d f r :
  dir_heap s !! d = Some r →
  update_dir d f s = Ok (tt, with_dir_heap (<[d := f r]> (dir_heap s)) s).
Proof. intros H. unfold update_dir. by rewrite (bind_Ok _ _ _ _ _ (get_dir_Ok _ _ _ H)). Qed.

(** The record of a directory that [_fm_templates_init] has set up. *)
Lemma template_dir_init_spec w d gf s r :
  log_fatal w LOG_DEBUG = false →
  dir_heap s !! d = Some r →
  ∃ s', _template_dir_init w d gf s = Ok (tt, s') ∧
    templates s' = templates s ∧ templates_dirs s' = templates_dirs s ∧
    template_heap s' = template_heap s ∧ file_heap s' = file_heap s ∧
    next_free s' = next_free s ∧
    dir_heap s' =
      <[d := {| dir_files := []; dir_path := dir_path r;
                monitor := monitor_directory w gf; user_dir := user_dir r |}]>
        (dir_heap s).
Proof.
  intros Hlog Hr. unfold _template_dir_init.
  rewrite (bind_Ok _ _ _ _ _ (update_dir_Ok _ _ _ _ Hr)).
  destruct (monitor_directory w gf); [by eexists|].
  unfold g_debug, g_log. rewrite Hlog. by eexists.
Qed.

Lemma add_dir_spec w p is_user (place : addr → list addr → list addr) s :
  log_fatal w LOG_DEBUG = false →
  ∃ s', (d ← new_template_dir w p is_user;
         modify (λ s, with_templates_dirs (place d (templates_dirs s)) s);;
         _template_dir_init w d (fm_path_to_gfile p)) s = Ok (tt, s') ∧
    templates s' = templates s ∧
    templates_dirs s' = place (next_free s) (templates_dirs s) ∧
    template_heap s' = template_heap s ∧ file_heap s' = file_heap s ∧
    next_free s' = S (next_free s) ∧
    dir_heap s' =
      <[next_free s :=
          {| dir_files := []; dir_path := p;
             monitor := monitor_directory w (fm_path_to_gfile p);
             user_dir := default (slice_junk w (next_free s)) is_user |}]>
        (dir_heap s).
Proof.
  intros Hlog. unfold new_template_dir.
  set (r := {| dir_files := []; dir_path := p; monitor := false;
               user_dir := default (slice_junk w (next_free s)) is_user |}).
  set (s1 := with_templates_dirs (place (next_free s) (templates_dirs s))
               (with_dir_heap (<[next_free s := r]> (dir_heap s))
                  (with_next_free (S (next_free s)) s))).
  destruct (template_dir_init_spec w (next_free s) (fm_path_to_gfile p) s1 r Hlog)
    as (s' & H & ? & ? & ? & ? & ? & Hheap).
  { simpl. apply lookup_insert_eq. }
  exists s'. split_and!; try done.
  rewrite Hheap. simpl. by rewrite insert_insert_eq.
Qed.

(** The system directories that exist, by path, in the order of
    [g_get_system_data_dirs]. *)
Lemma init_system_dirs_spec w data_dirs s :
  log_fatal w LOG_DEBUG = false →
  let sys := List.filter (file_query_exists w)
               (map (λ data_dir, fm_path_new_child data_dir "templates") data_dirs) in
  ∃ s', init_system_dirs w data_dirs s = Ok (tt, s') ∧
    templates s' = templates s ∧
    templates_dirs s' = templates_dirs s ++ seq (next_free s) (length sys) ∧
    template_heap s' = template_heap s ∧ file_heap s' = file_heap s ∧
    next_free s' = next_free s + length sys ∧
    (∀ d, d < next_free s → dir_heap s' !! d = dir_heap s !! d) ∧
    (∀ i p, sys !! i = Some p →
       dir_heap s' !! (next_free s + i) =
       Some {| dir_files := []; dir_path := p;
               monitor := monitor_directory w p;
               user_dir := slice_junk w (next_free s + i) |}).
Proof.
  intros Hlog. revert s. induction data_dirs as [|data_dir rest IH]; intros s; simpl.
  - exists s. rewrite app_nil_r, Nat.add_0_r. by split_and!.
  - unfold fm_path_new_for_str, fm_path_to_gfile.
    destruct (file_query_exists w (fm_path_new_child data_dir "templates")) eqn:Hex.
    + destruct (add_dir_spec w (fm_path_new_child data_dir "templates") None
                  (λ d l, l ++ [d]) s Hlog)
        as (s1 & H1 & Ht1 & Hd1 & Hth1 & Hfh1 & Hnf1 & Hdh1).
      destruct (IH s1) as (s' & H & Ht & Hd & Hth & Hfh & Hnf & Hold & Hnew).
      exists s'. split.
      { unfold fm_path_to_gfile in H1. by rewrite (bind_Ok _ _ _ _ _ H1). }
      rewrite Ht, Hd, Hth, Hfh, Hnf, Ht1, Hd1, Hth1, Hfh1, Hnf1. simpl.
      split_and!; try done.
      * by rewrite <- app_assoc.
      * intros d Hlt. rewrite Hold by lia. rewrite Hdh1.
        apply lookup_insert_ne. lia.
      * intros [|i] p Hi; simpl in Hi.
        -- injection Hi as <-. rewrite Nat.add_0_r, Hold by lia.
           rewrite Hdh1. apply lookup_insert_eq.
        -- replace (next_free s + S i) with (next_free s1 + i) by lia.
           by apply Hnew.
    + rewrite ret_bind. apply IH.
Qed.

(** X3.  Set-up on the empty registry, where debug messages are not made
    fatal, returns, with no template and no entry, and with the directories
    in this order of priority: the XDG templates directory
    ([g_get_user_special_dir], or [Templates] under the home directory when
    there is none), then [templates] under the user data directory, then
    [templates] under each system data directory that exists, in the order
    of [g_get_system_data_dirs].  The first two are marked as user
    directories; the mark of a system directory is never assigned and is
    what the allocator left there.  A monitor that cannot be created is
    tolerated. *)
Theorem init_layout w :
  log_fatal w LOG_DEBUG = false →
  let sys := List.filter (file_query_exists w)
               (map (λ data_dir, fm_path_new_child data_dir "templates")
                  (system_data_dirs w)) in
  let n := length sys in
  let xdg := match user_special_dir_templates w with
             | Some dir_name => fm_path_new_for_str dir_name
             | None => fm_path_new_child (home w) "Templates"
             end in
  let usr := fm_path_new_child (user_data_dir w) "templates" in
  ∃ s, _fm_templates_init w empty_state = Ok (tt, s) ∧
    templates s = [] ∧ template_heap s = ∅ ∧ file_heap s = ∅ ∧
    templates_dirs s = S n :: n :: seq 0 n ∧
    dir_heap s !! S n =
      Some {| dir_files := []; dir_path := xdg;
              monitor := monitor_directory w xdg; user_dir := true |} ∧
    dir_heap s !! n =
      Some {| dir_files := []; dir_path := usr;
              monitor := monitor_directory w usr; user_dir := true |} ∧
    ∀ i p, sys !! i = Some p →
      dir_heap s !! i =
      Some {| dir_files := []; dir_path := p; monitor := monitor_directory w p;
              user_dir := slice_junk w i |}.
Proof.
  intros Hlog sys n xdg usr. unfold _fm_templates_init.
  rewrite (bind_Ok get _ empty_state empty_state empty_state eq_refl). simpl.
  destruct (init_system_dirs_spec w (system_data_dirs w) empty_state Hlog)
    as (s1 & H1 & Ht1 & Hd1 & Hth1 & Hfh1 & Hnf1 & _ & Hnew1).
  fold sys in Hd1, Hnf1, Hnew1. fold n in Hd1, Hnf1. simpl in *.
  rewrite (bind_Ok _ _ _ _ _ H1).
  destruct (add_dir_spec w usr (Some true) (λ d l, d :: l) s1 Hlog)
    as (s2 & H2 & Ht2 & Hd2 & Hth2 & Hfh2 & Hnf2 & Hdh2).
  destruct (add_dir_spec w xdg (Some true) (λ d l, d :: l) s2 Hlog)
    as (s3 & H3 & Ht3 & Hd3 & Hth3 & Hfh3 & Hnf3 & Hdh3).
  exists s3. split.
  { unfold fm_path_new_for_str in *. subst usr.
    apply bind_inv in H2 as (d & s2' & Hnew2 & H2).
    rewrite (bind_Ok _ _ _ _ _ Hnew2).
    apply bind_inv in H2 as ([] & s2'' & Hmod2 & H2).
    rewrite (bind_Ok _ _ _ _ _ Hmod2), (bind_Ok _ _ _ _ _ H2). exact H3. }
  rewrite Ht3, Ht2, Ht1, Hth3, Hth2, Hth1, Hfh3, Hfh2, Hfh1.
  rewrite Hd3, Hd2, Hd1, Hnf2, Hnf1, Hdh3, Hdh2, Hnf2, Hnf1. simpl.
  split_and!; try done.
  - apply lookup_insert_eq.
  - rewrite lookup_insert_ne by lia. apply lookup_insert_eq.
  - intros i p Hi.
    assert (i < n) by (by apply lookup_lt_Some in Hi).
    rewrite !lookup_insert_ne by lia. by apply Hnew1.
Qed.

Lemma init_layout_witness :
  ∃ s, _fm_templates_init w_ex empty_state = Ok (tt, s) ∧
       templates_dirs s = [2; 1; 0].
Proof.
  destruct (init_layout w_ex) as (s & H & _ & _ & _ & Hd & _).
  - reflexivity.
  - exists s. split; [exact H|]. exact Hd.
Defined.

(** X4.  [_fm_templates_init] called again does nothing, in whatever
    environment: the first call, whenever it returns, leaves a list of
    directories that is not empty, which is what the second call tests. *)
Theorem init_twice w w' s s' :
  _fm_templates_init w s = Ok (tt, s') →
  _fm_templates_init w' s' = Ok (tt, s').
Proof.
  intros H. unfold _fm_templates_init in *.
  apply bind_inv in H as (s0 & s1 & [= <- <-] & H).
  rewrite (bind_Ok get _ s' s' s' eq_refl).
  destruct (templates_dirs s) as [|d0 l0] eqn:Hdirs.
  - apply bind_inv in H as ([] & s1 & _ & H).
    apply bind_inv in H as (d & s2 & _ & H).
    apply bind_inv in H as ([] & s3 & _ & H).
    apply bind_inv in H as ([] & s4 & _ & H).
    apply bind_inv in H as (d' & s5 & _ & H).
    apply bind_inv in H as ([] & s6 & [= <-] & H).
    unfold _template_dir_init in H.
    apply bind_inv in H as ([] & s7 & (r & _ & ->)%update_dir_inv & H).
    assert (templates_dirs s' = d' :: templates_dirs s5) as ->; [|done].
    destruct (monitor_directory w _).
    + by apply ret_inv in H as [_ <-].
    + unfold g_debug, g_log in H. destruct (log_fatal w LOG_DEBUG); [done|].
      by injection H as <-.
  - apply ret_inv in H as [_ <-]. by rewrite Hdirs.
Qed.

Lemma init_twice_witness :
  _fm_templates_init w_ex s_two_entries = Ok (tt, s_two_entries).
Proof.
  apply (init_twice w_ex w_ex s_two_entries s_two_entries).
  vm_compute. reflexivity.
Defined.

(** ** Relations that every handler respects *)

Create HintDb rs discriminated.

Section frame.
Variable R : State → State → Prop.
Hypothesis HF : field_frame R.

Lemma respects_ret {A} (a : A) : respects R (mret a : M A).
Proof. intros s a' s' [_ <-]%ret_inv. apply (frame_refl R HF). Qed.

Lemma respects_bind {A B} (m : M A) (f : A → M B) :
  respects R m → (∀ a, respects R (f a)) → respects R (m ≫= f).
Proof.
  intros Hm Hf s b s' (a & s1 & H1 & H2)%bind_inv.
  eapply (frame_trans R HF); [by eapply Hm|by eapply Hf].
Qed.

Lemma respects_get : respects R get.
Proof. intros s a s' [= _ <-]. apply (frame_refl R HF). Qed.

Lemma respects_raise {A} e : respects R (raise e : M A).
Proof. by intros s a s'. Qed.

Lemma respects_get_templ t : respects R (get_templ t).
Proof. intros s a s' [_ ->]%get_templ_inv. apply (frame_refl R HF). Qed.

Lemma respects_get_file a : respects R (get_file a).
Proof. intros s r s' [_ ->]%get_file_inv. apply (frame_refl R HF). Qed.

Lemma respects_get_dir d : respects R (get_dir d).
Proof. intros s r s' [_ ->]%get_dir_inv. apply (frame_refl R HF). Qed.

Lemma respects_g_log w lvl msg : respects R (g_log w lvl msg).
Proof.
  intros s [] s' H. unfold g_log in H.
  destruct lvl; [done|..]; destruct (log_fatal w _); try done;
    injection H as <-; apply (frame_log R HF).
Qed.

Lemma respects_update_file a b : respects R (update_file a (with_inactive b)).
Proof.
  intros s [] s' (r & Hr & ->)%update_file_inv.
  exact (frame_inactive R HF _ _ _ _ Hr).
Qed.

(** A store to a resolved field of a template. *)
Lemma respects_update_templ t f :
  (∀ r, ref_count (f r) = ref_count r ∧ files (f r) = files r ∧
        mime_type (f r) = mime_type r) →
  respects R (update_templ t f).
Proof.
  intros Hf s [] s' (r & Hr & ->)%update_templ_inv.
  destruct (Hf r) as (? & ? & ?). by apply (frame_templ_fields R HF _ _ r).
Qed.

#[local] Hint Resolve respects_get respects_raise respects_get_templ
  respects_get_file respects_get_dir respects_g_log respects_update_file : rs.
#[local] Hint Extern 1 (respects _ (mret _)) => apply respects_ret : rs.
#[local] Hint Extern 1 (respects _ (update_templ _ _)) =>
  apply respects_update_templ; done : rs.
#[local] Hint Extern 1 (respects _ (g_error _ _)) => apply respects_g_log : rs.
#[local] Hint Extern 1 (respects _ (g_critical _ _)) => apply respects_g_log : rs.
#[local] Hint Extern 1 (respects _ (g_warning _ _)) => apply respects_g_log : rs.
#[local] Hint Extern 1 (respects _ (g_debug _ _)) => apply respects_g_log : rs.

(** Splits a handler at its binds and branches. *)
Ltac rs_step :=
  match goal with
  | |- respects _ (_ ≫= _) => apply respects_bind; [|intros ?]
  | |- respects _ (match ?x with _ => _ end) => destruct x
  | |- respects _ (if ?x then _ else _) => destruct x
  | |- respects _ _ => solve [auto with rs]
  end.

Lemma respects_find_by_mime_type l mime : respects R (find_by_mime_type l mime).
Proof. induction l; simpl; repeat rs_step. Qed.

Lemma respects_update_from_entry w templ file :
  respects R (update_from_entry w templ file).
Proof. unfold update_from_entry. repeat rs_step. Qed.

Lemma respects_update_from_file w templ chain :
  respects R (_fm_template_update_from_file w templ chain).
Proof.
  induction chain; simpl; repeat rs_step. apply respects_update_from_entry.
Qed.

Lemma respects_update w templ : respects R (_fm_template_update w templ).
Proof.
  unfold _fm_template_update. repeat rs_step. apply respects_update_from_file.
Qed.

Lemma respects_insert_sorted_loop file f last_dir next :
  respects R (insert_sorted_loop file f last_dir next).
Proof.
  revert last_dir. induction next as [|n rest IH]; intros last_dir; simpl;
    [auto with rs|].
  destruct last_dir; [auto with rs|]. apply respects_bind; [auto with rs|intros nx].
  destruct (skip_dirs _ _ _); repeat rs_step; apply IH.
Qed.

Lemma respects_find_in_dir_by_path l p : respects R (find_in_dir_by_path l p).
Proof. induction l; simpl; repeat rs_step. Qed.

Lemma respects_find_in_dir_by_basename l b :
  respects R (find_in_dir_by_basename l b).
Proof. induction l; simpl; repeat rs_step. Qed.

Lemma respects_store_prev_in_dir p : respects R (store_prev_in_dir p).
Proof. unfold store_prev_in_dir. repeat rs_step. Qed.

#[local] Hint Resolve respects_find_by_mime_type respects_update
  respects_insert_sorted_loop respects_find_in_dir_by_path
  respects_find_in_dir_by_basename respects_store_prev_in_dir : rs.

(** The handlers that change the links of templates. *)
Hypothesis HT : templ_frame R.

Lemma respects_alloc : respects R alloc.
Proof. intros s a s' [= _ <-]. apply (frame_alloc R HT). Qed.

Lemma respects_templates f :
  respects R (modify (λ s, with_templates (f s) s)).
Proof. intros s [] s' [= <-]. apply (frame_templates R HT). Qed.

(** A store to the chain or to the MIME type of a template. *)
Lemma respects_update_templ_links t f :
  (∀ r, ref_count (f r) = ref_count r) → respects R (update_templ t f).
Proof.
  intros Hf s [] s' (r & Hr & ->)%update_templ_inv.
  exact (frame_templ_links R HT _ _ _ _ Hr (Hf r)).
Qed.

Lemma respects_g_object_ref t : respects R (g_object_ref t).
Proof.
  intros s [] s' (r & Hr & ->)%update_templ_inv.
  apply (frame_templ_ref R HT); [done|lia].
Qed.

Lemma respects_fm_template_new : respects R fm_template_new.
Proof.
  unfold fm_template_new. apply respects_bind; [apply respects_alloc|intros t].
  apply respects_bind; [|intros ?; apply respects_ret].
  intros s [] s' [= <-]. by apply (frame_templ_new R HT).
Qed.

#[local] Hint Resolve respects_alloc respects_templates respects_g_object_ref
  respects_fm_template_new : rs.
#[local] Hint Extern 2 (respects _ (update_templ _ _)) =>
  apply respects_update_templ_links; done : rs.

Lemma respects_fm_template_finalize w held t :
  respects R (fm_template_finalize w held t).
Proof.
  unfold fm_template_finalize, G_LOCK_templates. repeat rs_step.
  intros s [] s' [= <-]. apply (frame_templ_delete R HT).
Qed.

Lemma respects_g_object_unref w held t : respects R (g_object_unref w held t).
Proof.
  unfold g_object_unref. apply respects_bind; [auto with rs|intros r].
  destruct (decide (ref_count r ≤ 1)); [apply respects_fm_template_finalize|].
  intros s [] s' (r0 & Hr0 & ->)%update_templ_inv.
  apply (frame_templ_ref R HT); [done|lia].
Qed.

Lemma respects_guess_mime_type w p is_de :
  respects R (_fm_template_guess_mime_type w p is_de).
Proof. intros s m s' [-> _]%guess_mime_type_inv. apply (frame_refl R HF). Qed.

#[local] Hint Resolve respects_fm_template_finalize respects_g_object_unref
  respects_guess_mime_type : rs.

Lemma respects_find_for_file w p is_de :
  respects R (_fm_template_find_for_file w p is_de).
Proof. unfold _fm_template_find_for_file. repeat rs_step. Qed.

Lemma respects_insert_sorted w templ file :
  respects R (_fm_template_insert_sorted w templ file).
Proof. unfold _fm_template_insert_sorted. repeat rs_step. Qed.

Lemma respects_list_all_loop user_only l result :
  respects R (list_all_loop user_only l result).
Proof. revert result. induction l; intros result; simpl; repeat rs_step. Qed.

Lemma respects_list_all user_only : respects R (fm_template_list_all user_only).
Proof.
  unfold fm_template_list_all. repeat rs_step. apply respects_list_all_loop.
Qed.

#[local] Hint Resolve respects_find_for_file respects_insert_sorted : rs.

(** The handlers that change the entries. *)
Hypothesis HL : entry_frame R.

Lemma respects_file_heap f :
  respects R (modify (λ s, with_file_heap (f s) s)).
Proof. intros s [] s' [= <-]. apply (frame_file_heap R HL). Qed.

Lemma respects_update_dir_files d l :
  respects R (update_dir d (with_dir_files l)).
Proof.
  intros s [] s' (r & Hr & ->)%update_dir_inv.
  exact (frame_dir_files R HL _ _ _ _ Hr).
Qed.

#[local] Hint Resolve respects_file_heap respects_update_dir_files : rs.

Lemma respects_file_free w held templ file do_update :
  respects R (_fm_template_file_free w held templ file do_update).
Proof. unfold _fm_template_file_free. repeat rs_step. Qed.

Lemma respects_new_template_file w templ p is_de d :
  respects R (new_template_file w templ p is_de d).
Proof. unfold new_template_file. repeat rs_step. Qed.

#[local] Hint Resolve respects_file_free respects_new_template_file : rs.

Lemma respects_on_job_finished_file w d fi :
  respects R (on_job_finished_file w d fi).
Proof. unfold on_job_finished_file. repeat rs_step. Qed.

Lemma respects_on_job_finished w file_infos d :
  respects R (on_job_finished w file_infos d).
Proof.
  induction file_infos; simpl; repeat rs_step.
  apply respects_on_job_finished_file.
Qed.

Lemma respects_on_dir_changed w gf evt d : respects R (on_dir_changed w gf evt d).
Proof. unfold on_dir_changed. repeat rs_step. Qed.

Lemma respects_step w ev : respects R (step w ev).
Proof.
  destruct ev; simpl; repeat rs_step.
  - apply respects_on_job_finished.
  - apply respects_on_dir_changed.
  - apply respects_list_all.
Qed.

Lemma respects_run evs : respects R (run evs).
Proof.
  induction evs as [|[w ev] rest IH]; simpl; repeat rs_step.
  apply respects_step.
Qed.

Lemma respects_free_dir_files w l : respects R (free_dir_files w l).
Proof. induction l; simpl; repeat rs_step. Qed.

End frame.

(** The list of directories and what is fixed of a directory. *)
Lemma dirs_fixed_same s s' :
  templates_dirs s' = templates_dirs s → dir_heap s' = dir_heap s →
  dirs_fixed s s'.
Proof.
  intros Hd Hh. split; [done|]. intros d. rewrite Hh.
  destruct (dir_heap s !! d); by constructor.
Qed.

Lemma dirs_fixed_trans s1 s2 s3 :
  dirs_fixed s1 s2 → dirs_fixed s2 s3 → dirs_fixed s1 s3.
Proof.
  intros [Hd1 Hh1] [Hd2 Hh2]. split; [congruence|].
  intros d. specialize (Hh1 d). specialize (Hh2 d).
  destruct Hh1 as [r1 r2 (? & ? & ?)|]; inversion Hh2 as [? r3 (? & ? & ?)|];
    constructor. split_and!; congruence.
Qed.

Lemma dirs_fixed_fields : field_frame dirs_fixed.
Proof.
  split; try (intros; by apply dirs_fixed_same). apply dirs_fixed_trans.
Qed.

Lemma dirs_fixed_templ : templ_frame dirs_fixed.
Proof. split; intros; by apply dirs_fixed_same. Qed.

Lemma dirs_fixed_entries : entry_frame dirs_fixed.
Proof.
  split; try (intros; by apply dirs_fixed_same).
  intros s d r l Hr. split; [done|]. intros d'. simpl.
  destruct (decide (d = d')) as [<-|Hne].
  - rewrite lookup_insert_eq, Hr. by constructor.
  - rewrite lookup_insert_ne by done. destruct (dir_heap s !! d'); by constructor.
Qed.

(** X5.  No listing, no event of a monitor, no caller taking the list or
    dropping a reference changes the list of directories, or the path, the
    monitor or the user mark of a directory: the order of priority is fixed
    at set-up.  Only the list of entries of a directory changes. *)
Theorem events_keep_directories evs s s' :
  run evs s = Ok (tt, s') → dirs_fixed s s'.
Proof.
  apply (respects_run dirs_fixed dirs_fixed_fields dirs_fixed_templ
           dirs_fixed_entries).
Qed.

Lemma events_keep_directories_witness :
  dirs_fixed (final_state (_fm_templates_init w_ex empty_state)) s_eight_entries.
Proof.
  apply (events_keep_directories evs_eight_entries). vm_compute. reflexivity.
Defined.

Lemma refs_pos_insert s t r :
  1 ≤ ref_count r → refs_pos s →
  refs_pos (with_template_heap (<[t := r]> (template_heap s)) s).
Proof.
  intros Hr Hpos t0 r0. simpl. destruct (decide (t = t0)) as [<-|Hne].
  - rewrite lookup_insert_eq. by intros [= <-].
  - rewrite lookup_insert_ne by done. apply Hpos.
Qed.

Lemma refs_pos_fields : field_frame (λ s s', refs_pos s → refs_pos s').
Proof.
  split; try (intros; done); try (intros; tauto).
  intros s t r r' Hr Href _ _ Hpos. apply refs_pos_insert; [|done].
  rewrite Href. by eapply Hpos.
Qed.

Lemma refs_pos_entries : entry_frame (λ s s', refs_pos s → refs_pos s').
Proof. by split. Qed.

Lemma refs_pos_templ : templ_frame (λ s s', refs_pos s → refs_pos s').
Proof.
  split; try (intros; done).
  - intros s t r r' Hr Href Hpos. apply refs_pos_insert; [|done].
    rewrite Href. by eapply Hpos.
  - intros s t r n Hr Hn Hpos. by apply refs_pos_insert.
  - intros s t r Href Hpos. apply refs_pos_insert; [lia|done].
  - intros s t Hpos t0 r0. simpl. intros [_ H]%lookup_delete_Some. by eapply Hpos.
Qed.

(** Set-up leaves no template and no entry. *)
Lemma init_dirs_inv w s :
  _fm_templates_init w empty_state = Ok (tt, s) → dirs_inv s.
Proof.
  intros H. unfold _fm_templates_init in H.
  apply bind_inv in H as (s0 & s1 & [= <- <-] & H). simpl in H.
  apply bind_inv in H as ([] & s1 & Hsys & H).
  assert (dirs_inv empty_state) as Hinv0.
  { repeat split; simpl; try done; try constructor.
    - intros d Hd. by apply elem_of_nil in Hd.
    - rewrite lookup_empty. by intros [? ?].
    - intros Hd. by apply elem_of_nil in Hd. }
  pose proof (init_system_dirs_inv _ _ _ _ _ Hinv0 Hsys) as Hinv1.
  apply bind_inv in H as (d & s2 & Hnew & H).
  apply bind_inv in H as ([] & s3 & Hmod & H).
  apply bind_inv in H as ([] & s4 & Hinit & H).
  assert (dirs_inv s4) as Hinv4.
  { eapply (add_dir_dirs_inv w _ (Some true) _ (λ d l, d :: l) s1); [by left|done|].
    rewrite (bind_Ok _ _ _ _ _ Hnew), (bind_Ok _ _ _ _ _ Hmod). exact Hinit. }
  eapply (add_dir_dirs_inv w _ (Some true) _ (λ d l, d :: l) s4); [by left|done|].
  exact H.
Qed.

(** After set-up there is no template. *)
Lemma refs_pos_init w s :
  _fm_templates_init w empty_state = Ok (tt, s) → refs_pos s.
Proof.
  intros (_ & Hheap & _)%init_dirs_inv t r. by rewrite Hheap, lookup_empty.
Qed.

(** X6.  In every state that can be observed, every allocated template
    holds at least one reference: [g_object_unref] frees the template with
    its last reference, and nothing else lowers the count. *)
Theorem reachable_refs_pos s : reachable s → refs_pos s.
Proof.
  intros (w0 & evs & H). apply bind_inv in H as ([] & s0 & Hinit & Hrun).
  refine (respects_run _ refs_pos_fields refs_pos_templ refs_pos_entries
            evs _ _ _ Hrun _).
  by eapply refs_pos_init.
Qed.

Lemma reachable_refs_pos_witness : refs_pos s_eight_entries.
Proof.
  apply reachable_refs_pos. exists w_ex, evs_eight_entries.
  vm_compute. reflexivity.
Defined.

(** Resolving fields changes no reference count. *)
Lemma fields_changed_fields : field_frame fields_changed.
Proof.
  assert (∀ s s', fields_only s s' → template_heap s' = template_heap s →
                  fields_changed s s') as Hsame.
  { intros s s' Hfo Hth. split; [done|]. intros t. rewrite Hth.
    destruct (template_heap s !! t); by constructor. }
  split.
  - intros s. apply Hsame; [apply fields_only_refl|done].
  - intros s1 s2 s3 [Hfo1 Hrc1] [Hfo2 Hrc2].
    split; [by eapply fields_only_trans|]. intros t.
    specialize (Hrc1 t). specialize (Hrc2 t).
    destruct Hrc1; inversion Hrc2; constructor. congruence.
  - intros s e. apply Hsame; [apply fields_only_log|done].
  - intros s a r b Hr. apply Hsame; [|done].
    exact (pf_update_file a b s tt _ (update_file_Ok _ _ _ _ Hr)).
  - intros s t r r' Hr Href Hfiles Hmime. split.
    + split_and!; simpl; try done.
      * intros t'. destruct (decide (t = t')) as [<-|Hne].
        -- rewrite lookup_insert_eq, Hr. by constructor.
        -- rewrite lookup_insert_ne by done.
           destruct (template_heap s !! t'); by constructor.
      * intros a. destruct (file_heap s !! a); by constructor.
    + intros t'. simpl. destruct (decide (t = t')) as [<-|Hne].
      * rewrite lookup_insert_eq, Hr. by constructor.
      * rewrite lookup_insert_ne by done.
        destruct (template_heap s !! t'); by constructor.
Qed.

(** ** Tear-down *)

Lemma free_dirs_spec w l s s' :
  free_dirs w l s = Ok (tt, s') →
  templates_dirs s' = match l with [] => templates_dirs s | _ => [] end ∧
  ∀ d, is_Some (dir_heap s' !! d) → is_Some (dir_heap s !! d) ∧ d ∉ l.
Proof.
  revert s. induction l as [|d next IH]; intros s H; simpl in H.
  - apply ret_inv in H as [_ <-]. split; [done|]. intros d Hd. split; [done|].
    apply not_elem_of_nil.
  - apply bind_inv in H as ([] & s1 & [= <-] & H).
    apply bind_inv in H as (dr & s2 & [Hdr ->]%get_dir_inv & H).
    apply bind_inv in H as ([] & s2 & Hfiles & H).
    apply bind_inv in H as ([] & s3 & [= <-] & H).
    apply (respects_free_dir_files _ dirs_fixed_fields dirs_fixed_templ
             dirs_fixed_entries) in Hfiles as [Hdirs Hheap].
    apply IH in H as [Hnil Hleft]. simpl in *. split.
    { rewrite Hnil, Hdirs. by destruct next. }
    intros x [Hx Hne]%Hleft.
    apply lookup_delete_is_Some in Hx as [Hxd Hx]. split.
    + specialize (Hheap x). destruct Hx as [rx Hrx]. rewrite Hrx in Hheap.
      inversion Hheap. eauto.
    + by intros [->|?]%elem_of_cons.
Qed.

(** X7.  [_fm_templates_finalize], whenever it returns, leaves no
    directory: the list of directories is empty and every directory is
    freed.  [_fm_templates_init] can set up the registry anew then. *)
Theorem finalize_frees_directories w s s' :
  reachable s → _fm_templates_finalize w s = Ok (tt, s') →
  templates_dirs s' = [] ∧ dir_heap s' = ∅.
Proof.
  intros Hs%reachable_inv H. unfold _fm_templates_finalize in H.
  apply bind_inv in H as (s0 & s1 & [= <- <-] & H).
  apply free_dirs_spec in H as [Hnil Hleft]. split.
  - rewrite Hnil. by destruct (templates_dirs s).
  - apply map_empty. intros d. apply eq_None_not_Some.
    intros [Hd Hnot]%Hleft. by apply (inv_dirs_listed _ Hs) in Hd.
Qed.

Lemma finalize_frees_directories_witness :
  ∃ s', _fm_templates_finalize w_ex s_eight_entries = Ok (tt, s') ∧
        templates_dirs s' = [] ∧ dir_heap s' = ∅.
Proof.
  eexists. split; [vm_compute; reflexivity|].
  eapply (finalize_frees_directories w_ex s_eight_entries).
  - exists w_ex, evs_eight_entries. vm_compute. reflexivity.
  - vm_compute. reflexivity.
Defined.

(** ** The fold of the chain *)

Lemma entry_effect_fields_only w s s' a t :
  fields_only s s' → entry_effect w s' a t = entry_effect w s a t.
Proof.
  intros (_ & _ & Hdh & _ & _ & Hfh). unfold entry_effect. rewrite Hdh.
  specialize (Hfh a). destruct Hfh as [f f' (Hd & _ & Hp & Hde)|]; [|done].
  by rewrite Hd, Hp, Hde.
Qed.

Lemma foldr_entry_effect_fields_only w s s' t chain :
  fields_only s s' →
  foldr (entry_effect w s') t chain = foldr (entry_effect w s) t chain.
Proof.
  intros Hfo. induction chain as [|a rest IH]; simpl; [done|].
  by rewrite IH, (entry_effect_fields_only _ _ _ _ _ Hfo).
Qed.

Lemma insert_as_alter {A} (m : gmap addr A) i x (g : A → A) :
  m !! i = Some x → <[i := g x]> m = alter g i m.
Proof.
  intros Hx. apply map_eq. intros j. destruct (decide (i = j)) as [<-|Hne].
  - by rewrite lookup_insert_eq, lookup_alter_eq, Hx.
  - by rewrite lookup_insert_ne, lookup_alter_ne.
Qed.

Lemma entry_loads_fields_only w s s' a :
  fields_only s s' → entry_loads w s' a = entry_loads w s a.
Proof.
  intros (_ & _ & _ & _ & _ & Hfh). unfold entry_loads.
  specialize (Hfh a). destruct Hfh as [f f' (_ & _ & Hp & Hde)|]; [|done].
  by rewrite Hp, Hde.
Qed.

(** One readable entry of a readable template: the fold step returns with
    the effect and the mark of the entry, unless the entry is a desktop
    entry that does not load. *)
Lemma update_from_entry_exact w templ a s f dr t :
  file_heap s !! a = Some f → dir_heap s !! dir f = Some dr →
  template_heap s !! templ = Some t →
  update_from_entry w templ a s =
  if entry_loads w s a then
    Ok (tt, with_file_heap (<[a := entry_mark w f]> (file_heap s))
              (with_template_heap
                 (<[templ := entry_effect w s a t]> (template_heap s)) s))
  else Fault Uninit.
Proof.
  intros Hf Hd Ht. unfold entry_loads, entry_effect, entry_mark.
  rewrite Hf, Hd. simpl. destruct (is_desktop_entry f) eqn:Hde.
  - destruct (key_file_load w (fm_path_to_str (path f))) as [kf|] eqn:Hkf.
    + destruct (kf_Hidden kf) eqn:Hh.
      * rewrite (update_from_entry_hidden _ _ _ _ _ _ Hf Hde Hkf Hh).
        by rewrite with_template_heap_id.
      * by rewrite (update_from_entry_desktop _ _ _ _ _ _ _ _ Hf Hde Hkf Hh Ht Hd).
    + unfold update_from_entry.
      by rewrite (bind_Ok _ _ _ _ _ (get_file_Ok _ _ _ Hf)), Hde, Hkf.
  - rewrite (update_from_entry_plain _ _ _ _ _ _ Hf Hde Ht).
    by rewrite (insert_id (file_heap s)) by done.
Qed.

Lemma update_from_file_exact w templ chain s t :
  template_heap s !! templ = Some t → entries_live s chain →
  _fm_template_update_from_file w templ chain s =
  if chain_loads w s chain then
    Ok (tt, with_file_heap (foldr (alter (entry_mark w)) (file_heap s) chain)
              (with_template_heap
                 (<[templ := foldr (entry_effect w s) t chain]> (template_heap s)) s))
  else Fault Uninit.
Proof.
  intros Ht. induction chain as [|a rest IH]; intros Hlive; simpl.
  - rewrite insert_id by done. by destruct s.
  - assert (entries_live s rest) as Hrest.
    { intros x Hx. apply Hlive. by right. }
    specialize (IH Hrest). unfold chain_loads in IH. fold (chain_loads w s rest) in IH.
    destruct (chain_loads w s rest) eqn:Hloads.
    2: { rewrite andb_false_r. unfold mbind, M_bind. by rewrite IH. }
    rewrite andb_true_r, (bind_Ok _ _ _ _ _ IH).
    set (s1 := with_file_heap _ _).
    assert (fields_only s s1) as Hfo by exact (pf_update_from_file _ _ _ _ _ _ IH).
    destruct (Hlive a) as (f & dr & Hf & Hd); [left|].
    destruct (fields_only_file_fwd _ _ _ _ Hfo Hf) as (f1 & Hf1 & Hsame).
    assert (dir_heap s1 !! dir f1 = Some dr) as Hd1.
    { destruct Hsame as (<- & _). exact Hd. }
    rewrite (update_from_entry_exact w templ a s1 f1 dr
               (foldr (entry_effect w s) t rest) Hf1 Hd1 (lookup_insert_eq _ _ _)).
    rewrite (entry_loads_fields_only _ _ _ _ Hfo).
    destruct (entry_loads w s a); [|done].
    rewrite (entry_effect_fields_only _ _ _ _ _ Hfo).
    rewrite (insert_as_alter _ _ _ (entry_mark w) Hf1).
    subst s1. simpl. by rewrite insert_insert_eq.
Qed.

(** [_fm_template_update] on a template whose chain can be read: the fold,
    unless a desktop entry of the chain does not load. *)
Lemma update_exact w s t r :
  template_heap s !! t = Some r → entries_live s (files r) →
  _fm_template_update w t s =
  if chain_loads w s (files r) then
    Ok (tt, with_file_heap (foldr (alter (entry_mark w)) (file_heap s) (files r))
              (with_template_heap
                 (<[t := foldr (entry_effect w s) (cleared r) (files r)]>
                    (template_heap s)) s))
  else Fault Uninit.
Proof.
  intros Hr Hlive. rewrite (update_unfold _ _ _ _ Hr).
  set (s0 := with_template_heap (<[t := cleared r]> (template_heap s)) s).
  rewrite (update_from_file_exact w t (files r) s0 (cleared r)
             (lookup_insert_eq _ _ _) Hlive).
  subst s0. simpl. by rewrite insert_insert_eq.
Qed.

Lemma update_effect w s t r :
  template_heap s !! t = Some r → entries_live s (files r) →
  (∃ s', _fm_template_update w t s = Ok (tt, s') ∧
     fields_only s s' ∧
     template_heap s' =
       <[t := foldr (entry_effect w s) (cleared r) (files r)]> (template_heap s) ∧
     file_heap s' = foldr (alter (entry_mark w)) (file_heap s) (files r)) ∨
  _fm_template_update w t s = Fault Uninit.
Proof.
  intros Hr Hlive. pose proof (update_exact w s t r Hr Hlive) as H.
  destruct (chain_loads w s (files r)); [left|by right].
  eexists. split; [exact H|]. split; [|done].
  exact (pf_update _ _ _ _ _ H).
Qed.

Lemma reachable_entries_live s t r :
  registry_inv s → template_heap s !! t = Some r → entries_live s (files r).
Proof.
  intros Hinv Hr a Ha.
  destruct (inv_chain_entries _ Hinv _ _ Hr a Ha) as (f & Hf & _ & Hd).
  destruct (inv_dirs_live _ Hinv _ Hd) as [dr Hdr]. eauto.
Qed.

(** In a state that can be observed the fold runs to its end, unless an
    entry does not load. *)
Lemma update_effect_reachable w s t r :
  registry_inv s → template_heap s !! t = Some r →
  (∃ s', _fm_template_update w t s = Ok (tt, s') ∧
     template_heap s' =
       <[t := foldr (entry_effect w s) (cleared r) (files r)]> (template_heap s) ∧
     file_heap s' = foldr (alter (entry_mark w)) (file_heap s) (files r) ∧
     templates s' = templates s ∧ templates_dirs s' = templates_dirs s ∧
     dir_heap s' = dir_heap s ∧ next_free s' = next_free s) ∨
  _fm_template_update w t s = Fault Uninit.
Proof.
  intros Hs Hr.
  destruct (update_effect w s t r Hr (reachable_entries_live _ _ _ Hs Hr))
    as [(s' & H & (? & ? & ? & ? & _) & Hth & Hfh)|?]; [left|by right].
  exists s'. by split_and!.
Qed.

(** X8.  In a state that can be observed, [_fm_template_update] on an
    allocated template returns if and only if every desktop entry of the
    chain loads.  Then it has changed two things and nothing else, the log
    included: the template is the fold of [entry_effect] over its chain,
    from the tail to the head, starting from the template with the target
    file, the icon, the command and the prompt cleared; and every desktop
    entry of the chain is marked inactive if and only if it is hidden.
    Where an entry does not load, the message of the warning is read
    through the pointer [error], which was never assigned (line 345). *)
Theorem update_is_fold w s t r :
  reachable s → template_heap s !! t = Some r →
  _fm_template_update w t s =
  if chain_loads w s (files r) then
    Ok (tt, with_file_heap (foldr (alter (entry_mark w)) (file_heap s) (files r))
              (with_template_heap
                 (<[t := foldr (entry_effect w s) (cleared r) (files r)]>
                    (template_heap s)) s))
  else Fault Uninit.
Proof.
  intros Hs%reachable_inv Hr. apply update_exact; [done|].
  by eapply reachable_entries_live.
Qed.

Lemma update_is_fold_witness :
  ∃ s', _fm_template_update w_ex 3 s_eight_entries = Ok (tt, s') ∧
        label <$> template_heap s' !! 3 = Some (Some "New Text Document").
Proof.
  pose proof (update_is_fold w_ex s_eight_entries 3
    {| ref_count := 8; files := [9; 7; 11; 6; 10; 8; 5; 4];
       mime_type := "text/plain";
       template_file := Some "/home/u/Templates/skel/letter.txt"; icon := None;
       command := None; prompt := None; label := Some "New Text Document" |}) as H.
  eexists. split.
  - apply H.
    + exists w_ex, evs_eight_entries. vm_compute. reflexivity.
    + vm_compute. reflexivity.
  - vm_compute. reflexivity.
Defined.

(** ** The entry that wins a field *)

Lemma apply_key_file_fields kf dp t :
  ref_count (apply_key_file kf dp t) = ref_count t ∧
  files (apply_key_file kf dp t) = files t ∧
  mime_type (apply_key_file kf dp t) = mime_type t ∧
  icon (apply_key_file kf dp t) =
    match kf_Icon kf with Some v => Some v | None => icon t end ∧
  command (apply_key_file kf dp t) =
    match kf_Exec kf with Some v => Some v | None => command t end ∧
  prompt (apply_key_file kf dp t) =
    match kf_Comment kf with Some v => Some v | None => prompt t end ∧
  label (apply_key_file kf dp t) =
    match kf_Name kf with Some v => Some v | None => label t end ∧
  template_file (apply_key_file kf dp t) =
    match kf_URL kf with
    | Some url => Some (if is_absolute url then fm_path_new_for_str url
                        else fm_path_new_relative dp url)
    | None => template_file t
    end.
Proof.
  unfold apply_key_file.
  by destruct (kf_URL kf), (kf_Icon kf), (kf_Exec kf), (kf_Name kf), (kf_Comment kf).
Qed.

(** What one entry does to each field of the template. *)
Lemma entry_effect_fields w s a t :
  ref_count (entry_effect w s a t) = ref_count t ∧
  files (entry_effect w s a t) = files t ∧
  mime_type (entry_effect w s a t) = mime_type t ∧
  icon (entry_effect w s a t) =
    match contributes w s a ≫= kf_Icon with Some v => Some v | None => icon t end ∧
  command (entry_effect w s a t) =
    match contributes w s a ≫= kf_Exec with Some v => Some v | None => command t end ∧
  prompt (entry_effect w s a t) =
    match contributes w s a ≫= kf_Comment with Some v => Some v | None => prompt t end ∧
  label (entry_effect w s a t) =
    match contributes w s a ≫= kf_Name with Some v => Some v | None => label t end.
Proof.
  unfold entry_effect, contributes.
  destruct (file_heap s !! a) as [f|]; [|done].
  destruct (is_desktop_entry f).
  - destruct (key_file_load w (fm_path_to_str (path f))) as [kf|]; [|done].
    destruct (kf_Hidden kf); [done|]. simpl.
    destruct (apply_key_file_fields kf
                (from_option dir_path "" (dir_heap s !! dir f)) t)
      as (-> & -> & -> & -> & -> & -> & -> & _). done.
  - by destruct (template_file t).
Qed.

Lemma foldr_entry_effect_fields w s t0 chain :
  let t := foldr (entry_effect w s) t0 chain in
  ref_count t = ref_count t0 ∧ files t = files t0 ∧ mime_type t = mime_type t0 ∧
  icon t = match first_key w s kf_Icon chain with
           | Some v => Some v | None => icon t0 end ∧
  command t = match first_key w s kf_Exec chain with
              | Some v => Some v | None => command t0 end ∧
  prompt t = match first_key w s kf_Comment chain with
             | Some v => Some v | None => prompt t0 end ∧
  label t = match first_key w s kf_Name chain with
            | Some v => Some v | None => label t0 end.
Proof.
  induction chain as [|a rest IH]; simpl; [done|].
  destruct IH as (IH1 & IH2 & IH3 & IH4 & IH5 & IH6 & IH7).
  destruct (entry_effect_fields w s a (foldr (entry_effect w s) t0 rest))
    as (-> & -> & -> & -> & -> & -> & ->).
  rewrite IH1, IH2, IH3, IH4, IH5, IH6, IH7.
  by destruct (contributes w s a ≫= kf_Icon), (contributes w s a ≫= kf_Exec),
    (contributes w s a ≫= kf_Comment), (contributes w s a ≫= kf_Name).
Qed.

Lemma entry_effect_template_file w s a t :
  template_file (entry_effect w s a t) =
  match contributes w s a ≫= kf_URL, file_heap s !! a with
  | Some url, Some f =>
      Some (if is_absolute url then fm_path_new_for_str url
            else fm_path_new_relative
                   (from_option dir_path "" (dir_heap s !! dir f)) url)
  | _, _ =>
      match template_file t with
      | Some p => Some p
      | None =>
          match file_heap s !! a with
          | Some f => if is_desktop_entry f then None else Some (path f)
          | None => None
          end
      end
  end.
Proof.
  unfold entry_effect, contributes.
  destruct (file_heap s !! a) as [f|]; simpl; [|by destruct (template_file t)].
  destruct (is_desktop_entry f); simpl.
  - destruct (key_file_load w (fm_path_to_str (path f))) as [kf|]; simpl;
      [|by destruct (template_file t)].
    destruct (kf_Hidden kf); simpl; [by destruct (template_file t)|].
    destruct (apply_key_file_fields kf
                (from_option dir_path "" (dir_heap s !! dir f)) t)
      as (_ & _ & _ & _ & _ & _ & _ & ->).
    destruct (kf_URL kf); [done|by destruct (template_file t)].
  - by destruct (template_file t) eqn:E.
Qed.

Lemma foldr_entry_effect_template_file w s t0 chain :
  template_file (foldr (entry_effect w s) t0 chain) =
  match first_url w s chain with
  | Some p => Some p
  | None => match template_file t0 with
            | Some p => Some p
            | None => last_plain s chain
            end
  end.
Proof.
  induction chain as [|a rest IH]; simpl; [by destruct (template_file t0)|].
  rewrite entry_effect_template_file, IH.
  destruct (contributes w s a ≫= kf_URL), (file_heap s !! a) as [f|],
    (first_url w s rest), (template_file t0), (last_plain s rest); try done.
Qed.

(** X9.  After [_fm_template_update] in a state that can be observed, the
    icon, the command and the prompt of the template are the [Icon], [Exec]
    and [Comment] keys of the first entry of the chain, from the head, that
    contributes - a desktop entry that loads and is not hidden - and has
    the key; they are unset if no entry has it.  The label is the [Name]
    key found in the same way; if no entry has one the label is what it
    was before, since it is not cleared.  Chain, MIME type and reference
    count are as before. *)
Theorem update_first_key_wins w s t r u s' :
  reachable s → template_heap s !! t = Some r →
  _fm_template_update w t s = Ok (u, s') →
  ∃ r', template_heap s' !! t = Some r' ∧
    icon r' = first_key w s kf_Icon (files r) ∧
    command r' = first_key w s kf_Exec (files r) ∧
    prompt r' = first_key w s kf_Comment (files r) ∧
    label r' = match first_key w s kf_Name (files r) with
               | Some v => Some v
               | None => label r
               end ∧
    files r' = files r ∧ mime_type r' = mime_type r ∧
    ref_count r' = ref_count r.
Proof.
  intros Hs%reachable_inv Hr H.
  destruct (update_effect_reachable w s t r Hs Hr)
    as [(s1 & H1 & Hth & _)|H1]; [|congruence].
  assert (s1 = s') as -> by congruence.
  eexists. split; [rewrite Hth; apply lookup_insert_eq|].
  destruct (foldr_entry_effect_fields w s (cleared r) (files r))
    as (-> & -> & -> & -> & -> & -> & ->). simpl.
  split_and!; try done.
  - by destruct (first_key w s kf_Icon (files r)).
  - by destruct (first_key w s kf_Exec (files r)).
  - by destruct (first_key w s kf_Comment (files r)).
Qed.

Lemma update_first_key_wins_witness :
  ∃ r', template_heap (final_state (_fm_template_update w_ex 3 s_two_entries))
          !! 3 = Some r' ∧
        label r' = Some "New Text Document" ∧ icon r' = None.
Proof.
  destruct (update_first_key_wins w_ex s_two_entries 3
    {| ref_count := 2; files := [5; 4]; mime_type := "text/plain";
       template_file := Some "/usr/share/templates/a.txt"; icon := None;
       command := None; prompt := None; label := Some "New Text Document" |}
    tt (final_state (_fm_template_update w_ex 3 s_two_entries)))
    as (r' & Hr' & Hicon & _ & _ & Hlabel & _).
  - exists w_ex, evs_two_entries. vm_compute. reflexivity.
  - vm_compute. reflexivity.
  - vm_compute. reflexivity.
  - exists r'. split; [exact Hr'|]. rewrite Hlabel, Hicon.
    split; vm_compute; reflexivity.
Defined.

(** X10.  After [_fm_template_update] in a state that can be observed, the
    target file of the template is the target that the [URL] key of the
    first contributing entry with that key names, from the head of the
    chain, wherever that entry stands among the plain files.  If no
    contributing entry has a [URL] key, it is the path of the last plain
    file of the chain, the one of the lowest priority; and it is unset if
    there is no plain file either. *)
Theorem update_target_file w s t r u s' :
  reachable s → template_heap s !! t = Some r →
  _fm_template_update w t s = Ok (u, s') →
  ∃ r', template_heap s' !! t = Some r' ∧
    template_file r' = match first_url w s (files r) with
                       | Some p => Some p
                       | None => last_plain s (files r)
                       end.
Proof.
  intros Hs%reachable_inv Hr H.
  destruct (update_effect_reachable w s t r Hs Hr)
    as [(s1 & H1 & Hth & _)|H1]; [|congruence].
  assert (s1 = s') as -> by congruence.
  eexists. split; [rewrite Hth; apply lookup_insert_eq|].
  by rewrite foldr_entry_effect_template_file.
Qed.

Lemma update_target_file_witness :
  ∃ r', template_heap (final_state (_fm_template_update w_ex 3 s_eight_entries))
          !! 3 = Some r' ∧
        template_file r' = Some "/home/u/Templates/skel/letter.txt".
Proof.
  destruct (update_target_file w_ex s_eight_entries 3
    {| ref_count := 8; files := [9; 7; 11; 6; 10; 8; 5; 4];
       mime_type := "text/plain";
       template_file := Some "/home/u/Templates/skel/letter.txt"; icon := None;
       command := None; prompt := None; label := Some "New Text Document" |}
    tt (final_state (_fm_template_update w_ex 3 s_eight_entries)))
    as (r' & Hr' & Hfile).
  - exists w_ex, evs_eight_entries. vm_compute. reflexivity.
  - vm_compute. reflexivity.
  - vm_compute. reflexivity.
  - exists r'. split; [exact Hr'|]. rewrite Hfile. vm_compute. reflexivity.
Defined.

(** ** Recomputing twice *)

Lemma entry_mark_twice w f : entry_mark w (entry_mark w f) = entry_mark w f.
Proof.
  unfold entry_mark. destruct (is_desktop_entry f) eqn:Hde; [|by rewrite Hde].
  destruct (key_file_load w (fm_path_to_str (path f))) as [kf|] eqn:Hkf; simpl.
  - by rewrite Hde, Hkf.
  - by rewrite Hde, Hkf.
Qed.

Lemma lookup_foldr_alter {A} (g : A → A) (h : gmap addr A) l x :
  (∀ y, g (g y) = g y) →
  foldr (alter g) h l !! x = if decide (x ∈ l) then g <$> h !! x else h !! x.
Proof.
  intros Hg. induction l as [|a rest IH].
  - destruct (decide (x ∈ [])) as [Hin|]; [|done]. by apply elem_of_nil in Hin.
  - simpl foldr. destruct (decide (a = x)) as [->|Hne].
    + rewrite lookup_alter_eq, IH.
      destruct (decide (x ∈ x :: rest)) as [_|Hnin]; [|by destruct Hnin; left].
      destruct (decide (x ∈ rest)); [|done].
      destruct (h !! x); simpl; [|done]. by rewrite Hg.
    + rewrite lookup_alter_ne, IH by done.
      destruct (decide (x ∈ rest)) as [Hin|Hnin], (decide (x ∈ a :: rest))
        as [Hin'|Hnin']; try done.
      * destruct Hnin'. by right.
      * apply elem_of_cons in Hin' as [->|?]; done.
Qed.

Lemma foldr_alter_twice {A} (g : A → A) (h : gmap addr A) l :
  (∀ y, g (g y) = g y) →
  foldr (alter g) (foldr (alter g) h l) l = foldr (alter g) h l.
Proof.
  intros Hg. apply map_eq. intros x. rewrite !lookup_foldr_alter by done.
  destruct (decide (x ∈ l)); [|done].
  destruct (h !! x); simpl; [|done]. by rewrite Hg.
Qed.

Lemma template_eq (r r' : FmTemplate) :
  ref_count r = ref_count r' → files r = files r' → mime_type r = mime_type r' →
  template_file r = template_file r' → icon r = icon r' →
  command r = command r' → prompt r = prompt r' → label r = label r' →
  r = r'.
Proof. destruct r, r'; simpl. by intros -> -> -> -> -> -> -> ->. Qed.

(** The fold over a chain, started from what the fold over the same chain
    left, gives the same template. *)
Lemma foldr_entry_effect_twice w s r chain :
  let r1 := foldr (entry_effect w s) (cleared r) chain in
  foldr (entry_effect w s) (cleared r1) chain = r1.
Proof.
  intros r1.
  destruct (foldr_entry_effect_fields w s (cleared r1) chain)
    as (H1 & H2 & H3 & H4 & H5 & H6 & H7).
  destruct (foldr_entry_effect_fields w s (cleared r) chain)
    as (G1 & G2 & G3 & G4 & G5 & G6 & G7).
  fold r1 in G1, G2, G3, G4, G5, G6, G7. simpl in *.
  apply template_eq; try congruence.
  - unfold r1. by rewrite !foldr_entry_effect_template_file.
  - rewrite H7, G7. by destruct (first_key w s kf_Name chain).
Qed.

(** X11.  [_fm_template_update] again, in the same environment, changes
    nothing but the log: what the first run left in the template and in the
    marks of the entries is what the second run computes. *)
Theorem update_twice w s t u s1 u' s2 :
  reachable s →
  _fm_template_update w t s = Ok (u, s1) →
  _fm_template_update w t s1 = Ok (u', s2) →
  template_heap s2 = template_heap s1 ∧ file_heap s2 = file_heap s1 ∧
  templates s2 = templates s1 ∧ templates_dirs s2 = templates_dirs s1 ∧
  dir_heap s2 = dir_heap s1 ∧ next_free s2 = next_free s1.
Proof.
  intros Hs%reachable_inv H1 H2.
  assert (∃ r, template_heap s !! t = Some r) as [r Hr].
  { unfold _fm_template_update in H1.
    apply bind_inv in H1 as ([] & s0 & (r & Hr & _)%update_templ_inv & _). eauto. }
  destruct (update_effect w s t r Hr (reachable_entries_live _ _ _ Hs Hr))
    as [(s1' & H1' & Hfo1 & Hth1 & Hfh1)|H1']; [|congruence].
  assert (s1' = s1) as -> by congruence.
  pose proof (inv_fields_only _ _ Hs Hfo1) as Hs1.
  set (r1 := foldr (entry_effect w s) (cleared r) (files r)) in *.
  assert (template_heap s1 !! t = Some r1) as Hr1.
  { rewrite Hth1. apply lookup_insert_eq. }
  assert (files r1 = files r) as Hfiles.
  { by destruct (foldr_entry_effect_fields w s (cleared r) (files r))
      as (_ & ? & _). }
  destruct (update_effect w s1 t r1 Hr1 (reachable_entries_live _ _ _ Hs1 Hr1))
    as [(s2' & H2' & Hfo2 & Hth2 & Hfh2)|H2']; [|congruence].
  assert (s2' = s2) as -> by congruence.
  destruct Hfo2 as (? & ? & ? & ? & _).
  split_and!; try done.
  - rewrite Hth2, Hfiles, (foldr_entry_effect_fields_only _ _ _ _ _ Hfo1).
    rewrite <- Hfiles at 1. fold r1. subst r1.
    rewrite Hfiles, foldr_entry_effect_twice.
    apply insert_id. by rewrite Hth1, lookup_insert_eq.
  - rewrite Hfh2, Hfiles, Hfh1. apply foldr_alter_twice, entry_mark_twice.
Qed.

Lemma update_twice_witness :
  template_heap
    (final_state (_fm_template_update w_ex 3
       (final_state (_fm_template_update w_ex 3 s_hidden)))) =
  template_heap (final_state (_fm_template_update w_ex 3 s_hidden)).
Proof.
  refine (proj1 (update_twice w_ex s_hidden 3 tt _ tt _ _ _ _)).
  - exists w_ex, evs_hidden. vm_compute. reflexivity.
  - vm_compute. reflexivity.
  - vm_compute. reflexivity.
Defined.

(** ** The references of a list of templates *)

Lemma with_ref_count_back n r :
  ref_count r = n → with_ref_count n (with_ref_count (S n) r) = r.
Proof. intros <-. by destruct r. Qed.

Lemma with_template_heap_same s : with_template_heap (template_heap s) s = s.
Proof. by destruct s. Qed.

(** The loop takes one reference on each template it keeps and changes
    nothing else. *)
Lemma list_all_loop_refs user_only l :
  NoDup l →
  ∀ result s1 res s2,
    list_all_loop user_only l result s1 = Ok (res, s2) →
    ∃ kept, res = reverse kept ++ result ∧ sublist kept l ∧
      s2 = with_template_heap (template_heap s2) s1 ∧
      ∀ t, template_heap s2 !! t =
           if decide (t ∈ kept)
           then (λ r, with_ref_count (S (ref_count r)) r) <$> template_heap s1 !! t
           else template_heap s1 !! t.
Proof.
  induction l as [|data l IH]; intros Hnd result s1 res s2 H; simpl in H.
  - apply ret_inv in H as [<- <-]. exists []. split; [done|]. split; [done|].
    split; [by rewrite with_template_heap_same|]. intros t.
    destruct (decide (t ∈ [])) as [Hin|]; [|done]. by apply elem_of_nil in Hin.
  - apply NoDup_cons in Hnd as [Hdata Hnd].
    apply bind_inv in H as (t & s1' & [Ht ->]%get_templ_inv & H).
    apply bind_inv in H as (first & s1' & Hfirst & H).
    assert (s1' = s1) as ->.
    { destruct (files t); [done|]. by apply get_file_inv in Hfirst as [_ ->]. }
    apply bind_inv in H as (keep & s1' & Hkeep & H).
    assert (s1' = s1) as ->.
    { destruct (inactive first); [by apply ret_inv in Hkeep as [_ <-]|].
      destruct (negb user_only); [by apply ret_inv in Hkeep as [_ <-]|].
      apply bind_inv in Hkeep as (d & s' & [_ ->]%get_dir_inv & Hkeep).
      by apply ret_inv in Hkeep as [_ <-]. }
    destruct keep.
    + apply bind_inv in H as ([] & s1' & (r & Hr & ->)%update_templ_inv & H).
      assert (r = t) as -> by congruence.
      destruct (IH Hnd _ _ _ _ H) as (kept & -> & Hsub & Hs2 & Hheap).
      assert (data ∉ kept) as Hnk.
      { intros Hin. apply Hdata. by eapply elem_of_sublist. }
      exists (data :: kept). split; [by rewrite reverse_cons, <- app_assoc|].
      split; [by apply sublist_skip|]. split; [by rewrite Hs2 at 1|].
      intros t0. rewrite Hheap. simpl.
      destruct (decide (t0 = data)) as [->|Hne].
      * rewrite decide_False, decide_True by (done || left).
        by rewrite lookup_insert_eq, Ht.
      * rewrite lookup_insert_ne by done.
        destruct (decide (t0 ∈ kept)) as [Hin|Hnin].
        -- by rewrite decide_True by (by right).
        -- rewrite decide_False; [done|]. by intros [->|?]%elem_of_cons.
    + destruct (IH Hnd _ _ _ _ H) as (kept & -> & Hsub & Hs2 & Hheap).
      exists kept. split; [done|]. split; [by apply sublist_cons|]. done.
Qed.

Lemma list_all_refs user_only s l s' :
  registry_inv s → fm_template_list_all user_only s = Ok (l, s') →
  NoDup l ∧ sublist (reverse l) (templates s) ∧
  s' = with_template_heap (template_heap s') s ∧
  ∀ t, template_heap s' !! t =
       if decide (t ∈ l)
       then (λ r, with_ref_count (S (ref_count r)) r) <$> template_heap s !! t
       else template_heap s !! t.
Proof.
  intros Hs H. unfold fm_template_list_all in H.
  apply bind_inv in H as (s0 & s1 & [= <- <-] & H).
  destruct (inv_unique _ Hs) as (Hnd & _).
  destruct (list_all_loop_refs _ _ Hnd _ _ _ _ H) as (kept & -> & Hsub & Hs' & Hheap).
  rewrite app_nil_r. split; [|split; [|split]].
  - rewrite reverse_Permutation. by eapply sublist_NoDup.
  - by rewrite reverse_involutive.
  - done.
  - intros t. rewrite Hheap.
    destruct (decide (t ∈ kept)) as [Hin|Hnin].
    + by rewrite decide_True by (by apply elem_of_reverse).
    + rewrite decide_False; [done|]. by rewrite elem_of_reverse.
Qed.

(** X12.  [fm_template_list_all] in a state that can be observed takes
    exactly one reference on each template it returns and changes nothing
    else, the log included.  No template is returned twice, and the
    templates come in the reverse of their order in the global list. *)
Theorem list_all_takes_one_reference user_only s l s' :
  reachable s → fm_template_list_all user_only s = Ok (l, s') →
  NoDup l ∧ sublist (reverse l) (templates s) ∧
  s' = with_template_heap (template_heap s') s ∧
  ∀ t, template_heap s' !! t =
       if decide (t ∈ l)
       then (λ r, with_ref_count (S (ref_count r)) r) <$> template_heap s !! t
       else template_heap s !! t.
Proof. intros Hs%reachable_inv. by apply list_all_refs. Qed.

Lemma list_all_takes_one_reference_witness :
  template_heap
    (final_state ((_ ← fm_template_list_all false; mret tt) s_two_entries)) !! 3 =
  (λ r, with_ref_count (S (ref_count r)) r) <$> template_heap s_two_entries !! 3.
Proof.
  destruct (list_all_takes_one_reference false s_two_entries [3]
              (final_state
                 ((_ ← fm_template_list_all false; mret tt) s_two_entries)))
    as (_ & _ & _ & Hheap).
  - exists w_ex, evs_two_entries. vm_compute. reflexivity.
  - vm_compute. reflexivity.
  - specialize (Hheap 3). rewrite decide_True in Hheap by left. exact Hheap.
Defined.

Lemma free_full_unref_back w s l :
  NoDup l →
  ∀ h,
    (∀ t, t ∈ l → ∃ r0, template_heap s !! t = Some r0 ∧ 1 ≤ ref_count r0 ∧
                         h !! t = Some (with_ref_count (S (ref_count r0)) r0)) →
    (∀ t, t ∉ l → h !! t = template_heap s !! t) →
    g_list_free_full_unref w l (with_template_heap h s) = Ok (tt, s).
Proof.
  induction l as [|t l IH]; intros Hnd h Hin Hout; simpl.
  - assert (h = template_heap s) as ->.
    { apply map_eq. intros t. apply Hout, not_elem_of_nil. }
    by rewrite with_template_heap_same.
  - apply NoDup_cons in Hnd as [Ht Hnd].
    destruct (Hin t) as (r0 & Hr0 & Hpos & Hh); [left|].
    rewrite (bind_Ok _ _ _ _ _
               (g_object_unref_shared w false (with_template_heap h s) t _ Hh
                  ltac:(simpl; lia))).
    rewrite with_template_heap_twice. simpl. rewrite Nat.sub_0_r.
    rewrite with_ref_count_back by done. apply IH; [done|..].
    + intros t' Ht'. destruct (Hin t') as (r' & ? & ? & ?); [by right|].
      exists r'. split_and!; try done. rewrite lookup_insert_ne; [done|].
      by intros ->.
    + intros t' Ht'. destruct (decide (t = t')) as [<-|Hne].
      * by rewrite lookup_insert_eq.
      * rewrite lookup_insert_ne by done. apply Hout.
        by intros [->|?]%elem_of_cons.
Qed.

(** X13.  Freeing the list that [fm_template_list_all] returned, as its
    documentation asks - [g_list_free_full (list, g_object_unref)] - gives
    back the state the list was taken in: no template is finalised on the
    way, whatever the list holds. *)
Theorem list_all_then_free w user_only s l s' :
  reachable s → fm_template_list_all user_only s = Ok (l, s') →
  g_list_free_full_unref w l s' = Ok (tt, s).
Proof.
  intros Hs H.
  assert (refs_pos s) as Hpos.
  { destruct Hs as (w0 & evs & Hrun).
    apply bind_inv in Hrun as ([] & s0 & Hinit & Hrun).
    refine (respects_run _ refs_pos_fields refs_pos_templ refs_pos_entries
              evs _ _ _ Hrun _).
    by eapply refs_pos_init. }
  assert (NoDup l ∧ sublist (reverse l) (templates s) ∧
          s' = with_template_heap (template_heap s') s ∧
          ∀ t, template_heap s' !! t =
               if decide (t ∈ l)
               then (λ r, with_ref_count (S (ref_count r)) r) <$>
                      template_heap s !! t
               else template_heap s !! t) as (Hnd & Hsub & -> & Hheap).
  { exact (list_all_refs _ _ _ _ (reachable_inv _ Hs) H). }
  apply free_full_unref_back; [done|..].
  - intros t Ht. specialize (Hheap t). rewrite decide_True in Hheap by done.
    assert (t ∈ templates s) as Hin.
    { eapply elem_of_sublist; [|done]. by apply elem_of_reverse. }
    apply reachable_inv in Hs. destruct (inv_unique _ Hs) as (_ & Hlive & _).
    apply Hlive in Hin as [r0 Hr0]. exists r0. rewrite Hr0 in Hheap.
    split_and!; [done|by eapply Hpos|done].
  - intros t Ht. specialize (Hheap t). by rewrite decide_False in Hheap.
Qed.

Lemma list_all_then_free_witness :
  g_list_free_full_unref w_ex [3]
    (final_state ((_ ← fm_template_list_all false; mret tt) s_two_entries)) =
  Ok (tt, s_two_entries).
Proof.
  apply (list_all_then_free w_ex false s_two_entries [3]).
  - exists w_ex, evs_two_entries. vm_compute. reflexivity.
  - vm_compute. reflexivity.
Defined.

(** ** Where a new entry goes *)

Lemma chain_lt_le s a b : chain_lt s a b → chain_le s a b.
Proof.
  intros (fa & fb & Ha & Hb & Hlt). exists fa, fb. split; [done|]. split; [done|].
  unfold key_le. simpl in *. lia.
Qed.

Lemma chain_lt_intro s a b fa fb :
  file_heap s !! a = Some fa → file_heap s !! b = Some fb →
  (let ka := entry_key (templates_dirs s) fa in
   let kb := entry_key (templates_dirs s) fb in
   ka.1 < kb.1 ∨ (ka.1 = kb.1 ∧ ka.2 < kb.2)) →
  chain_lt s a b.
Proof. intros. by exists fa, fb. Qed.

(** The loop passes the entries that sort strictly before [file] and no
    other: [file] is put in front of the entries it ties with. *)
Lemma insert_sorted_loop_strict s file f :
  NoDup (templates_dirs s) →
  file_heap s !! file = Some f →
  ∀ next last_dir pre,
    templates_dirs s = pre ++ last_dir →
    dir f ∈ last_dir →
    (∀ a, a ∈ next → ∃ fa, file_heap s !! a = Some fa ∧ dir fa ∈ last_dir) →
    chain_sorted s next →
    ∃ l1 l2,
      insert_sorted_loop file f last_dir next s = Ok (l1 ++ file :: l2, s) ∧
      next = l1 ++ l2 ∧
      Forall (λ a, chain_lt s a file) l1 ∧ Forall (chain_le s file) l2.
Proof.
  intros Hnodup Hfile. induction next as [|n rest IH];
    intros last_dir pre Hsplit Hfdir Hnext Hsorted; simpl.
  { exists [], []. by repeat split. }
  destruct last_dir as [|d0 ld0] eqn:Eld; [by apply elem_of_nil in Hfdir|].
  rewrite <-Eld in *. clear d0 ld0 Eld.
  destruct (Hnext n) as (nx & Hn & Hndir); [left|].
  rewrite (bind_Ok _ _ _ _ _ (get_file_Ok _ _ _ Hn)).
  destruct (skip_dirs_spec (dir f) (dir nx) last_dir) as (skipped & Hskip & Hsf & Hsn).
  destruct (skip_dirs (dir f) (dir nx) last_dir) as [|d ld] eqn:Eskip.
  { rewrite app_nil_r in Hskip. by subst. }
  apply skip_dirs_head in Eskip as Hhead.
  assert (templates_dirs s = (pre ++ skipped) ++ d :: ld) as Hsplit'
    by (by rewrite <-app_assoc, <-Hskip).
  rewrite Hsplit' in Hnodup.
  assert (∀ x, x ∈ last_dir → x ∉ skipped → x ∈ d :: ld) as Hin.
  { intros x Hx Hns. rewrite Hskip in Hx. by apply elem_of_app in Hx as [?|?]. }
  pose proof (Hin _ Hfdir Hsf) as Hfdir'. pose proof (Hin _ Hndir Hsn) as Hndir'.
  apply StronglySorted_inv in Hsorted as [Hsorted' Hn_le].
  rewrite Forall_forall in Hn_le.
  assert (chain_le s file n → ∃ l1 l2,
            Ok (file :: n :: rest, s) = Ok (l1 ++ file :: l2, s) ∧
            n :: rest = l1 ++ l2 ∧
            Forall (λ a, chain_lt s a file) l1 ∧ Forall (chain_le s file) l2)
    as Hbreak.
  { intros Hle. exists [], (n :: rest). repeat split; [constructor|].
    constructor; [done|]. apply Forall_forall. intros a Ha.
    eapply chain_le_trans; [done|by apply Hn_le]. }
  assert (rank_n : d = dir nx →
            dir_rank (templates_dirs s) (dir nx) = length (pre ++ skipped)).
  { intros <-. rewrite Hsplit'. by apply rank_at_cursor. }
  assert (chain_lt s n file → d = dir nx → ∃ l1 l2,
            (rest' ← insert_sorted_loop file f (d :: ld) rest; mret (n :: rest')) s
              = Ok (l1 ++ file :: l2, s) ∧
            n :: rest = l1 ++ l2 ∧
            Forall (λ a, chain_lt s a file) l1 ∧ Forall (chain_le s file) l2)
    as Hcont.
  { intros Hlt Hd.
    destruct (IH (d :: ld) (pre ++ skipped)) as (l1 & l2 & Hrun & -> & H1 & H2);
      [by rewrite Hsplit'|done| |done|].
    - intros a Ha. destruct (Hnext a) as (fa & Hfa & Hadir); [by right|].
      exists fa. split; [done|].
      apply (rank_from_cursor (pre ++ skipped)).
      + rewrite <-Hsplit', Hsplit. apply elem_of_app. by right.
      + rewrite <-Hsplit', <-(rank_n Hd).
        eapply chain_le_rank; [by apply Hn_le|done..].
    - exists (n :: l1), l2. rewrite (bind_Ok _ _ _ _ _ Hrun).
      repeat split; [|done]. by constructor. }
  destruct (decide (d = dir f)) as [Hdf|Hdf].
  - assert (dir_rank (templates_dirs s) (dir f) = length (pre ++ skipped)) as Hrf.
    { rewrite Hsplit', <-Hdf. by apply rank_at_cursor. }
    destruct (bool_decide (dir nx = d) && negb (is_desktop_entry f)) eqn:Hcond.
    + apply andb_true_iff in Hcond as [Hnd%bool_decide_eq_true Hplain].
      apply negb_true_iff in Hplain.
      assert (dir_rank (templates_dirs s) (dir nx) = length (pre ++ skipped)) as Hrn
        by by apply rank_n.
      destruct (is_desktop_entry nx) eqn:Hnde; simpl.
      * apply Hcont; [|done]. apply (chain_lt_intro _ _ _ nx f); [done..|].
        unfold entry_key. simpl. rewrite Hnde, Hplain. lia.
      * apply Hbreak. apply (chain_le_intro _ _ _ f nx); [done..|].
        unfold key_le, entry_key. simpl. rewrite Hnde, Hplain. lia.
    + apply Hbreak. apply (chain_le_intro _ _ _ f nx); [done..|].
      unfold key_le, entry_key. simpl. rewrite Hrf.
      apply andb_false_iff in Hcond as [Hnd%bool_decide_eq_false|Hde%negb_false_iff].
      * left. rewrite Hsplit'. apply rank_after_cursor; [done|].
        apply elem_of_cons in Hndir' as [?|?]; [congruence|done].
      * destruct (decide (dir nx = d)) as [Hnd|Hnd].
        -- right. rewrite (rank_n (eq_sym Hnd)), Hde. split; [done|].
           destruct (is_desktop_entry nx); lia.
        -- left. rewrite Hsplit'. apply rank_after_cursor; [done|].
           apply elem_of_cons in Hndir' as [?|?]; [congruence|done].
  - destruct Hhead as [?|[_ Hdn]]; [done|].
    apply Hcont; [|done]. apply (chain_lt_intro _ _ _ nx f); [done..|].
    unfold entry_key. simpl. left. rewrite (rank_n Hdn).
    rewrite Hsplit'. apply rank_after_cursor; [done|].
    apply elem_of_cons in Hfdir' as [?|?]; [congruence|done].
Qed.

Lemma chain_unlink_middle a l1 l2 :
  a ∉ l1 → chain_unlink a (l1 ++ a :: l2) = Some (l1 ++ l2).
Proof.
  induction l1 as [|x l1 IH]; simpl; intros Hnin.
  - by rewrite decide_True.
  - apply not_elem_of_cons in Hnin as [Hne Hnin].
    rewrite decide_False by done. by rewrite IH.
Qed.

(** X14.  In a state that can be observed, for a new entry of any kind in
    any listed directory, the insertion loop splits the chain of the
    template in two and puts the entry in between: every entry it has
    passed sorts strictly before the new one - it lies in a directory of
    higher priority, or it is a desktop entry of the same directory and the
    new one is a plain file - and every entry behind sorts after the new
    one or ties with it.  So among the entries of one directory and one
    kind the newest is the first.  Unlinking the new entry from that chain,
    as [_fm_template_file_free] does, gives back the old chain. *)
Theorem new_entry_before_its_ties s w t r p is_de d :
  reachable s → template_heap s !! t = Some r → d ∈ templates_dirs s →
  ∃ file s1 l1 l2,
    new_template_file w t p is_de d s = Ok (file, s1) ∧
    insert_sorted_loop file
      {| dir := d; templ := t; path := p; is_desktop_entry := is_de;
         inactive := slice_junk w file |}
      (templates_dirs s1) (files r) s1 = Ok (l1 ++ file :: l2, s1) ∧
    files r = l1 ++ l2 ∧
    Forall (λ a, chain_lt s1 a file) l1 ∧ Forall (chain_le s1 file) l2 ∧
    chain_unlink file (l1 ++ file :: l2) = Some (files r).
Proof.
  intros Hinv%reachable_inv Hr Hd.
  destruct (new_template_file w t p is_de d s) as [[file s1]| |] eqn:Hnew; [|done..].
  destruct (inv_new_file _ _ _ _ _ _ _ _ Hinv Hd Hnew)
    as (Hinv1 & Hun1 & Hfile1 & Hth1 & _ & Hdirs1 & _).
  rewrite <-Hth1 in Hr.
  pose proof Hinv1 as [_ _ _ Hdn _ _ Hce _ Hcs].
  destruct (insert_sorted_loop_strict s1 file _ Hdn Hfile1 (files r)
              (templates_dirs s1) [])
    as (l1 & l2 & Hrun & Hfiles & H1 & H2); [done|by rewrite Hdirs1| |by eapply Hcs|].
  { intros a Ha. destruct (Hce t r Hr a Ha) as (fa & ? & ? & ?). eauto. }
  exists file, s1, l1, l2. split_and!; try done.
  rewrite Hfiles. apply chain_unlink_middle. intros Hin.
  apply (Hun1 t r Hr). rewrite Hfiles. apply elem_of_app. by left.
Qed.

Lemma new_entry_before_its_ties_witness :
  ∃ file s1 l1 l2,
    new_template_file w_ex 3 "/home/u/Templates/b.txt" false 2 s_two_entries =
      Ok (file, s1) ∧
    insert_sorted_loop file
      {| dir := 2; templ := 3; path := "/home/u/Templates/b.txt";
         is_desktop_entry := false; inactive := slice_junk w_ex file |}
      (templates_dirs s1) [5; 4] s1 = Ok (l1 ++ file :: l2, s1) ∧
    [5; 4] = l1 ++ l2 ∧
    Forall (λ a, chain_lt s1 a file) l1 ∧ Forall (chain_le s1 file) l2 ∧
    chain_unlink file (l1 ++ file :: l2) = Some [5; 4].
Proof.
  apply (new_entry_before_its_ties s_two_entries w_ex 3
    {| ref_count := 2; files := [5; 4]; mime_type := "text/plain";
       template_file := Some "/usr/share/templates/a.txt"; icon := None;
       command := None; prompt := None; label := Some "New Text Document" |}
    "/home/u/Templates/b.txt" false 2).
  - exists w_ex, evs_two_entries. vm_compute. reflexivity.
  - vm_compute. reflexivity.
  - vm_compute. left.
Defined.

(** ** Events that change no link *)

Lemma respects_changed R w gf evt d :
  field_frame R →
  evt ≠ G_FILE_MONITOR_EVENT_CREATED → evt ≠ G_FILE_MONITOR_EVENT_DELETED →
  respects R (on_dir_changed w gf evt d).
Proof.
  intros HF Hc Hd. unfold on_dir_changed.
  apply respects_bind; [done|by apply respects_get_dir|intros dr].
  destruct (g_file_equal _ _); [by apply respects_ret|].
  destruct evt; try done; try (by apply respects_ret).
  apply respects_bind; [done|by apply respects_find_in_dir_by_basename|].
  intros [file|]; [|by apply respects_g_log].
  apply respects_bind; [done|by apply respects_get_file|intros f].
  destruct (is_desktop_entry f); [by apply respects_update|by apply respects_ret].
Qed.

(** X15.  An event of a monitor of a kind other than Created and Deleted
    changes no list, no chain, no MIME type and no reference count, and
    allocates and frees nothing.  A Changed event changes resolved fields
    of one template, marks of its entries and the log at most; the other
    kinds, and every event for the directory itself, change nothing at
    all. *)
Theorem other_events_change_fields_only w gf evt d s s' :
  evt ≠ G_FILE_MONITOR_EVENT_CREATED → evt ≠ G_FILE_MONITOR_EVENT_DELETED →
  on_dir_changed w gf evt d s = Ok (tt, s') →
  fields_changed s s' ∧
  (evt ≠ G_FILE_MONITOR_EVENT_CHANGED → s' = s) ∧
  (∀ dr, dir_heap s !! d = Some dr →
         g_file_equal gf (fm_path_to_gfile (dir_path dr)) = true → s' = s).
Proof.
  intros Hc Hd H. split; [|split].
  - by eapply (respects_changed fields_changed _ _ _ _ fields_changed_fields).
  - intros Hch. unfold on_dir_changed in H.
    apply bind_inv in H as (dr & s0 & [_ ->]%get_dir_inv & H).
    destruct (g_file_equal _ _); [by apply ret_inv in H as [_ <-]|].
    destruct evt; try done; by apply ret_inv in H as [_ <-].
  - intros dr Hdr Heq. unfold on_dir_changed in H.
    rewrite (bind_Ok _ _ _ _ _ (get_dir_Ok _ _ _ Hdr)), Heq in H.
    by apply ret_inv in H as [_ <-].
Qed.

Lemma other_events_change_fields_only_witness :
  fields_changed s_two_entries
    (final_state (on_dir_changed w_ex "/home/u/Templates/write.desktop"
                    G_FILE_MONITOR_EVENT_CHANGED 2 s_two_entries)).
Proof.
  refine (proj1 (other_events_change_fields_only w_ex
                   "/home/u/Templates/write.desktop"
                   G_FILE_MONITOR_EVENT_CHANGED 2 s_two_entries _ _ _ _)).
  - discriminate.
  - discriminate.
  - vm_compute. reflexivity.
Defined.

(** ** A Deleted event *)

Lemma find_in_dir_by_basename_inv l b s res s' :
  find_in_dir_by_basename l b s = Ok (res, s') → s' = s.
Proof.
  induction l as [|file l IH]; simpl.
  - by intros [_ <-]%ret_inv.
  - intros (f & s1 & [_ ->]%get_file_inv & H)%bind_inv.
    destruct (String.eqb _ _); [by apply ret_inv in H as [_ <-]|by apply IH].
Qed.

Lemma finalize_frees w held t s u s' :
  fm_template_finalize w held t s = Ok (u, s') → template_heap s' !! t = None.
Proof.
  unfold fm_template_finalize. destruct u.
  intros ([] & s0 & _ & H)%bind_inv.
  apply bind_inv in H as ([] & s1 & _ & H).
  apply bind_inv in H as (self & s2 & _ & H).
  apply bind_inv in H as ([] & s3 & _ & [= <-]). simpl. apply lookup_delete_eq.
Qed.

Lemma with_files_same r : with_files (files r) r = r.
Proof. by destruct r. Qed.

(** [_fm_template_file_free] with the recompute returns only if the
    template is shared: it takes the entry out of the chain, drops one
    reference and frees the entry. *)
Lemma file_free_update_effect w held t file s s' r :
  template_heap s !! t = Some r →
  _fm_template_file_free w held t file true s = Ok (tt, s') →
  1 < ref_count r ∧
  templates s' = templates s ∧ templates_dirs s' = templates_dirs s ∧
  dir_heap s' = dir_heap s ∧ file_heap s' !! file = None ∧
  ∃ r', template_heap s' !! t = Some r' ∧
    files r' = default (files r) (chain_unlink file (files r)) ∧
    ref_count r' = ref_count r - 1 ∧ mime_type r' = mime_type r.
Proof.
  intros Hr H. unfold _fm_template_file_free in H.
  rewrite (bind_Ok _ _ _ _ _ (get_templ_Ok _ _ _ Hr)) in H.
  apply bind_inv in H as ([] & s2 & Hunlink & H).
  set (r2 := with_files (default (files r) (chain_unlink file (files r))) r).
  assert (template_heap s2 !! t = Some r2 ∧ templates s2 = templates s ∧
          templates_dirs s2 = templates_dirs s ∧ dir_heap s2 = dir_heap s)
    as (Hr2 & Ht2 & Htd2 & Hdh2).
  { subst r2. destruct (chain_unlink file (files r)) as [chain|]; simpl.
    - apply update_templ_inv in Hunlink as (r0 & Hr0 & ->).
      assert (r0 = r) as -> by congruence. simpl. by rewrite lookup_insert_eq.
    - rewrite with_files_same. unfold g_critical, g_log in Hunlink.
      destruct (log_fatal w LOG_CRITICAL); [done|]. by injection Hunlink as <-. }
  apply bind_inv in H as ([] & s3 & Hunref & H).
  apply bind_inv in H as (f & s3' & [_ ->]%get_file_inv & H).
  apply bind_inv in H as ([] & s4 & [= <-] & H).
  unfold g_object_unref in Hunref.
  rewrite (bind_Ok _ _ _ _ _ (get_templ_Ok _ _ _ Hr2)) in Hunref.
  destruct (decide (ref_count r2 ≤ 1)) as [Hle|Hgt].
  { apply finalize_frees in Hunref. unfold _fm_template_update in H.
    apply bind_inv in H as ([] & s5 & (r0 & Hr0 & _)%update_templ_inv & _).
    simpl in Hr0. congruence. }
  apply update_templ_inv in Hunref as (r0 & Hr0 & ->).
  assert (r0 = r2) as -> by congruence.
  apply (respects_update fields_changed fields_changed_fields) in H
    as [(Ht & Htd & Hdh & _ & Hlinks & Hentries) Hrc].
  simpl in *. split; [lia|]. split; [congruence|]. split; [congruence|].
  split; [congruence|]. split.
  - specialize (Hentries file). rewrite lookup_delete_eq in Hentries.
    by inversion Hentries.
  - specialize (Hlinks t). specialize (Hrc t).
    rewrite lookup_insert_eq in Hlinks, Hrc.
    inversion Hlinks as [? r' [Hfiles Hmime] Heq1 Heq2|]. subst.
    rewrite <- Heq2 in Hrc. inversion Hrc as [? ? Href|]. subst.
    exists r'. split; [done|]. simpl in *. split_and!; congruence.
Qed.

(** X16.  A Deleted event for a name that no entry of the directory has
    changes nothing.  For the name of an entry, the event returns only if
    the template of the entry holds another reference; then the entry is
    unlinked from the list of its directory and from the chain of its
    template and is freed, the template has one reference less, and it is
    still allocated and still in the global list, which is unchanged -
    also where the entry was the last of its chain. *)
Theorem deleted_event_effect w gf d s s' dr :
  dir_heap s !! d = Some dr →
  g_file_equal gf (fm_path_to_gfile (dir_path dr)) = false →
  on_dir_changed w gf G_FILE_MONITOR_EVENT_DELETED d s = Ok (tt, s') →
  ∃ found,
    find_in_dir_by_basename (dir_files dr) (g_file_get_basename gf) s =
      Ok (found, s) ∧
    match found with
    | None => s' = s
    | Some file =>
        ∃ f r r',
          file_heap s !! file = Some f ∧
          template_heap s !! templ f = Some r ∧ 1 < ref_count r ∧
          templates s' = templates s ∧ templates_dirs s' = templates_dirs s ∧
          dir_heap s' =
            <[d := with_dir_files (unlink file (dir_files dr)) dr]> (dir_heap s) ∧
          file_heap s' !! file = None ∧
          template_heap s' !! templ f = Some r' ∧
          files r' = default (files r) (chain_unlink file (files r)) ∧
          ref_count r' = ref_count r - 1 ∧ mime_type r' = mime_type r
    end.
Proof.
  intros Hdr Hne H. unfold on_dir_changed in H.
  rewrite (bind_Ok _ _ _ _ _ (get_dir_Ok _ _ _ Hdr)), Hne in H.
  apply bind_inv in H as (found & s0 & Hfind & H).
  pose proof (find_in_dir_by_basename_inv _ _ _ _ _ Hfind) as ->.
  exists found. split; [done|]. destruct found as [file|].
  - apply bind_inv in H as (f & s0 & [Hf ->]%get_file_inv & H).
    apply bind_inv in H as ([] & s1 & (dr' & Hdr' & ->)%update_dir_inv & H).
    assert (dr' = dr) as -> by congruence.
    unfold _fm_template_file_free in H.
    pose proof H as H'.
    apply bind_inv in H' as (r & s1 & [Hr _]%get_templ_inv & _). simpl in Hr.
    apply (file_free_update_effect _ _ _ _ _ _ r) in H
      as (Hshared & Ht & Htd & Hdh & Hfile & r' & Hr' & Hfiles & Href & Hmime);
      [|done].
    exists f, r, r'. by split_and!.
  - by apply ret_inv in H as [_ <-].
Qed.

Lemma deleted_event_effect_witness :
  ∃ r', template_heap
          (final_state (on_dir_changed w_ex "/home/u/Templates/write.desktop"
                          G_FILE_MONITOR_EVENT_DELETED 2 s_two_entries)) !! 3 =
        Some r' ∧ files r' = [4] ∧ ref_count r' = 1.
Proof.
  destruct (deleted_event_effect w_ex "/home/u/Templates/write.desktop" 2
              s_two_entries
              (final_state (on_dir_changed w_ex "/home/u/Templates/write.desktop"
                              G_FILE_MONITOR_EVENT_DELETED 2 s_two_entries))
              {| dir_files := [5]; dir_path := "/home/u/Templates";
                 monitor := true; user_dir := true |})
    as (found & Hfind & H).
  - vm_compute. reflexivity.
  - vm_compute. reflexivity.
  - vm_compute. reflexivity.
  - vm_compute in Hfind. injection Hfind as <-.
    destruct H as (f & r & r' & Hf & Hr & _ & _ & _ & _ & _ & Hr' & Hfiles & Href & _).
    vm_compute in Hf. injection Hf as <-.
    vm_compute in Hr. injection Hr as <-.
    exists r'. split; [exact Hr'|]. split; [exact Hfiles|exact Href].
Defined.

(** ** A Created event, twice *)

(** [_fm_template_find_for_file] gives no template only if the type is
    not guessed, and then it changes nothing. *)
Lemma find_for_file_None w p is_de s s' :
  _fm_template_find_for_file w p is_de s = Ok (None, s') →
  (∀ s0, _fm_template_guess_mime_type w p is_de s0 = Ok (None, s0)) ∧ s' = s.
Proof.
  unfold _fm_template_find_for_file.
  intros (guessed & s00 & [-> Hguess]%guess_mime_type_inv & H)%bind_inv.
  destruct guessed as [mime|].
  - apply bind_inv in H as (s0 & s0' & _ & H).
    apply bind_inv in H as ([t|] & s0'' & _ & H).
    + by apply bind_inv in H as ([] & ? & _ & [? _]%ret_inv).
    + apply bind_inv in H as (t & ? & _ & H).
      apply bind_inv in H as ([] & ? & _ & H).
      by apply bind_inv in H as ([] & ? & _ & [? _]%ret_inv).
  - by apply ret_inv in H as [_ <-].
Qed.

Lemma find_for_file_not_guessed w p is_de s :
  _fm_template_guess_mime_type w p is_de s = Ok (None, s) →
  _fm_template_find_for_file w p is_de s = Ok (None, s).
Proof.
  intros H. unfold _fm_template_find_for_file. by rewrite (bind_Ok _ _ _ _ _ H).
Qed.

Lemma entries_kept_same s s' :
  dir_heap s' = dir_heap s → next_free s' = next_free s →
  file_heap s' = file_heap s → entries_kept s s'.
Proof.
  intros Hd Hn Hf. split; [done|]. split; [lia|]. intros a f Ha.
  exists f. by rewrite Hf.
Qed.

Lemma entries_kept_trans s1 s2 s3 :
  entries_kept s1 s2 → entries_kept s2 s3 → entries_kept s1 s3.
Proof.
  intros (Hd1 & Hn1 & Hf1) (Hd2 & Hn2 & Hf2). split; [congruence|].
  split; [lia|]. intros a f Ha.
  destruct (Hf1 _ _ Ha) as (f' & Ha' & E1 & E2 & E3 & E4).
  destruct (Hf2 _ _ Ha') as (f'' & Ha'' & G1 & G2 & G3 & G4).
  exists f''. split; [done|]. unfold same_entry. split_and!; congruence.
Qed.

Lemma entries_kept_fields : field_frame entries_kept.
Proof.
  split; try (intros; by apply entries_kept_same).
  - apply entries_kept_trans.
  - intros s a r b Hr. split; [done|]. split; [done|]. intros a' f Ha'. simpl.
    destruct (decide (a = a')) as [<-|Hne].
    + rewrite lookup_insert_eq. eexists. split; [done|].
      assert (f = r) as -> by congruence. done.
    + rewrite lookup_insert_ne by done. by exists f.
Qed.

Lemma entries_kept_templ : templ_frame entries_kept.
Proof.
  split; try (intros; by apply entries_kept_same).
  intros s. split; [done|]. split; [simpl; lia|]. intros a f Ha. by exists f.
Qed.

Lemma find_in_dir_by_basename_kept l b s res s0 s' :
  find_in_dir_by_basename l b s = Ok (res, s0) →
  (∀ a f, file_heap s !! a = Some f →
     ∃ f', file_heap s' !! a = Some f' ∧ same_entry f f') →
  find_in_dir_by_basename l b s' = Ok (res, s').
Proof.
  intros H Hkept. revert H. induction l as [|file l IH]; simpl.
  - by intros [<- _]%ret_inv.
  - intros (f & s1 & [Hf ->]%get_file_inv & H)%bind_inv.
    destruct (Hkept _ _ Hf) as (f' & Hf' & _ & _ & Hpath & _).
    rewrite (bind_Ok _ _ _ _ _ (get_file_Ok _ _ _ Hf')), <- Hpath.
    destruct (String.eqb _ _); [by apply ret_inv in H as [<- _]|by apply IH].
Qed.

Lemma store_prev_in_dir_inv p s u s' : store_prev_in_dir p s = Ok (u, s') → s' = s.
Proof.
  destruct p as [a|]; simpl; [|done].
  intros (f & s1 & [_ ->]%get_file_inv & [_ <-]%ret_inv)%bind_inv. done.
Qed.

(** The part that the listing job and the Created event share, from the
    allocation of the entry on: the entry is the head of the list of its
    directory and has the path and the kind it was made with. *)
Lemma link_new_entry_effect w t p is_de d dr (first : M unit) s s1 :
  dir_heap s !! d = Some dr →
  (∀ s u s', first s = Ok (u, s') → s' = s) →
  (file ← new_template_file w t p is_de d;
   first;;
   update_dir d (with_dir_files (file :: dir_files dr));;
   _fm_template_insert_sorted w t file) s = Ok (tt, s1) →
  ∃ f',
    dir_heap s1 !! d = Some (with_dir_files (next_free s :: dir_files dr) dr) ∧
    file_heap s1 !! next_free s = Some f' ∧ path f' = p ∧
    is_desktop_entry f' = is_de ∧ next_free s < next_free s1 ∧
    ∀ a f, a ≠ next_free s → file_heap s !! a = Some f →
      ∃ f', file_heap s1 !! a = Some f' ∧ same_entry f f'.
Proof.
  intros Hdr Hfirst H.
  apply bind_inv in H as (file & sB & Hnew & H). unfold new_template_file in Hnew.
  apply bind_inv in Hnew as (file' & s0 & [= <- <-] & Hnew).
  apply bind_inv in Hnew as ([] & s0 & [= <-] & [<- <-]%ret_inv).
  apply bind_inv in H as ([] & sB' & ->%Hfirst & H).
  apply bind_inv in H as ([] & sC & (dr' & Hdr' & ->)%update_dir_inv & H).
  simpl in Hdr'. assert (dr' = dr) as -> by congruence.
  apply (respects_insert_sorted entries_kept entries_kept_fields entries_kept_templ)
    in H as (Hdh & Hnf & Hfh). simpl in *.
  destruct (Hfh (next_free s) _ (lookup_insert_eq _ _ _))
    as (f' & Hf' & _ & _ & Hpath & Hde). simpl in *.
  exists f'. split; [by rewrite Hdh, lookup_insert_eq|].
  split; [done|]. split; [done|]. split; [done|]. split; [lia|].
  intros a f Hne Ha. apply Hfh. by rewrite lookup_insert_ne.
Qed.

Lemma with_log_same s : with_log (log s) s = s.
Proof. by destruct s. Qed.

(** X17.  A Created event that is delivered twice adds one entry at most:
    the second event, handled in the same environment, changes nothing but
    the log.  (Debug messages are taken not to be fatal: the second event
    reports a duplicate in one.) *)
Theorem created_again_only_logs w gf d s s1 :
  log_fatal w LOG_DEBUG = false →
  on_dir_changed w gf G_FILE_MONITOR_EVENT_CREATED d s = Ok (tt, s1) →
  ∃ s2, on_dir_changed w gf G_FILE_MONITOR_EVENT_CREATED d s1 = Ok (tt, s2) ∧
        s2 = with_log (log s2) s1.
Proof.
  intros Hdebug H. unfold on_dir_changed in *.
  apply bind_inv in H as (dr & s0 & [Hdr ->]%get_dir_inv & H).
  destruct (g_file_equal gf (fm_path_to_gfile (dir_path dr))) eqn:Heq.
  { apply ret_inv in H as [_ <-].
    rewrite (bind_Ok _ _ _ _ _ (get_dir_Ok _ _ _ Hdr)), Heq.
    exists s. by rewrite with_log_same. }
  apply bind_inv in H as (found & s0 & Hfind & H).
  pose proof (find_in_dir_by_basename_inv _ _ _ _ _ Hfind) as ->.
  assert (∀ l, find_in_dir_by_basename (dir_files dr) (g_file_get_basename gf)
                 (with_log l s) = Ok (found, with_log l s)) as Hfind_log.
  { intros l. eapply find_in_dir_by_basename_kept; [done|]. intros a f Ha. by exists f. }
  destruct found as [file|].
  - (* a duplicate already *)
    unfold g_debug, g_log in H. rewrite Hdebug in H. injection H as <-.
    rewrite (bind_Ok _ _ _ _ _ (get_dir_Ok (with_log _ s) _ _ Hdr)), Heq.
    rewrite (bind_Ok _ _ _ _ _ (Hfind_log _)).
    unfold g_debug, g_log. rewrite Hdebug. by eexists.
  - apply bind_inv in H as (res & sA & Hfor & H). destruct res as [t|].
    + (* the entry was created: it is found now *)
      assert (dir_heap sA = dir_heap s ∧
              ∀ a f, file_heap s !! a = Some f →
                ∃ f', file_heap sA !! a = Some f' ∧ same_entry f f')
        as [HdhA HfhA].
      { apply (respects_find_for_file entries_kept entries_kept_fields
                 entries_kept_templ) in Hfor as (? & _ & ?). done. }
      rewrite <- HdhA in Hdr.
      destruct (link_new_entry_effect w t
                  (fm_path_new_child (dir_path dr) (g_file_get_basename gf))
                  (g_str_has_suffix (g_file_get_basename gf) ".desktop") d dr
                  (store_prev_in_dir (head (dir_files dr))) sA s1 Hdr)
        as (f' & Hdr1 & Hf' & Hpath & _); [apply store_prev_in_dir_inv|done|].
      rewrite (bind_Ok _ _ _ _ _ (get_dir_Ok _ _ _ Hdr1)).
      cbn [dir_path dir_files with_dir_files].
      rewrite Heq.
      rewrite (bind_Ok (find_in_dir_by_basename _ _) _ s1 (Some (next_free sA)) s1).
      2: { simpl. rewrite (bind_Ok _ _ _ _ _ (get_file_Ok _ _ _ Hf')), Hpath.
           rewrite basename_new_child by apply g_file_get_basename_is_name.
           by rewrite String.eqb_refl. }
      unfold g_debug, g_log. rewrite Hdebug. by eexists.
    + (* the type was not guessed: it is not guessed now *)
      apply find_for_file_None in Hfor as [Hguess ->].
      unfold g_warning, g_log in H.
      destruct (log_fatal w LOG_WARNING) eqn:Hwarn; [done|]. injection H as <-.
      rewrite (bind_Ok _ _ _ _ _ (get_dir_Ok (with_log _ s) _ _ Hdr)), Heq.
      rewrite (bind_Ok _ _ _ _ _ (Hfind_log _)).
      rewrite (bind_Ok _ _ _ _ _ (find_for_file_not_guessed _ _ _ _ (Hguess _))).
      unfold g_warning, g_log. rewrite Hwarn. by eexists.
Qed.

Lemma created_again_only_logs_witness :
  ∃ s2, on_dir_changed w_ex "/home/u/Templates/d.txt"
          G_FILE_MONITOR_EVENT_CREATED 2 s_eight_entries = Ok (tt, s2) ∧
        s2 = with_log (log s2) s_eight_entries.
Proof.
  apply (created_again_only_logs w_ex "/home/u/Templates/d.txt" 2
    (final_state ((_fm_templates_init w_ex;;
                   run (take 5 evs_eight_entries)) empty_state))).
  - reflexivity.
  - vm_compute. reflexivity.
Defined.

(** ** A listing, twice *)

Lemma find_in_dir_by_path_inv l p s res s' :
  find_in_dir_by_path l p s = Ok (res, s') → s' = s.
Proof.
  induction l as [|file l IH]; simpl.
  - by intros [_ <-]%ret_inv.
  - intros (f & s1 & [_ ->]%get_file_inv & H)%bind_inv.
    destruct (fm_path_equal _ _); [by apply ret_inv in H as [_ <-]|by apply IH].
Qed.

Lemma find_in_dir_by_path_kept l p s res s0 s' :
  find_in_dir_by_path l p s = Ok (res, s0) →
  (∀ a f, file_heap s !! a = Some f →
     ∃ f', file_heap s' !! a = Some f' ∧ same_entry f f') →
  find_in_dir_by_path l p s' = Ok (res, s').
Proof.
  intros H Hkept. revert H. induction l as [|file l IH]; simpl.
  - by intros [<- _]%ret_inv.
  - intros (f & s1 & [Hf ->]%get_file_inv & H)%bind_inv.
    destruct (Hkept _ _ Hf) as (f' & Hf' & _ & _ & Hpath & _).
    rewrite (bind_Ok _ _ _ _ _ (get_file_Ok _ _ _ Hf')), <- Hpath.
    destruct (fm_path_equal _ _); [by apply ret_inv in H as [<- _]|by apply IH].
Qed.

(** What one round of the loop of [on_job_finished] does: nothing, for a
    duplicate and for a file whose type is not guessed, or a new entry at
    the head of the list of the directory. *)
Lemma job_file_cases w d fi s s1 :
  registry_inv s →
  on_job_finished_file w d fi s = Ok (tt, s1) →
  ∃ dr dup,
    dir_heap s !! d = Some dr ∧
    find_in_dir_by_path (dir_files dr) (fi_path fi) s = Ok (dup, s) ∧
    let p := fm_path_new_child (dir_path dr) (fm_path_get_basename (fi_path fi)) in
    ((is_Some dup ∧ s1 = s) ∨
     (dup = None ∧
      (∀ s0, _fm_template_guess_mime_type w p (fi_is_desktop_entry fi) s0 =
               Ok (None, s0)) ∧ s1 = s) ∨
     (dup = None ∧ ∃ file f',
        dir_heap s1 !! d = Some (with_dir_files (file :: dir_files dr) dr) ∧
        file_heap s1 !! file = Some f' ∧ path f' = p ∧
        next_free s < next_free s1 ∧
        ∀ a f, file_heap s !! a = Some f →
          ∃ f', file_heap s1 !! a = Some f' ∧ same_entry f f')).
Proof.
  intros Hinv H. unfold on_job_finished_file in H.
  apply bind_inv in H as (dr & s0 & [Hdr ->]%get_dir_inv & H).
  apply bind_inv in H as (dup & s0 & Hdup & H).
  pose proof (find_in_dir_by_path_inv _ _ _ _ _ Hdup) as ->.
  exists dr, dup. split; [done|]. split; [done|]. simpl.
  destruct dup as [a|]; [left; by apply ret_inv in H as [_ <-]|right].
  apply bind_inv in H as (found & sA & Hfor & H). destruct found as [t|].
  - right. split; [done|].
    pose proof (respects_find_for_file entries_kept entries_kept_fields
                  entries_kept_templ _ _ _ _ _ _ Hfor) as (HdhA & HnfA & HfhA).
    destruct (find_for_file_inv _ _ _ _ _ _ Hinv Hfor) as (HinvA & _).
    rewrite <- HdhA in Hdr.
    destruct (link_new_entry_effect w t
                (fm_path_new_child (dir_path dr) (fm_path_get_basename (fi_path fi)))
                (fi_is_desktop_entry fi) d dr
                (match dir_files dr with
                 | first :: _ => store_prev_in_dir (Some first)
                 | [] => mret tt
                 end) sA s1 Hdr)
      as (f' & Hdr1 & Hf' & Hpath & _ & Hnf1 & Hkept); [|done|].
    { intros s' u s'' Hfirst. destruct (dir_files dr).
      - by apply ret_inv in Hfirst as [_ <-].
      - by eapply store_prev_in_dir_inv. }
    exists (next_free sA), f'. split_and!; try done; [lia|].
    intros a f Ha. destruct (HfhA _ _ Ha) as (fA & HaA & Hsame).
    destruct (Hkept a fA) as (f1 & Hf1 & Hsame1); [|done|].
    { assert (a < next_free sA); [|lia]. apply (inv_file_fresh _ HinvA). eauto. }
    exists f1. split; [done|].
    destruct Hsame as (? & ? & ? & ?), Hsame1 as (? & ? & ? & ?).
    unfold same_entry. split_and!; congruence.
  - left. split; [done|]. apply ret_inv in H as [_ <-].
    by apply find_for_file_None in Hfor.
Qed.

(** A file that the loop has handled is skipped when it comes again... *)
Lemma job_file_settles w d fi s s1 dr :
  registry_inv s → dir_heap s !! d = Some dr →
  fi_path fi = fm_path_new_child (dir_path dr) (fm_path_get_basename (fi_path fi)) →
  on_job_finished_file w d fi s = Ok (tt, s1) →
  on_job_finished_file w d fi s1 = Ok (tt, s1).
Proof.
  intros Hinv Hdr Hbased H.
  destruct (job_file_cases _ _ _ _ _ Hinv H)
    as (dr' & dup & Hdr' & Hdup & [[_ ->]|[(_ & _ & ->)|(-> & file & f' & Hdr1 & Hf' & Hpath & _)]]);
    [done..|].
  assert (dr' = dr) as -> by congruence.
  unfold on_job_finished_file.
  rewrite (bind_Ok _ _ _ _ _ (get_dir_Ok _ _ _ Hdr1)).
  rewrite (bind_Ok (find_in_dir_by_path _ _) _ s1 (Some file) s1); [done|].
  simpl. rewrite (bind_Ok _ _ _ _ _ (get_file_Ok _ _ _ Hf')), Hpath, <- Hbased.
  unfold fm_path_equal. by rewrite String.eqb_refl.
Qed.

(** ... and stays so while the loop handles other files. *)
Lemma job_file_stable w d fi fj s s' :
  registry_inv s →
  on_job_finished_file w d fi s = Ok (tt, s) →
  on_job_finished_file w d fj s = Ok (tt, s') →
  on_job_finished_file w d fi s' = Ok (tt, s').
Proof.
  intros Hinv Hi Hj.
  destruct (job_file_cases _ _ _ _ _ Hinv Hj)
    as (dr & dupj & Hdr & _ & [[_ ->]|[(_ & _ & ->)|(_ & file & f' & Hdr1 & Hf' & Hpath & _ & Hkept)]]);
    [done..|].
  destruct (job_file_cases _ _ _ _ _ Hinv Hi)
    as (dr' & dup & Hdr' & Hdup & Hcases).
  assert (dr' = dr) as -> by congruence.
  unfold on_job_finished_file.
  rewrite (bind_Ok _ _ _ _ _ (get_dir_Ok _ _ _ Hdr1)).
  cbn [dir_path dir_files with_dir_files].
  pose proof (find_in_dir_by_path_kept _ _ _ _ _ s' Hdup Hkept) as Hdup'.
  destruct (fm_path_equal (fi_path fi) (path f')) eqn:Heq.
  { rewrite (bind_Ok (find_in_dir_by_path _ _) _ s' (Some file) s'); [done|].
    simpl. by rewrite (bind_Ok _ _ _ _ _ (get_file_Ok _ _ _ Hf')), Heq. }
  rewrite (bind_Ok (find_in_dir_by_path _ _) _ s' dup s').
  2: { simpl. by rewrite (bind_Ok _ _ _ _ _ (get_file_Ok _ _ _ Hf')), Heq. }
  destruct Hcases as [[[a ->] _]|[(-> & Hguess & _)|(_ & ? & ? & _ & _ & _ & Hlt & _)]];
    [done| |lia].
  by rewrite (bind_Ok _ _ _ _ _ (find_for_file_not_guessed _ _ _ _ (Hguess _))).
Qed.

Lemma job_file_stable_list w d fi l s s' :
  registry_inv s →
  on_job_finished_file w d fi s = Ok (tt, s) →
  on_job_finished w l d s = Ok (tt, s') →
  on_job_finished_file w d fi s' = Ok (tt, s').
Proof.
  revert s. induction l as [|fj l IH]; intros s Hinv Hi H; simpl in H.
  - by apply ret_inv in H as [_ <-].
  - apply bind_inv in H as ([] & s1 & Hj & H).
    eapply IH; [by eapply on_job_finished_file_inv| |done].
    by eapply job_file_stable.
Qed.

Lemma job_settles_all w d dp l s s' :
  registry_inv s →
  (∀ dr, dir_heap s !! d = Some dr → dir_path dr = dp) →
  Forall (λ fi, fi_path fi =
                fm_path_new_child dp (fm_path_get_basename (fi_path fi))) l →
  on_job_finished w l d s = Ok (tt, s') →
  Forall (λ fi, on_job_finished_file w d fi s' = Ok (tt, s')) l.
Proof.
  revert s. induction l as [|fi l IH]; intros s Hinv Hdp Hbased H; simpl in H.
  - constructor.
  - apply Forall_cons in Hbased as [Hfi Hbased].
    apply bind_inv in H as ([] & s1 & H1 & H).
    pose proof (on_job_finished_file_inv _ _ _ _ _ _ Hinv H1) as Hinv1.
    assert (∃ dr, dir_heap s !! d = Some dr) as [dr Hdr].
    { unfold on_job_finished_file in H1.
      apply bind_inv in H1 as (dr & ? & [? _]%get_dir_inv & _). eauto. }
    pose proof (respects_on_job_finished_file dirs_fixed dirs_fixed_fields
                  dirs_fixed_templ dirs_fixed_entries _ _ _ _ _ _ H1) as [_ Hfix].
    constructor.
    + eapply job_file_stable_list; [exact Hinv1| |exact H].
      apply (job_file_settles w d fi s s1 dr Hinv Hdr); [|done].
      by rewrite (Hdp _ Hdr).
    + eapply IH; [done| |done..].
      intros dr1 Hdr1. specialize (Hfix d). rewrite Hdr, Hdr1 in Hfix.
      inversion Hfix as [? ? (Hpath & _)|]. rewrite Hpath. by apply Hdp.
Qed.

(** X18.  A listing that is reported twice adds nothing the second time.
    In a state that can be observed, if [on_job_finished] returns for a
    list of files whose paths are the path of the directory and a name,
    then [on_job_finished] for the same list, in the same environment,
    returns and leaves the state as it is, the log included: every file is
    found as a duplicate, or its type is not guessed again. *)
Theorem listing_twice w d dp l s s' :
  reachable s →
  (∀ dr, dir_heap s !! d = Some dr → dir_path dr = dp) →
  Forall (λ fi, fi_path fi =
                fm_path_new_child dp (fm_path_get_basename (fi_path fi))) l →
  on_job_finished w l d s = Ok (tt, s') →
  on_job_finished w l d s' = Ok (tt, s').
Proof.
  intros Hs%reachable_inv Hdp Hbased H.
  pose proof (job_settles_all _ _ _ _ _ _ Hs Hdp Hbased H) as Hall.
  clear -Hall. induction Hall as [|fi l Hfi _ IH]; simpl; [done|].
  by rewrite (bind_Ok _ _ _ _ _ Hfi).
Qed.

Lemma listing_twice_witness :
  let s' := final_state ((_fm_templates_init w_ex;;
                          run (take 2 evs_eight_entries)) empty_state) in
  on_job_finished w_ex
    [fi_plain "/home/u/Templates/c.txt"; fi_desktop "/home/u/Templates/write.desktop"]
    2 s' = Ok (tt, s').
Proof.
  apply (listing_twice w_ex 2 "/home/u/Templates" _
           (final_state ((_fm_templates_init w_ex;;
                          run (take 1 evs_eight_entries)) empty_state))).
  - exists w_ex, (take 1 evs_eight_entries). vm_compute. reflexivity.
  - intros dr Hdr. vm_compute in Hdr. by injection Hdr as <-.
  - repeat constructor.
  - vm_compute. reflexivity.
Defined.

(** ** What creating a file does and does not *)

(** X19.  [fm_template_create_file], whenever it returns, has changed
    nothing of the registry but the log.  It has copied at most once and
    then launched at most once, in this order.  If it returns [TRUE], the
    last thing it did was to launch an application on the given path, and
    the launch succeeded.  If it returns [FALSE] and the caller passed a
    location for the error, an error is stored there. *)
Theorem create_file_effects w templ path error s r s' :
  fm_template_create_file w templ path error s = Ok (r, s') →
  s' = with_log (log s') s ∧
  (∃ copy launch,
     cr_io r = copy ++ launch ∧ length copy ≤ 1 ∧ length launch ≤ 1 ∧
     Forall (λ a, ∃ src dst, a = IoCopy src dst ∧ path = Some dst) copy ∧
     Forall (λ a, ∃ app dst, a = IoLaunch app dst ∧ path = Some dst) launch) ∧
  (cr_ret r = true →
     ∃ app dst, path = Some dst ∧ app_launch w app dst = None ∧
                last (cr_io r) = Some (IoLaunch app dst)) ∧
  (cr_ret r = false → is_Some error → ∃ e, cr_error r = Some (Some e)).
Proof.
  intros H. unfold fm_template_create_file in H.
  destruct templ as [templ|], path as [path|];
    try (apply ret_inv in H as [<- <-]; simpl;
         split; [by rewrite with_log_same|];
         split; [exists [], []; split_and!; by (done || (simpl; lia) || constructor)|]; split; [done|];
         intros _ [x ->]; eauto).
  apply bind_inv in H as (t & s0 & [Ht ->]%get_templ_inv & H).
  set (res := match command t with
              | Some command =>
                  match app_from_commandline w command with
                  | inl app => (Some app, error)
                  | inr e => (None, g_set_error error e)
                  end
              | None =>
                  match app_default_for_type w (mime_type t) with
                  | Some app => (Some app, error)
                  | None => (None, g_set_error error
                               {| domain_is_io := true; code := G_IO_ERROR_FAILED |})
                  end
              end) in H.
  assert ((res.1 = None → is_Some error → ∃ e, res.2 = Some (Some e)) ∧
          (is_Some res.1 → res.2 = error)) as [Hnoapp Happ].
  { subst res.
    destruct (command t); [destruct (app_from_commandline w _)|
                           destruct (app_default_for_type w _)]; simpl;
      (split; [|done || by intros [? ?]]); try done;
      intros _ [x ->]; eauto. }
  destruct res as [[app|] error1]; simpl in *.
  2: { apply ret_inv in H as [<- <-]. simpl. split; [by rewrite with_log_same|].
       split; [exists [], []; split_and!; by (done || (simpl; lia) || constructor)|].
       split; [done|]. intros _. by apply Hnoapp. }
  clear Hnoapp. rewrite Happ in * by eauto. clear Happ error1.
  rewrite (bind_Ok _ _ _ _ _ (get_templ_Ok _ _ _ Ht)) in H.
  apply bind_inv in H as ([[copied error2] io] & s1 & Hcopy & H).
  (* the copy *)
  assert (s1 = with_log (log s1) s ∧ length io ≤ 1 ∧
          Forall (λ a, ∃ src dst, a = IoCopy src dst ∧ Some path = Some dst) io ∧
          (copied = false → is_Some error2 → template_file t ≠ None →
           ∃ e, error2 = Some (Some e))) as (Hs1 & Hlen & Hio & Herr2).
  { unfold g_file_copy in Hcopy. destruct (template_file t) as [p|]; simpl in Hcopy.
    - destruct (file_copy w _ path) as [e|]; apply ret_inv in Hcopy as [[= <- <- <-] <-];
        (split; [by rewrite with_log_same|]); (split; [simpl; lia|]);
        (split; [repeat constructor; eauto|]); [|done].
      intros _ [x Hx] _. destruct error; [by eexists|done].
    - apply bind_inv in Hcopy as ([] & s2 & Hlog & [[= <- <- <-] <-]%ret_inv).
      unfold g_critical, g_log in Hlog. destruct (log_fatal w _); [done|].
      injection Hlog as <-. split; [done|]. split; [simpl; lia|]. split; [done|].
      done. }
  (* the launch *)
  assert (∀ err sl rl,
            (g_object_unref_file w (fm_path_to_str <$> template_file t);;
             match app_launch w app path with
             | Some e => mret {| cr_ret := false; cr_error := g_set_error err e;
                                 cr_io := io ++ [IoLaunch app path] |}
             | None => mret {| cr_ret := true; cr_error := err;
                               cr_io := io ++ [IoLaunch app path] |}
             end) s1 = Ok (rl, sl) →
            sl = with_log (log sl) s ∧
            cr_io rl = io ++ [IoLaunch app path] ∧
            (cr_ret rl = true → app_launch w app path = None) ∧
            (cr_ret rl = false → is_Some err → ∃ e, cr_error rl = Some (Some e)))
    as Hlaunch.
  { intros err sl rl Hl. apply bind_inv in Hl as ([] & s2 & Hunref & Hl).
    assert (s2 = with_log (log s2) s) as Hs2.
    { unfold g_object_unref_file in Hunref.
      destruct (template_file t); simpl in Hunref.
      - by apply ret_inv in Hunref as [_ <-].
      - unfold g_critical, g_log in Hunref. destruct (log_fatal w _); [done|].
        injection Hunref as <-. by rewrite Hs1. }
    destruct (app_launch w app path) as [e|]; apply ret_inv in Hl as [<- <-]; simpl;
      (split; [done|]); (split; [done|]); (split; [done|]); [|done].
    intros _ [x ->]. by eexists. }
  assert (∀ rl, cr_io rl = io ++ [IoLaunch app path] →
            (∃ copy launch,
               cr_io rl = copy ++ launch ∧ length copy ≤ 1 ∧ length launch ≤ 1 ∧
               Forall (λ a, ∃ src dst, a = IoCopy src dst ∧ Some path = Some dst) copy ∧
               Forall (λ a, ∃ app dst, a = IoLaunch app dst ∧ Some path = Some dst)
                 launch) ∧
            (app_launch w app path = None →
             ∃ app dst, Some path = Some dst ∧ app_launch w app dst = None ∧
                        last (cr_io rl) = Some (IoLaunch app dst))) as Hshape.
  { intros rl ->. split.
    - exists io, [IoLaunch app path]. split_and!; try done.
      repeat constructor. eauto.
    - intros Hok. exists app, path. split_and!; try done. by rewrite last_snoc. }
  destruct copied.
  - destruct (Hlaunch _ _ _ H) as (-> & Hrio & Htrue & Hfalse).
    destruct (Hshape _ Hrio) as [? ?]. split_and!; try done; [by auto|].
    intros Hf Hsome. apply Hfalse; [done|].
    unfold g_file_copy in Hcopy. destruct (template_file t); simpl in Hcopy.
    + destruct (file_copy w _ path); by apply ret_inv in Hcopy as [[= <- <-] _].
    + by apply bind_inv in Hcopy as ([] & ? & _ & [[= <-] _]%ret_inv).
  - apply bind_inv in H as (e & s2 & He & H).
    assert (s2 = s1 ∧ error2 = Some (Some e)) as [-> ->].
    { unfold deref_error in He. destruct error2 as [[e'|]|]; try done.
      by apply ret_inv in He as [<- <-]. }
    destruct (negb (domain_is_io e) || negb (bool_decide (code e = G_IO_ERROR_NOT_FOUND))).
    + apply bind_inv in H as ([] & s2 & Hunref & [<- <-]%ret_inv). simpl.
      split.
      { unfold g_object_unref_file in Hunref.
        destruct (template_file t); simpl in Hunref.
        - by apply ret_inv in Hunref as [_ <-].
        - unfold g_critical, g_log in Hunref. destruct (log_fatal w _); [done|].
          injection Hunref as <-. by rewrite Hs1. }
      split; [exists io, []; rewrite app_nil_r; split_and!; by (done || (simpl; lia) || constructor)|].
      split; [done|]. intros _ _. by eexists.
    + destruct (Hlaunch _ _ _ H) as (-> & Hrio & Htrue & Hfalse).
      destruct (Hshape _ Hrio) as [? ?]. split_and!; try done; [by auto|].
      intros Hf _. apply Hfalse; [done|]. simpl. by eexists.
Qed.

Lemma create_file_effects_witness :
  ∃ app dst, Some "/home/u/new.txt" = Some dst ∧ app_launch w_ex app dst = None.
Proof.
  destruct (create_file_effects w_ex (Some 3) (Some "/home/u/new.txt") (Some None)
              s_two_entries
              {| cr_ret := true; cr_error := Some None;
                 cr_io := [IoCopy "/usr/share/templates/a.txt" "/home/u/new.txt";
                           IoLaunch "editor" "/home/u/new.txt"] |}
              s_two_entries)
    as (_ & _ & Hret & _).
  - vm_compute. reflexivity.
  - destruct (Hret eq_refl) as (app & dst & Hdst & Hok & _). by exists app, dst.
Defined.

(** ** What the accessors see *)

(** X20.  What a caller reads of a template after [_fm_template_update]
    in a state that can be observed.  The icon is the [Icon] key of the
    first contributing entry that has one and, if no entry has one, the
    icon of the MIME type.  The prompt is the [Comment] key found in the
    same way, or nothing.  The label is the [Name] key found in the same
    way, or else the label there was before.  The name is the last
    component of the target file.  The MIME type is what it was, and the
    template is a directory template if and only if that is
    [inode/directory].  No accessor changes the state. *)
Theorem accessors_after_update w mime_icon s t r u s' :
  reachable s → template_heap s !! t = Some r →
  _fm_template_update w t s = Ok (u, s') →
  fm_template_icon mime_icon t s' =
    Ok (match first_key w s kf_Icon (files r) with
        | Some i => Some i
        | None => mime_icon (mime_type r)
        end, s') ∧
  fm_template_dup_prompt t s' = Ok (first_key w s kf_Comment (files r), s') ∧
  fm_template_dup_label t s' =
    Ok (match first_key w s kf_Name (files r) with
        | Some v => Some v
        | None => label r
        end, s') ∧
  fm_template_get_mime_type t s' = Ok (mime_type r, s') ∧
  fm_template_is_directory t s' =
    Ok (String.eqb (mime_type r) "inode/directory", s') ∧
  ∃ len, fm_template_dup_name t false s' =
    Ok ((fm_path_get_basename <$>
           match first_url w s (files r) with
           | Some p => Some p
           | None => last_plain s (files r)
           end, len), s').
Proof.
  intros Hs%reachable_inv Hr H.
  destruct (update_effect_reachable w s t r Hs Hr)
    as [(s1 & H1 & Hth & _)|H1]; [|congruence].
  assert (s1 = s') as -> by congruence.
  set (r' := foldr (entry_effect w s) (cleared r) (files r)) in *.
  assert (template_heap s' !! t = Some r') as Hr'.
  { rewrite Hth. apply lookup_insert_eq. }
  destruct (foldr_entry_effect_fields w s (cleared r) (files r))
    as (_ & _ & Hmime & Hicon & _ & Hprompt & Hlabel).
  pose proof (foldr_entry_effect_template_file w s (cleared r) (files r)) as Hfile.
  fold r' in Hmime, Hicon, Hprompt, Hlabel, Hfile. simpl in *.
  unfold fm_template_icon, fm_template_dup_prompt, fm_template_dup_label,
    fm_template_get_mime_type, fm_template_is_directory, fm_template_dup_name.
  rewrite !(bind_Ok _ _ _ _ _ (get_templ_Ok _ _ _ Hr')).
  rewrite Hicon, Hprompt, Hlabel, Hmime, Hfile. split_and!.
  - by destruct (first_key w s kf_Icon (files r)).
  - by destruct (first_key w s kf_Comment (files r)).
  - done.
  - done.
  - done.
  - eexists. reflexivity.
Qed.

Lemma accessors_after_update_witness :
  fm_template_dup_label 3
    (final_state (_fm_template_update w_ex 3 s_eight_entries)) =
  Ok (Some "New Text Document",
      final_state (_fm_template_update w_ex 3 s_eight_entries)).
Proof.
  destruct (accessors_after_update w_ex (λ _, None) s_eight_entries 3
    {| ref_count := 8; files := [9; 7; 11; 6; 10; 8; 5; 4];
       mime_type := "text/plain";
       template_file := Some "/home/u/Templates/skel/letter.txt"; icon := None;
       command := None; prompt := None; label := Some "New Text Document" |}
    tt (final_state (_fm_template_update w_ex 3 s_eight_entries)))
    as (_ & _ & Hlabel & _).
  - exists w_ex, evs_eight_entries. vm_compute. reflexivity.
  - vm_compute. reflexivity.
  - vm_compute. reflexivity.
  - rewrite Hlabel. vm_compute. reflexivity.
Defined.

(** ** The lists of the directories *)

Lemma links_kept_refl s : links_kept s s.
Proof. split; [done|]. split; intros ? x Hx; by exists x. Qed.

Lemma links_kept_trans s1 s2 s3 :
  links_kept s1 s2 → links_kept s2 s3 → links_kept s1 s3.
Proof.
  intros (Hd1 & Hf1 & Ht1) (Hd2 & Hf2 & Ht2). split; [congruence|]. split.
  - intros a f Ha. destruct (Hf1 _ _ Ha) as (f' & Ha' & E1 & E2 & E3 & E4).
    destruct (Hf2 _ _ Ha') as (f'' & Ha'' & G1 & G2 & G3 & G4).
    exists f''. split; [done|]. unfold same_entry. split_and!; congruence.
  - intros t r Hr. destruct (Ht1 _ _ Hr) as (r' & Hr' & E).
    destruct (Ht2 _ _ Hr') as (r'' & Hr'' & G). exists r''. split; [done|congruence].
Qed.

Lemma fields_only_links_kept s s' : fields_only s s' → links_kept s s'.
Proof.
  intros Hfo. split; [by destruct Hfo as (_ & _ & ? & _)|]. split.
  - intros a f Ha. by eapply fields_only_file_fwd.
  - intros t r Hr. destruct (fields_only_templ_fwd _ _ _ _ Hfo Hr) as (r' & ? & ? & _).
    eauto.
Qed.

Lemma dir_entries_ok_kept s s' :
  links_kept s s' → dir_entries_ok s → dir_entries_ok s'.
Proof.
  intros (Hdh & Hfh & Hth) Hok d dr Hdr. rewrite Hdh in Hdr.
  destruct (Hok _ _ Hdr) as [Hnd Hent]. split; [done|]. intros a Ha.
  destruct (Hent a Ha) as (f & r & Hf & Hd & Hr & Hin).
  destruct (Hfh _ _ Hf) as (f' & Hf' & Ed & Et & _).
  destruct (Hth _ _ Hr) as (r' & Hr' & Efiles).
  exists f', r'. split_and!; [done|congruence|congruence|congruence].
Qed.

(** [_fm_template_find_for_file] keeps the entries and the chains. *)
Lemma find_for_file_links_kept w p is_de s res s' :
  registry_inv s → _fm_template_find_for_file w p is_de s = Ok (res, s') →
  links_kept s s'.
Proof.
  intros Hinv H. unfold _fm_template_find_for_file in H.
  apply bind_inv in H as (guessed & s00 & [-> _]%guess_mime_type_inv & H).
  destruct guessed as [mime|];
    [|apply ret_inv in H as [_ <-]; apply links_kept_refl].
  apply bind_inv in H as (s0 & s0' & [= <- <-] & H).
  apply bind_inv in H as (found & s0 & [-> _]%find_by_mime_type_inv & H).
  destruct found as [t|].
  - apply bind_inv in H as ([] & s1 & Href & [_ <-]%ret_inv).
    apply fields_only_links_kept. by eapply pf_g_object_ref.
  - apply bind_inv in H as (t & s1 & Hnew & H). unfold fm_template_new in Hnew.
    apply bind_inv in Hnew as (t' & s2 & [= <- <-] & Hnew).
    apply bind_inv in Hnew as ([] & s2 & [= <-] & [<- <-]%ret_inv).
    apply bind_inv in H as ([] & s3 & (r & Hr & ->)%update_templ_inv & H).
    apply bind_inv in H as ([] & s4 & [= <-] & [_ <-]%ret_inv).
    split; [done|]. split; [intros a f Ha; by exists f|].
    intros t r0 Hr0. simpl. exists r0. split; [|done].
    assert (t < next_free s) by (apply (inv_templ_fresh _ Hinv); eauto).
    rewrite !lookup_insert_ne by lia. done.
Qed.

Lemma insert_sorted_loop_elems file f last_dir next s res s' :
  insert_sorted_loop file f last_dir next s = Ok (res, s') →
  s' = s ∧ ∀ a, a ∈ res ↔ a = file ∨ a ∈ next.
Proof.
  revert last_dir res s s'.
  induction next as [|n rest IH]; intros last_dir res s s'; simpl.
  { intros [<- <-]%ret_inv. split; [done|]. intros a.
    rewrite list_elem_of_singleton, elem_of_nil. tauto. }
  assert ((mret (file :: n :: rest) : M (list addr)) s = Ok (res, s') →
          s' = s ∧ ∀ a, a ∈ res ↔ a = file ∨ a ∈ n :: rest) as Hbreak.
  { intros [<- <-]%ret_inv. split; [done|]. intros a. by rewrite elem_of_cons. }
  assert (∀ ld, (rest' ← insert_sorted_loop file f ld rest; mret (n :: rest')) s
                = Ok (res, s') →
                s' = s ∧ ∀ a, a ∈ res ↔ a = file ∨ a ∈ n :: rest) as Hcont.
  { intros ld (rest' & s1 & [-> Hel]%IH & [<- <-]%ret_inv)%bind_inv.
    split; [done|]. intros a. rewrite !elem_of_cons, Hel. tauto. }
  destruct last_dir as [|d0 ld0]; [apply Hbreak|].
  intros (nx & s1 & [_ ->]%get_file_inv & H)%bind_inv. revert H.
  destruct (skip_dirs _ _ _) as [|d ld]; [apply Hbreak|].
  destruct (decide (d = dir f)).
  - destruct (bool_decide _ && negb _); [|apply Hbreak].
    destruct (negb (is_desktop_entry nx)); [apply Hbreak|]. apply Hcont.
  - apply Hcont.
Qed.

Lemma find_in_dir_by_basename_elem l b s file s' :
  find_in_dir_by_basename l b s = Ok (Some file, s') → file ∈ l.
Proof.
  induction l as [|a l IH]; simpl; [by intros [? _]%ret_inv|].
  intros (f & s1 & [_ ->]%get_file_inv & H)%bind_inv.
  destruct (String.eqb _ _).
  - apply ret_inv in H as [[= ->] _]. left.
  - right. by apply IH.
Qed.

Lemma chain_unlink_other a chain chain' x :
  chain_unlink a chain = Some chain' → x ∈ chain → x ≠ a → x ∈ chain'.
Proof.
  revert chain'. induction chain as [|z chain IH]; intros c; simpl; [done|].
  destruct (decide (z = a)) as [->|Hne].
  - intros [= <-] [->|?]%elem_of_cons ?; done.
  - destruct (chain_unlink a chain) as [c'|]; [|done]. intros [= <-].
    intros [->|?]%elem_of_cons ?; [left|right; eauto].
Qed.

Lemma chain_unlink_Some a chain :
  a ∈ chain → ∃ chain', chain_unlink a chain = Some chain'.
Proof.
  intros Hin. destruct (chain_unlink a chain) eqn:E; [eauto|].
  by apply chain_unlink_None in E.
Qed.

(** A new entry, from its allocation to its place in the chain. *)
Lemma link_new_entry_dir_ok w t p is_de d dr r0 (first : M unit) s s1 :
  registry_inv s → dir_entries_ok s →
  dir_heap s !! d = Some dr → template_heap s !! t = Some r0 →
  (∀ s u s', first s = Ok (u, s') → s' = s) →
  (file ← new_template_file w t p is_de d;
   first;;
   update_dir d (with_dir_files (file :: dir_files dr));;
   _fm_template_insert_sorted w t file) s = Ok (tt, s1) →
  dir_entries_ok s1.
Proof.
  intros Hinv Hok Hdr Hr0 Hfirst H.
  apply bind_inv in H as (file & sB & Hnew & H). unfold new_template_file in Hnew.
  apply bind_inv in Hnew as (file' & s0 & [= <- <-] & Hnew).
  apply bind_inv in Hnew as ([] & s0 & [= <-] & [<- <-]%ret_inv).
  apply bind_inv in H as ([] & sB' & ->%Hfirst & H).
  apply bind_inv in H as ([] & sC & (dr' & Hdr' & ->)%update_dir_inv & H).
  simpl in Hdr'. assert (dr' = dr) as -> by congruence. clear Hdr'.
  unfold _fm_template_insert_sorted in H.
  apply bind_inv in H as (s0 & s0' & [= <- <-] & H).
  apply bind_inv in H as (r & s0 & [Hr ->]%get_templ_inv & H).
  simpl in Hr. assert (r = r0) as -> by congruence.
  apply bind_inv in H as (f & s0 & [Hf ->]%get_file_inv & H).
  apply bind_inv in H as (chain & s0 & [-> Hel]%insert_sorted_loop_elems & H).
  apply bind_inv in H as ([] & sD & (r & Hr' & ->)%update_templ_inv & H).
  simpl in Hr'. assert (r = r0) as -> by congruence.
  apply pf_update in H.
  eapply dir_entries_ok_kept; [by apply fields_only_links_kept|].
  clear H s1 Hf f Hr Hr'.
  assert (∀ a, is_Some (file_heap s !! a) → a ≠ next_free s) as Hfresh.
  { intros a Ha%(inv_file_fresh _ Hinv). lia. }
  (* an entry that was in a list is still in a chain *)
  assert (∀ d' dr' a, dir_heap s !! d' = Some dr' → a ∈ dir_files dr' →
            ∃ f r, <[next_free s := {| dir := d; templ := t; path := p;
                                       is_desktop_entry := is_de;
                                       inactive := slice_junk w (next_free s) |}]>
                     (file_heap s) !! a = Some f ∧ dir f = d' ∧
                   <[t := with_files chain r0]> (template_heap s) !! templ f = Some r ∧
                   a ∈ files r ∧ a ≠ next_free s) as Hold.
  { intros d' dr' a Hdr' Ha.
    destruct (Hok _ _ Hdr') as [_ Hent].
    destruct (Hent a Ha) as (f & r & Hf & Hd & Hr & Hin).
    assert (a ≠ next_free s) as Hne by (apply Hfresh; eauto).
    rewrite lookup_insert_ne by done.
    destruct (decide (templ f = t)) as [Ht|Ht].
    - exists f, (with_files chain r0). rewrite Ht, lookup_insert_eq.
      split_and!; try done. simpl. apply Hel. right.
      rewrite Ht in Hr. by assert (r = r0) as -> by congruence.
    - exists f, r. rewrite lookup_insert_ne by done. by split_and!. }
  intros d' dr'. simpl. destruct (decide (d = d')) as [<-|Hne].
  - rewrite lookup_insert_eq. intros [= <-]. simpl. split.
    + constructor; [|by apply (Hok _ _ Hdr)].
      intros Hin. by destruct (Hold _ _ _ Hdr Hin) as (? & ? & _ & _ & _ & _ & ?).
    + intros a [->|Ha]%elem_of_cons.
      * eexists _, _. rewrite lookup_insert_eq. split; [done|]. simpl.
        rewrite lookup_insert_eq. split_and!; try done. simpl. apply Hel. by left.
      * destruct (Hold _ _ _ Hdr Ha) as (f & r & ? & ? & ? & ? & _).
        by exists f, r.
  - rewrite lookup_insert_ne by done. intros Hdr'. split; [by apply (Hok _ _ Hdr')|].
    intros a Ha. destruct (Hold _ _ _ Hdr' Ha) as (f & r & ? & ? & ? & ? & _).
    by exists f, r.
Qed.

Lemma on_job_finished_file_dir_ok w d fi s u s' :
  registry_inv s → dir_entries_ok s →
  on_job_finished_file w d fi s = Ok (u, s') → dir_entries_ok s'.
Proof.
  intros Hinv Hok H. destruct u. unfold on_job_finished_file in H.
  apply bind_inv in H as (dr & s0 & [Hdr ->]%get_dir_inv & H).
  apply bind_inv in H as (dup & s0 & ->%find_in_dir_by_path_inv & H).
  destruct dup; [by apply ret_inv in H as [_ <-]|].
  apply bind_inv in H as (found & sA & Hfor & H).
  pose proof (find_for_file_links_kept _ _ _ _ _ _ Hinv Hfor) as Hkept.
  pose proof (dir_entries_ok_kept _ _ Hkept Hok) as HokA.
  destruct found as [t|]; [|by apply ret_inv in H as [_ <-]].
  destruct (find_for_file_inv _ _ _ _ _ _ Hinv Hfor)
    as (HinvA & _ & HdhA & _ & r' & Hr' & _).
  rewrite <- HdhA in Hdr.
  eapply (link_new_entry_dir_ok w t _ _ d dr r'); [done..| |exact H].
  intros s1 u s1' Hfirst. destruct (dir_files dr).
  - by apply ret_inv in Hfirst as [_ <-].
  - by eapply store_prev_in_dir_inv.
Qed.

Lemma on_job_finished_dir_ok w l d s u s' :
  registry_inv s → dir_entries_ok s →
  on_job_finished w l d s = Ok (u, s') → dir_entries_ok s'.
Proof.
  revert s. induction l as [|fi l IH]; intros s Hinv Hok H; simpl in H.
  - by apply ret_inv in H as [_ <-].
  - apply bind_inv in H as ([] & s1 & H1 & H).
    eapply IH; [| |done].
    + by eapply on_job_finished_file_inv.
    + by eapply on_job_finished_file_dir_ok.
Qed.

Lemma g_object_unref_dir_ok w held t s u s' :
  dir_entries_ok s → g_object_unref w held t s = Ok (u, s') → dir_entries_ok s'.
Proof.
  intros Hok H. unfold g_object_unref in H.
  apply bind_inv in H as (r & s0 & [Hr ->]%get_templ_inv & H).
  destruct (decide (ref_count r ≤ 1)).
  - unfold fm_template_finalize in H.
    apply bind_inv in H as ([] & s00 & Hlock & H).
    destruct held; [done|]. apply ret_inv in Hlock as [_ <-].
    apply bind_inv in H as ([] & s1 & [= <-] & H).
    apply bind_inv in H as (self & s1 & [Hself ->]%get_templ_inv & H).
    simpl in Hself. assert (self = r) as -> by congruence.
    apply bind_inv in H as ([] & s1 & Hfiles & H). destruct u.
    injection H as <-.
    assert (files r = [] ∧ s1 = with_templates (g_list_remove (templates s) t) s)
      as [Hnil ->].
    { destruct (files r); [by apply ret_inv in Hfiles as [_ <-]|done]. }
    intros d dr Hdr. destruct (Hok _ _ Hdr) as [Hnd Hent]. split; [done|].
    intros a Ha. destruct (Hent a Ha) as (f & r' & Hf & Hd & Hr' & Hin).
    exists f, r'. split_and!; try done. simpl. rewrite lookup_delete_ne; [done|].
    intros Heq. rewrite <- Heq in Hr'. assert (r' = r) as -> by congruence.
    rewrite Hnil in Hin. by apply elem_of_nil in Hin.
  - apply update_templ_inv in H as (r0 & Hr0 & ->).
    eapply dir_entries_ok_kept; [|done]. split; [done|].
    split; [intros a f Ha; by exists f|]. intros t0 r1 Hr1. simpl.
    destruct (decide (t = t0)) as [<-|Hne].
    + rewrite lookup_insert_eq. eexists. split; [done|]. simpl. congruence.
    + rewrite lookup_insert_ne by done. by exists r1.
Qed.

Lemma deleted_dir_ok w d dr file f s s' :
  dir_entries_ok s → dir_heap s !! d = Some dr → file ∈ dir_files dr →
  file_heap s !! file = Some f →
  (update_dir d (with_dir_files (unlink file (dir_files dr)));;
   _fm_template_file_free w true (templ f) file true) s = Ok (tt, s') →
  dir_entries_ok s'.
Proof.
  intros Hok Hdr Hfile Hf H.
  destruct (Hok _ _ Hdr) as [Hnd Hent].
  destruct (Hent _ Hfile) as (f0 & r & Hf0 & Hd & Hr & Hin).
  assert (f0 = f) as -> by congruence.
  apply bind_inv in H as ([] & s1 & (dr' & Hdr' & ->)%update_dir_inv & H).
  assert (dr' = dr) as -> by congruence. clear Hdr'.
  unfold _fm_template_file_free in H.
  apply bind_inv in H as (r1 & s0 & [Hr1 ->]%get_templ_inv & H).
  simpl in Hr1. assert (r1 = r) as -> by congruence. clear Hr1.
  destruct (chain_unlink_Some _ _ Hin) as (chain & Hchain). rewrite Hchain in H.
  apply bind_inv in H as ([] & s2 & (r1 & Hr1 & ->)%update_templ_inv & H).
  simpl in Hr1. assert (r1 = r) as -> by congruence. clear Hr1.
  apply bind_inv in H as ([] & s3 & Hunref & H).
  apply bind_inv in H as (f' & s3' & [_ ->]%get_file_inv & H).
  apply bind_inv in H as ([] & s4 & [= <-] & H).
  unfold g_object_unref in Hunref.
  apply bind_inv in Hunref as (r2 & s0 & [Hr2 ->]%get_templ_inv & Hunref).
  simpl in Hr2. rewrite lookup_insert_eq in Hr2. injection Hr2 as <-.
  destruct (decide (ref_count (with_files chain r) ≤ 1)) as [Hle|Hgt].
  { apply finalize_frees in Hunref. unfold _fm_template_update in H.
    apply bind_inv in H as ([] & s5 & (r0 & Hr0 & _)%update_templ_inv & _).
    simpl in Hr0. congruence. }
  apply update_templ_inv in Hunref as (r2 & Hr2 & ->).
  simpl in Hr2. rewrite lookup_insert_eq in Hr2. injection Hr2 as <-.
  apply pf_update in H.
  eapply dir_entries_ok_kept; [by apply fields_only_links_kept|].
  clear H s'. simpl. rewrite insert_insert_eq.
  (* an entry other than [file] is where it was *)
  assert (∀ d' dr' a, dir_heap s !! d' = Some dr' → a ∈ dir_files dr' → a ≠ file →
            ∃ f0 r0, delete file (file_heap s) !! a = Some f0 ∧ dir f0 = d' ∧
                     <[templ f := with_ref_count (ref_count r - 1) (with_files chain r)]>
                       (template_heap s) !! templ f0 = Some r0 ∧
                     a ∈ files r0) as Hold.
  { intros d' dr' a Hdr' Ha Hne.
    destruct (Hok _ _ Hdr') as [_ Hent'].
    destruct (Hent' a Ha) as (fa & ra & Hfa & Hda & Hra & Hina).
    rewrite lookup_delete_ne by done.
    destruct (decide (templ fa = templ f)) as [Ht|Ht].
    - eexists fa, _. rewrite Ht, lookup_insert_eq. split_and!; try done. simpl.
      rewrite Ht in Hra. assert (ra = r) as -> by congruence.
      by eapply chain_unlink_other.
    - exists fa, ra. rewrite lookup_insert_ne by done. by split_and!. }
  intros d' dr'. simpl. destruct (decide (d = d')) as [<-|Hne].
  - rewrite lookup_insert_eq. intros [= <-]. simpl.
    split; [by apply NoDup_unlink|].
    intros a [Hne Ha]%elem_of_unlink; [|done]. by eapply Hold.
  - rewrite lookup_insert_ne by done. intros Hdr'.
    split; [by apply (Hok _ _ Hdr')|]. intros a Ha. eapply Hold; [done..|].
    intros ->. destruct (Hok _ _ Hdr') as [_ Hent'].
    destruct (Hent' _ Ha) as (fa & _ & Hfa & Hda & _). congruence.
Qed.

Lemma on_dir_changed_dir_ok w gf evt d s u s' :
  registry_inv s → dir_entries_ok s →
  on_dir_changed w gf evt d s = Ok (u, s') → dir_entries_ok s'.
Proof.
  intros Hinv Hok H. destruct u.
  assert (evt = G_FILE_MONITOR_EVENT_CREATED ∨ evt = G_FILE_MONITOR_EVENT_DELETED ∨
          (evt ≠ G_FILE_MONITOR_EVENT_CREATED ∧ evt ≠ G_FILE_MONITOR_EVENT_DELETED))
    as [->|[->|[Hc Hd]]] by (destruct evt; auto; right; right; split; discriminate).
  - unfold on_dir_changed in H.
    apply bind_inv in H as (dr & s0 & [Hdr ->]%get_dir_inv & H).
    destruct (g_file_equal _ _); [by apply ret_inv in H as [_ <-]|].
    apply bind_inv in H as (found & s0 & ->%find_in_dir_by_basename_inv & H).
    destruct found as [file|].
    { eapply dir_entries_ok_kept; [|done]. apply fields_only_links_kept.
      exact (pf_g_log _ _ _ _ _ _ H). }
    apply bind_inv in H as (found & sA & Hfor & H).
    pose proof (find_for_file_links_kept _ _ _ _ _ _ Hinv Hfor) as Hkept.
    pose proof (dir_entries_ok_kept _ _ Hkept Hok) as HokA.
    destruct found as [t|].
    2: { eapply dir_entries_ok_kept; [|done]. apply fields_only_links_kept.
         exact (pf_g_log _ _ _ _ _ _ H). }
    destruct (find_for_file_inv _ _ _ _ _ _ Hinv Hfor)
      as (HinvA & _ & HdhA & _ & r' & Hr' & _).
    rewrite <- HdhA in Hdr.
    eapply (link_new_entry_dir_ok w t _ _ d dr r'); [done..| |exact H].
    apply store_prev_in_dir_inv.
  - unfold on_dir_changed in H.
    apply bind_inv in H as (dr & s0 & [Hdr ->]%get_dir_inv & H).
    destruct (g_file_equal _ _); [by apply ret_inv in H as [_ <-]|].
    apply bind_inv in H as (found & s0 & Hfind & H).
    pose proof (find_in_dir_by_basename_inv _ _ _ _ _ Hfind) as ->.
    destruct found as [file|]; [|by apply ret_inv in H as [_ <-]].
    apply find_in_dir_by_basename_elem in Hfind.
    apply bind_inv in H as (f & s0 & [Hf ->]%get_file_inv & H).
    by eapply deleted_dir_ok.
  - eapply dir_entries_ok_kept; [|done]. apply fields_only_links_kept.
    by eapply (respects_changed fields_changed _ _ _ _ fields_changed_fields).
Qed.

Lemma step_dir_ok w ev s u s' :
  registry_inv s → dir_entries_ok s → step w ev s = Ok (u, s') →
  dir_entries_ok s'.
Proof.
  intros Hinv Hok H. destruct ev; simpl in H.
  - by eapply on_job_finished_dir_ok.
  - by eapply on_dir_changed_dir_ok.
  - apply bind_inv in H as (l & s1 & H & [_ <-]%ret_inv).
    eapply dir_entries_ok_kept; [|done]. apply fields_only_links_kept.
    by eapply pf_list_all.
  - by eapply g_object_unref_dir_ok.
Qed.

Lemma run_dir_ok evs s u s' :
  registry_inv s → dir_entries_ok s → run evs s = Ok (u, s') →
  dir_entries_ok s'.
Proof.
  revert s. induction evs as [|[w ev] evs IH]; intros s Hinv Hok H; simpl in H.
  - by apply ret_inv in H as [_ <-].
  - apply bind_inv in H as ([] & s1 & H1 & H).
    eapply IH; [| |done]; [by eapply step_inv|by eapply step_dir_ok].
Qed.

(** Set-up leaves every list of entries empty. *)
Lemma template_dir_init_empty w d gf s u s' :
  (∀ d dr, dir_heap s !! d = Some dr → dir_files dr = []) →
  _template_dir_init w d gf s = Ok (u, s') →
  ∀ d dr, dir_heap s' !! d = Some dr → dir_files dr = [].
Proof.
  intros Hall H. destruct u. unfold _template_dir_init in H.
  apply bind_inv in H as ([] & s1 & (r & Hr & ->)%update_dir_inv & H).
  assert (dir_heap s' = <[d := {| dir_files := []; dir_path := dir_path r;
                                   monitor := monitor_directory w gf;
                                   user_dir := user_dir r |}]> (dir_heap s)) as ->.
  { destruct (monitor_directory w gf); [by apply ret_inv in H as [_ <-]|].
    unfold g_debug, g_log in H. destruct (log_fatal w _); [done|].
    by injection H as <-. }
  intros d' dr'. destruct (decide (d = d')) as [<-|Hne].
  - rewrite lookup_insert_eq. by intros [= <-].
  - rewrite lookup_insert_ne by done. apply Hall.
Qed.

Lemma add_dir_empty w p is_user gf (place : addr → list addr → list addr) s u s' :
  (∀ d dr, dir_heap s !! d = Some dr → dir_files dr = []) →
  (d ← new_template_dir w p is_user;
   modify (λ s, with_templates_dirs (place d (templates_dirs s)) s);;
   _template_dir_init w d gf) s = Ok (u, s') →
  ∀ d dr, dir_heap s' !! d = Some dr → dir_files dr = [].
Proof.
  intros Hall H.
  apply bind_inv in H as (d & s1 & Hnew & H). unfold new_template_dir in Hnew.
  apply bind_inv in Hnew as (d0 & s2 & [= <- <-] & Hnew).
  apply bind_inv in Hnew as ([] & s2 & [= <-] & [<- <-]%ret_inv).
  apply bind_inv in H as ([] & s2 & [= <-] & H).
  eapply template_dir_init_empty; [|done]. simpl.
  intros d' dr'. destruct (decide (next_free s = d')) as [<-|Hne].
  - rewrite lookup_insert_eq. by intros [= <-].
  - rewrite lookup_insert_ne by done. apply Hall.
Qed.

Lemma init_system_dirs_empty w data_dirs s u s' :
  (∀ d dr, dir_heap s !! d = Some dr → dir_files dr = []) →
  init_system_dirs w data_dirs s = Ok (u, s') →
  ∀ d dr, dir_heap s' !! d = Some dr → dir_files dr = [].
Proof.
  revert s. induction data_dirs as [|data_dir rest IH]; intros s Hall H; simpl in H.
  - by apply ret_inv in H as [_ <-].
  - apply bind_inv in H as ([] & s1 & H1 & H). eapply IH; [|done].
    destruct (file_query_exists w _); [|by apply ret_inv in H1 as [_ <-]].
    by eapply (add_dir_empty w _ _ _ (λ d l, l ++ [d])).
Qed.

Lemma init_dir_ok w s :
  _fm_templates_init w empty_state = Ok (tt, s) → dir_entries_ok s.
Proof.
  intros H. unfold _fm_templates_init in H.
  apply bind_inv in H as (s0 & s1 & [= <- <-] & H). simpl in H.
  apply bind_inv in H as ([] & s1 & Hsys & H).
  assert (∀ d dr, dir_heap empty_state !! d = Some dr → dir_files dr = []) as H0.
  { intros d dr. simpl. by rewrite lookup_empty. }
  pose proof (init_system_dirs_empty _ _ _ _ _ H0 Hsys) as H1.
  apply bind_inv in H as (d & s2 & Hnew & H).
  apply bind_inv in H as ([] & s3 & Hmod & H).
  apply bind_inv in H as ([] & s4 & Hinit & H).
  assert (∀ d dr, dir_heap s4 !! d = Some dr → dir_files dr = []) as H4.
  { eapply (add_dir_empty w _ (Some true) _ (λ d l, d :: l) s1); [exact H1|].
    rewrite (bind_Ok _ _ _ _ _ Hnew), (bind_Ok _ _ _ _ _ Hmod). exact Hinit. }
  pose proof (add_dir_empty w _ (Some true) _ (λ d l, d :: l) s4 _ _ H4 H) as Hall.
  intros d' dr Hdr. rewrite (Hall _ _ Hdr). split; [constructor|].
  intros a Ha. by apply elem_of_nil in Ha.
Qed.

Lemma dir_ok_reachable s : reachable s → dir_entries_ok s.
Proof.
  intros (w0 & evs & H). apply bind_inv in H as ([] & s0 & Hinit & Hrun).
  eapply run_dir_ok; [by eapply init_inv|by eapply init_dir_ok|done].
Qed.

(** X22.  In every state that can be observed, the list of entries of a
    directory holds no entry twice, and every entry in it is allocated,
    belongs to that directory, and stands in the chain of its template,
    which is allocated. *)
Theorem reachable_dir_entries_ok s : reachable s → dir_entries_ok s.
Proof.
  intros (w0 & evs & H). apply bind_inv in H as ([] & s0 & Hinit & Hrun).
  eapply run_dir_ok; [by eapply init_inv|by eapply init_dir_ok|done].
Qed.

Lemma reachable_dir_entries_ok_witness : dir_entries_ok s_eight_entries.
Proof.
  apply reachable_dir_entries_ok. exists w_ex, evs_eight_entries.
  vm_compute. reflexivity.
Defined.

(** ** Handlers that stop at an unassigned pointer only *)

Lemma so_Ok {A} P (x : A * State) : stops_only P (Ok x).
Proof. left. by exists x. Qed.

Lemma so_bind {A B} P (m : M A) (f : A → M B) s :
  stops_only P (m s) →
  (∀ a s1, m s = Ok (a, s1) → stops_only P (f a s1)) →
  stops_only P ((m ≫= f) s).
Proof.
  intros [[[a s1] Hm]|[Hm|[Hfatal [msg Hm]]]] Hf.
  - rewrite (bind_Ok _ _ _ _ _ Hm). by apply Hf.
  - right. left. unfold mbind, M_bind. by rewrite Hm.
  - right. right. split; [done|]. exists msg. unfold mbind, M_bind. by rewrite Hm.
Qed.

Lemma so_g_warning w msg s : stops_only (warning_fatal w) (g_warning w msg s).
Proof.
  unfold g_warning, g_log. destruct (log_fatal w LOG_WARNING) eqn:E; [|apply so_Ok].
  right. right. split; [by left|by eexists].
Qed.

Lemma so_g_debug w msg s : stops_only (warning_fatal w) (g_debug w msg s).
Proof.
  unfold g_debug, g_log. destruct (log_fatal w LOG_DEBUG) eqn:E; [|apply so_Ok].
  right. right. split; [by right|by eexists].
Qed.

Lemma so_update P w s t r :
  template_heap s !! t = Some r → entries_live s (files r) →
  stops_only P (_fm_template_update w t s).
Proof.
  intros Hr Hlive. rewrite (update_exact w s t r Hr Hlive).
  destruct (chain_loads w s (files r)); [apply so_Ok|by right; left].
Qed.

Lemma find_in_dir_by_path_total l p s :
  (∀ a, a ∈ l → is_Some (file_heap s !! a)) →
  ∃ res, find_in_dir_by_path l p s = Ok (res, s).
Proof.
  induction l as [|a l IH]; intros Hl; simpl; [by eexists|].
  destruct (Hl a) as [f Hf]; [left|].
  rewrite (bind_Ok _ _ _ _ _ (get_file_Ok _ _ _ Hf)).
  destruct (fm_path_equal _ _); [by eexists|]. apply IH. intros x Hx. apply Hl. by right.
Qed.

Lemma find_in_dir_by_basename_total l b s :
  (∀ a, a ∈ l → is_Some (file_heap s !! a)) →
  ∃ res, find_in_dir_by_basename l b s = Ok (res, s).
Proof.
  induction l as [|a l IH]; intros Hl; simpl; [by eexists|].
  destruct (Hl a) as [f Hf]; [left|].
  rewrite (bind_Ok _ _ _ _ _ (get_file_Ok _ _ _ Hf)).
  destruct (String.eqb _ _); [by eexists|]. apply IH. intros x Hx. apply Hl. by right.
Qed.

Lemma dir_entries_live s d dr a :
  dir_entries_ok s → dir_heap s !! d = Some dr → a ∈ dir_files dr →
  is_Some (file_heap s !! a).
Proof.
  intros Hok Hdr Ha. destruct (Hok _ _ Hdr) as [_ Hent].
  destruct (Hent a Ha) as (f & _ & Hf & _). eauto.
Qed.

Lemma so_find_for_file P w p is_de s :
  registry_inv s →
  stops_only P (_fm_template_find_for_file w p is_de s).
Proof.
  intros Hinv.
  destruct (guess_mime_type_cases w p is_de) as [[[mime|] Hguess]|Hguess].
  - destruct (find_for_file_total w p is_de s mime (Hguess s)) as (t & s' & H & _).
    + intros t Ht. by apply (inv_unique _ Hinv).
    + rewrite H. apply so_Ok.
  - rewrite (find_for_file_not_guessed _ _ _ _ (Hguess s)). apply so_Ok.
  - right. left. unfold _fm_template_find_for_file, mbind, M_bind.
    by rewrite Hguess.
Qed.

Lemma so_insert_sorted P w s t file f r :
  registry_inv s → unlinked s file →
  file_heap s !! file = Some f → templ f = t → dir f ∈ templates_dirs s →
  template_heap s !! t = Some r →
  stops_only P (_fm_template_insert_sorted w t file s).
Proof.
  intros Hinv Hun Hf Htempl Hdir Hr. unfold _fm_template_insert_sorted.
  rewrite (bind_Ok get _ s s s eq_refl).
  rewrite (bind_Ok _ _ _ _ _ (get_templ_Ok _ _ _ Hr)).
  rewrite (bind_Ok _ _ _ _ _ (get_file_Ok _ _ _ Hf)).
  pose proof Hinv as [_ _ _ Hdn _ Hdv Hce _ Hcs].
  destruct (insert_sorted_loop_spec s file f Hdn Hf (files r) (templates_dirs s) [])
    as (l1 & l2 & Hrun & Hfiles & _); [done..| |by eapply Hcs|].
  { intros a Ha. destruct (Hce t r Hr a Ha) as (fa & ? & ? & ?). eauto. }
  rewrite (bind_Ok _ _ _ _ _ Hrun).
  rewrite (bind_Ok _ _ _ _ _ (update_templ_Ok _ _ _ _ Hr)).
  eapply so_update; [apply lookup_insert_eq|]. simpl.
  intros a [Ha|[->|Ha]%elem_of_cons]%elem_of_app.
  - destruct (Hce t r Hr a) as (fa & Hfa & _ & Hda); [rewrite Hfiles, elem_of_app; eauto|].
    destruct (Hdv _ Hda) as [da Hdda]. eauto.
  - destruct (Hdv _ Hdir) as [da Hdda]. eauto.
  - destruct (Hce t r Hr a) as (fa & Hfa & _ & Hda); [rewrite Hfiles, elem_of_app; eauto|].
    destruct (Hdv _ Hda) as [da Hdda]. eauto.
Qed.

(** The new entry, from its allocation to its place in the chain. *)
Lemma so_link_new_entry P w t p is_de d dr r (first : M unit) s :
  registry_inv s → dir_heap s !! d = Some dr → template_heap s !! t = Some r →
  (∀ s', (∀ a, is_Some (file_heap s !! a) → is_Some (file_heap s' !! a)) →
         first s' = Ok (tt, s')) →
  stops_only P
    ((file ← new_template_file w t p is_de d;
      first;;
      update_dir d (with_dir_files (file :: dir_files dr));;
      _fm_template_insert_sorted w t file) s).
Proof.
  intros Hinv Hdr Hr Hfirst.
  assert (d ∈ templates_dirs s) as Hd by (apply (inv_dirs_listed _ Hinv); eauto).
  destruct (new_template_file w t p is_de d s) as [[file sB]| |] eqn:Hnew; [|done..].
  rewrite (bind_Ok _ _ _ _ _ Hnew).
  destruct (inv_new_file _ _ _ _ _ _ _ _ Hinv Hd Hnew)
    as (HinvB & HunB & HfileB & HthB & HdhB & HdirsB & _).
  assert (∀ a, is_Some (file_heap s !! a) → is_Some (file_heap sB !! a)) as Hkept.
  { intros a Ha. unfold new_template_file in Hnew.
    apply bind_inv in Hnew as (a' & s1 & [= <- <-] & Hnew).
    apply bind_inv in Hnew as ([] & s2 & [= <-] & [= <- <-]). simpl.
    apply lookup_insert_is_Some.
    destruct (decide (next_free s = a)); [by left|by right]. }
  rewrite (bind_Ok _ _ _ _ _ (Hfirst sB Hkept)).
  rewrite <- HdhB in Hdr.
  rewrite (bind_Ok _ _ _ _ _ (update_dir_Ok _ _ _ _ Hdr)).
  set (sC := with_dir_heap _ sB).
  assert (registry_inv sC ∧ template_heap sC = template_heap sB ∧
          file_heap sC = file_heap sB ∧ templates_dirs sC = templates_dirs sB)
    as (HinvC & HthC & HfhC & HdirsC).
  { destruct (inv_update_dir sB d (with_dir_files (file :: dir_files dr)) tt sC HinvB)
      as (? & ? & ? & ? & _); [by apply update_dir_Ok|done]. }
  eapply (so_insert_sorted P w sC t file _ r); [done| | | | |].
  - intros t' r'. rewrite HthC. apply HunB.
  - rewrite HfhC. exact HfileB.
  - done.
  - rewrite HdirsC, HdirsB. exact Hd.
  - by rewrite HthC, HthB.
Qed.

Lemma so_on_job_finished_file P w d fi s :
  registry_inv s → dir_entries_ok s → d ∈ templates_dirs s →
  stops_only P (on_job_finished_file w d fi s).
Proof.
  intros Hinv Hok Hd. unfold on_job_finished_file.
  destruct (inv_dirs_live _ Hinv _ Hd) as [dr Hdr].
  rewrite (bind_Ok _ _ _ _ _ (get_dir_Ok _ _ _ Hdr)).
  destruct (find_in_dir_by_path_total (dir_files dr) (fi_path fi) s) as [dup Hdup].
  { intros a Ha. by eapply dir_entries_live. }
  rewrite (bind_Ok _ _ _ _ _ Hdup). destruct dup; [apply so_Ok|].
  apply so_bind; [by apply so_find_for_file|]. intros [t|] sA Hfor; [|apply so_Ok].
  destruct (find_for_file_inv _ _ _ _ _ _ Hinv Hfor)
    as (HinvA & HfhA & HdhA & _ & r' & Hr' & _).
  rewrite <- HdhA in Hdr.
  eapply (so_link_new_entry P w t _ _ d dr r'); [done..|].
  intros s' Hs'. destruct (dir_files dr) as [|first rest] eqn:Hfiles; [done|].
  simpl. destruct (Hs' first) as [f Hf].
  { rewrite HfhA. rewrite HdhA in Hdr. eapply dir_entries_live; [done..|].
    rewrite Hfiles. left. }
  by rewrite (bind_Ok _ _ _ _ _ (get_file_Ok _ _ _ Hf)).
Qed.

Lemma so_on_job_finished P w l d s :
  registry_inv s → dir_entries_ok s → d ∈ templates_dirs s →
  stops_only P (on_job_finished w l d s).
Proof.
  revert s. induction l as [|fi l IH]; intros s Hinv Hok Hd; simpl; [apply so_Ok|].
  apply so_bind; [by apply so_on_job_finished_file|]. intros [] s1 H1.
  apply IH.
  - by eapply on_job_finished_file_inv.
  - by eapply on_job_finished_file_dir_ok.
  - destruct (respects_on_job_finished_file dirs_fixed dirs_fixed_fields
                dirs_fixed_templ dirs_fixed_entries _ _ _ _ _ _ H1) as [-> _]. done.
Qed.

(** X23.  A listing in a state that can be observed, for any list of files
    and any listed directory, the empty one included: [on_job_finished]
    dereferences neither [NULL] nor freed memory and does not abort.  It
    returns, or it stops at the use of one of the two pointers that are
    never assigned: [type] in [_fm_template_guess_mime_type] (line 198) and
    [error] in [_fm_template_update_from_file] (line 345). *)
Theorem listing_stops_at_unassigned_only w l d s :
  reachable s → d ∈ templates_dirs s →
  (∃ s', on_job_finished w l d s = Ok (tt, s')) ∨
  on_job_finished w l d s = Fault Uninit.
Proof.
  intros Hs Hd. pose proof (dir_ok_reachable _ Hs) as Hok.
  apply reachable_inv in Hs.
  destruct (so_on_job_finished False w l d s Hs Hok Hd)
    as [[[[] s'] H]|[H|[[] _]]]; eauto.
Qed.

Lemma listing_stops_at_unassigned_only_witness :
  (∃ s', on_job_finished w_ex [fi_plain "/home/u/Templates/e.txt";
                               fi_desktop "/home/u/Templates/hidden.desktop"] 2
           s_eight_entries = Ok (tt, s')) ∨
  on_job_finished w_ex [fi_plain "/home/u/Templates/e.txt";
                        fi_desktop "/home/u/Templates/hidden.desktop"] 2
    s_eight_entries = Fault Uninit.
Proof.
  apply listing_stops_at_unassigned_only.
  - exists w_ex, evs_eight_entries. vm_compute. reflexivity.
  - vm_compute. left.
Defined.

(** X24.  In a state that can be observed, an event of a monitor of any
    kind but Deleted, for a listed directory, dereferences neither [NULL]
    nor freed memory - unless it is a Created event for a directory whose
    list of entries is empty.  It returns, or it aborts at a warning or a
    debug message that is fatal, or it stops at the use of the pointer
    [error], which is never assigned, for an entry that does not load
    (line 345). *)
Theorem event_stops_at_unassigned_only w gf evt d dr s :
  reachable s → dir_heap s !! d = Some dr →
  evt ≠ G_FILE_MONITOR_EVENT_DELETED →
  (evt = G_FILE_MONITOR_EVENT_CREATED → dir_files dr ≠ []) →
  stops_only (warning_fatal w) (on_dir_changed w gf evt d s).
Proof.
  intros Hs Hdr Hdel Hcre. pose proof (dir_ok_reachable _ Hs) as Hok.
  apply reachable_inv in Hs as Hinv. unfold on_dir_changed.
  rewrite (bind_Ok _ _ _ _ _ (get_dir_Ok _ _ _ Hdr)).
  destruct (g_file_equal _ _); [apply so_Ok|].
  destruct (find_in_dir_by_basename_total (dir_files dr) (g_file_get_basename gf) s)
    as [found Hfind].
  { intros a Ha. by eapply dir_entries_live. }
  destruct evt; try done; try apply so_Ok.
  - (* changed *)
    rewrite (bind_Ok _ _ _ _ _ Hfind). destruct found as [file|].
    + apply find_in_dir_by_basename_elem in Hfind.
      destruct (Hok _ _ Hdr) as [_ Hent].
      destruct (Hent _ Hfind) as (f & r & Hf & _ & Hr & _).
      rewrite (bind_Ok _ _ _ _ _ (get_file_Ok _ _ _ Hf)).
      destruct (is_desktop_entry f); [|apply so_Ok].
      eapply so_update; [done|]. by eapply reachable_entries_live.
    + apply so_g_warning.
  - (* created *)
    rewrite (bind_Ok _ _ _ _ _ Hfind). destruct found as [file|].
    { apply so_g_debug. }
    apply so_bind; [by apply so_find_for_file|].
    intros [t|] sA Hfor; [|apply so_g_warning].
    destruct (find_for_file_inv _ _ _ _ _ _ Hinv Hfor)
      as (HinvA & HfhA & HdhA & _ & r' & Hr' & _).
    rewrite <- HdhA in Hdr.
    eapply (so_link_new_entry _ w t _ _ d dr r'); [done..|].
    intros s' Hs'. destruct (dir_files dr) as [|first rest] eqn:Hfiles.
    { by destruct Hcre. }
    simpl. destruct (Hs' first) as [f Hf].
    { rewrite HfhA. rewrite HdhA in Hdr. eapply dir_entries_live; [done..|].
      rewrite Hfiles. left. }
    by rewrite (bind_Ok _ _ _ _ _ (get_file_Ok _ _ _ Hf)).
Qed.

Lemma event_stops_at_unassigned_only_witness :
  stops_only (warning_fatal w_ex)
    (on_dir_changed w_ex "/home/u/Templates/new.desktop"
       G_FILE_MONITOR_EVENT_CREATED 2 s_two_entries).
Proof.
  apply (event_stops_at_unassigned_only w_ex _ _ 2
           {| dir_files := [5]; dir_path := "/home/u/Templates";
              monitor := true; user_dir := true |}).
  - exists w_ex, evs_two_entries. vm_compute. reflexivity.
  - vm_compute. reflexivity.
  - discriminate.
  - discriminate.
Defined.

(** ** A Deleted event for an entry *)

Lemma g_object_unref_last w held s t r :
  template_heap s !! t = Some r → ref_count r ≤ 1 →
  g_object_unref w held t s =
  if held then Fault Relock
  else
    match files r with
    | [] => Ok (tt, with_template_heap (delete t (template_heap s))
                      (with_templates (g_list_remove (templates s) t) s))
    | _ :: _ => Abort "template reference failure"
    end.
Proof.
  intros Hr Hle. unfold g_object_unref.
  rewrite (bind_Ok _ _ _ _ _ (get_templ_Ok _ _ _ Hr)).
  rewrite decide_True by lia. unfold fm_template_finalize.
  destruct held; [done|]. rewrite (bind_Ok _ _ s tt s eq_refl).
  unfold mbind at 1, M_bind at 1. unfold modify at 1.
  erewrite bind_Ok; [|by apply get_templ_Ok]. by destruct (files r).
Qed.

Lemma chain_loads_ext w s s' chain :
  (∀ a, a ∈ chain → file_heap s' !! a = file_heap s !! a) →
  chain_loads w s' chain = chain_loads w s chain.
Proof.
  unfold chain_loads. induction chain as [|a rest IH]; intros H; simpl; [done|].
  rewrite IH by (intros x Hx; apply H; by right).
  unfold entry_loads. by rewrite (H a) by left.
Qed.

(** X25.  A Deleted event in a state that can be observed, for a name
    that an entry of the directory has.  The entry is in the chain of its
    template.  If the template holds its last reference, the handler drops
    it under the lock [templates] (line 491), and the finalizer takes the
    lock again (line 90): the outcome is undefined, whatever the chain.  If
    the template holds more than one reference, the handler returns if
    every desktop entry among the other entries of the chain loads, and
    else stops at the use of the pointer [error], which is never assigned
    (line 345). *)
Theorem deleted_event_outcome w gf d dr file s :
  reachable s → dir_heap s !! d = Some dr →
  g_file_equal gf (fm_path_to_gfile (dir_path dr)) = false →
  find_in_dir_by_basename (dir_files dr) (g_file_get_basename gf) s =
    Ok (Some file, s) →
  ∃ f r chain,
    file_heap s !! file = Some f ∧ template_heap s !! templ f = Some r ∧
    chain_unlink file (files r) = Some chain ∧
    let o := on_dir_changed w gf G_FILE_MONITOR_EVENT_DELETED d s in
    if decide (1 < ref_count r) then
      if chain_loads w s chain then ∃ s', o = Ok (tt, s') else o = Fault Uninit
    else o = Fault Relock.
Proof.
  intros Hs Hdr Hne Hfind. pose proof (dir_ok_reachable _ Hs) as Hok.
  apply reachable_inv in Hs as Hinv.
  pose proof (find_in_dir_by_basename_elem _ _ _ _ _ Hfind) as Hin.
  destruct (Hok _ _ Hdr) as [_ Hent].
  destruct (Hent _ Hin) as (f & r & Hf & _ & Hr & Hchain).
  destruct (chain_unlink_Some _ _ Hchain) as (chain & Hunlink).
  exists f, r, chain. split; [done|]. split; [done|]. split; [done|].
  unfold on_dir_changed.
  rewrite (bind_Ok _ _ _ _ _ (get_dir_Ok _ _ _ Hdr)), Hne.
  rewrite (bind_Ok _ _ _ _ _ Hfind).
  rewrite (bind_Ok _ _ _ _ _ (get_file_Ok _ _ _ Hf)).
  rewrite (bind_Ok _ _ _ _ _ (update_dir_Ok _ _ _ _ Hdr)).
  set (s1 := with_dir_heap _ s).
  unfold _fm_template_file_free.
  rewrite (bind_Ok _ _ _ _ _ (get_templ_Ok s1 _ _ Hr)), Hunlink.
  rewrite (bind_Ok _ _ _ _ _ (update_templ_Ok s1 _ _ _ Hr)).
  set (s2 := with_template_heap _ s1).
  assert (template_heap s2 !! templ f = Some (with_files chain r)) as Hr2
    by apply lookup_insert_eq.
  destruct (decide (1 < ref_count r)) as [Hgt|Hle].
  - rewrite (bind_Ok _ _ _ _ _ (g_object_unref_shared w true s2 _ _ Hr2 Hgt)).
    set (s3 := with_template_heap _ s2).
    rewrite (bind_Ok _ _ _ _ _ (get_file_Ok s3 _ _ Hf)).
    rewrite (bind_Ok (modify _) _ s3 tt _ eq_refl).
    set (s4 := with_file_heap _ s3).
    destruct (chain_unlink_NoDup _ _ _ Hunlink (inv_chain_nodup _ Hinv _ _ Hr))
      as [_ Hnot].
    assert (∀ a, a ∈ chain → file_heap s4 !! a = file_heap s !! a) as Hsame.
    { intros a Ha. subst s4. cbn [file_heap with_file_heap].
      rewrite lookup_delete_ne; [done|]. by intros ->. }
    erewrite (update_exact w s4 (templ f)); [|apply lookup_insert_eq|].
    + cbn [files with_files with_ref_count]. rewrite (chain_loads_ext _ _ _ _ Hsame).
      destruct (chain_loads w s chain); [by eexists|done].
    + cbn [files with_files with_ref_count]. intros a Ha.
      pose proof (chain_unlink_elem _ _ _ _ Hunlink Ha) as Ha'.
      destruct (inv_chain_entries _ Hinv _ _ Hr a Ha') as (fa & Hfa & _ & Hda).
      destruct (inv_dirs_live _ Hinv _ Hda) as [da Hdda].
      assert (is_Some (dir_heap s1 !! dir fa)) as [da' Hda'].
      { subst s1. simpl. apply lookup_insert_is_Some.
        destruct (decide (d = dir fa)); [by left|right; eauto]. }
      exists fa, da'. split; [|exact Hda']. by rewrite Hsame.
  - assert (ref_count (with_files chain r) ≤ 1) as Hle' by (simpl; lia).
    pose proof (g_object_unref_last w true s2 _ _ Hr2 Hle') as Hunref.
    unfold mbind at 1, M_bind at 1. by rewrite Hunref.
Qed.

Lemma deleted_event_outcome_witness :
  on_dir_changed w_ex "/usr/share/templates/a.txt" G_FILE_MONITOR_EVENT_DELETED 0
    (final_state ((_fm_templates_init w_ex;; run (take 1 evs_last_deleted))
                    empty_state)) = Fault Relock.
Proof.
  destruct (deleted_event_outcome w_ex "/usr/share/templates/a.txt" 0
              {| dir_files := [4]; dir_path := "/usr/share/templates";
                 monitor := true; user_dir := false |} 4
              (final_state ((_fm_templates_init w_ex;;
                             run (take 1 evs_last_deleted)) empty_state)))
    as (f & r & chain & Hf & Hr & Hchain & H).
  - exists w_ex, (take 1 evs_last_deleted). vm_compute. reflexivity.
  - vm_compute. reflexivity.
  - vm_compute. reflexivity.
  - vm_compute. reflexivity.
  - vm_compute in Hf. injection Hf as <-.
    vm_compute in Hr. injection Hr as <-.
    exact H.
Defined.

(** ** A listing that returns *)

Lemma guess_mime_type_returns w p is_de :
  (is_de = false → g_str_has_suffix (fm_path_get_basename p) ".desktop" = false) →
  ∃ m, ∀ s, _fm_template_guess_mime_type w p is_de s = Ok (m, s).
Proof.
  intros Hname. unfold _fm_template_guess_mime_type. destruct is_de.
  - destruct (match key_file_load w (fm_path_to_str p) with
              | Some _ => _ | None => _ end) as [[[type|] path] basename].
    + by eexists.
    + destruct (g_str_has_suffix basename ".desktop"); by eexists.
  - rewrite (Hname eq_refl). by eexists.
Qed.

Lemma all_load_chain w s chain :
  (∀ a, entry_loads w s a = true) → chain_loads w s chain = true.
Proof. intros H. apply forallb_forall. intros a _. apply H. Qed.

Lemma registry_loads_all w s :
  registry_inv s →
  registry_loads w s = true ↔ ∀ a, entry_loads w s a = true.
Proof.
  intros Hinv. split; [|apply all_load_chain].
  intros H a. destruct (decide (a < next_free s)) as [Hlt|Hge].
  - unfold registry_loads, chain_loads in H.
    rewrite forallb_forall in H. apply H, in_seq. lia.
  - unfold entry_loads. destruct (file_heap s !! a) eqn:Ha; [|done].
    destruct Hge. apply (inv_file_fresh _ Hinv). eauto.
Qed.

Lemma insert_sorted_returns w s t file f r :
  registry_inv s → unlinked s file →
  file_heap s !! file = Some f → templ f = t → dir f ∈ templates_dirs s →
  template_heap s !! t = Some r →
  (∀ a, entry_loads w s a = true) →
  ∃ s', _fm_template_insert_sorted w t file s = Ok (tt, s') ∧
        ∀ a, entry_loads w s' a = true.
Proof.
  intros Hinv Hun Hf Htempl Hdir Hr Hload. unfold _fm_template_insert_sorted.
  rewrite (bind_Ok get _ s s s eq_refl).
  rewrite (bind_Ok _ _ _ _ _ (get_templ_Ok _ _ _ Hr)).
  rewrite (bind_Ok _ _ _ _ _ (get_file_Ok _ _ _ Hf)).
  pose proof Hinv as [_ _ _ Hdn _ Hdv Hce _ Hcs].
  destruct (insert_sorted_loop_spec s file f Hdn Hf (files r) (templates_dirs s) [])
    as (l1 & l2 & Hrun & Hfiles & _); [done..| |by eapply Hcs|].
  { intros a Ha. destruct (Hce t r Hr a Ha) as (fa & ? & ? & ?). eauto. }
  rewrite (bind_Ok _ _ _ _ _ Hrun).
  rewrite (bind_Ok _ _ _ _ _ (update_templ_Ok _ _ _ _ Hr)).
  set (sD := with_template_heap _ s).
  assert (entries_live sD (l1 ++ file :: l2)) as Hlive.
  { intros a [Ha|[->|Ha]%elem_of_cons]%elem_of_app.
    - destruct (Hce t r Hr a) as (fa & Hfa & _ & Hda); [rewrite Hfiles, elem_of_app; eauto|].
      destruct (Hdv _ Hda) as [da Hdda]. eauto.
    - destruct (Hdv _ Hdir) as [da Hdda]. eauto.
    - destruct (Hce t r Hr a) as (fa & Hfa & _ & Hda); [rewrite Hfiles, elem_of_app; eauto|].
      destruct (Hdv _ Hda) as [da Hdda]. eauto. }
  pose proof (update_exact w sD t (with_files (l1 ++ file :: l2) r)
                (lookup_insert_eq _ _ _) Hlive) as Hupd.
  rewrite (all_load_chain w sD _ Hload) in Hupd.
  eexists. split; [exact Hupd|]. intros a.
  rewrite (entry_loads_fields_only w sD _ a (pf_update _ _ _ _ _ Hupd)).
  apply Hload.
Qed.

(** The new entry, from its allocation to its place in the chain. *)
Lemma link_new_entry_returns w t p is_de d dr r (first : M unit) s :
  registry_inv s → dir_heap s !! d = Some dr → template_heap s !! t = Some r →
  (∀ s', (∀ a, is_Some (file_heap s !! a) → is_Some (file_heap s' !! a)) →
         first s' = Ok (tt, s')) →
  (∀ a, entry_loads w s a = true) →
  (is_de = true → is_Some (key_file_load w (fm_path_to_str p))) →
  ∃ s',
    (file ← new_template_file w t p is_de d;
     first;;
     update_dir d (with_dir_files (file :: dir_files dr));;
     _fm_template_insert_sorted w t file) s = Ok (tt, s') ∧
    ∀ a, entry_loads w s' a = true.
Proof.
  intros Hinv Hdr Hr Hfirst Hload Hnew_loads.
  assert (d ∈ templates_dirs s) as Hd by (apply (inv_dirs_listed _ Hinv); eauto).
  destruct (new_template_file w t p is_de d s) as [[file sB]| |] eqn:Hnew; [|done..].
  rewrite (bind_Ok _ _ _ _ _ Hnew).
  destruct (inv_new_file _ _ _ _ _ _ _ _ Hinv Hd Hnew)
    as (HinvB & HunB & HfileB & HthB & HdhB & HdirsB & _).
  assert ((∀ a, is_Some (file_heap s !! a) → is_Some (file_heap sB !! a)) ∧
          ∀ a, entry_loads w sB a = true) as [Hkept HloadB].
  { unfold new_template_file in Hnew.
    apply bind_inv in Hnew as (a' & s1 & [= <- <-] & Hnew).
    apply bind_inv in Hnew as ([] & s2 & [= <-] & [= <- <-]). split.
    - intros a Ha. simpl. apply lookup_insert_is_Some.
      destruct (decide (next_free s = a)); [by left|by right].
    - intros a. specialize (Hload a). unfold entry_loads in *. simpl.
      destruct (decide (next_free s = a)) as [<-|Hne].
      + rewrite lookup_insert_eq. simpl. destruct is_de; [|done].
        by destruct (Hnew_loads eq_refl) as [kf ->].
      + by rewrite lookup_insert_ne. }
  rewrite (bind_Ok _ _ _ _ _ (Hfirst sB Hkept)).
  rewrite <- HdhB in Hdr.
  rewrite (bind_Ok _ _ _ _ _ (update_dir_Ok _ _ _ _ Hdr)).
  set (sC := with_dir_heap _ sB).
  assert (registry_inv sC ∧ template_heap sC = template_heap sB ∧
          file_heap sC = file_heap sB ∧ templates_dirs sC = templates_dirs sB)
    as (HinvC & HthC & HfhC & HdirsC).
  { destruct (inv_update_dir sB d (with_dir_files (file :: dir_files dr)) tt sC HinvB)
      as (? & ? & ? & ? & _); [by apply update_dir_Ok|done]. }
  eapply (insert_sorted_returns w sC t file _ r); [done| | | | | |].
  - intros t' r'. rewrite HthC. apply HunB.
  - rewrite HfhC. exact HfileB.
  - done.
  - rewrite HdirsC, HdirsB. exact Hd.
  - by rewrite HthC, HthB.
  - exact HloadB.
Qed.

Lemma job_file_returns w d dr fi s :
  registry_inv s → dir_entries_ok s → dir_heap s !! d = Some dr →
  (∀ a, entry_loads w s a = true) →
  listable w (dir_path dr) fi = true →
  ∃ s', on_job_finished_file w d fi s = Ok (tt, s') ∧
        ∀ a, entry_loads w s' a = true.
Proof.
  intros Hinv Hok Hdr Hload Hfi. unfold on_job_finished_file.
  rewrite (bind_Ok _ _ _ _ _ (get_dir_Ok _ _ _ Hdr)).
  destruct (find_in_dir_by_path_total (dir_files dr) (fi_path fi) s) as [dup Hdup].
  { intros a Ha. by eapply dir_entries_live. }
  rewrite (bind_Ok _ _ _ _ _ Hdup). destruct dup; [by exists s|].
  unfold listable in Hfi.
  set (p := fm_path_new_child (dir_path dr) (fm_path_get_basename (fi_path fi))) in *.
  destruct (guess_mime_type_returns w p (fi_is_desktop_entry fi)) as [[mime|] Hguess].
  { intros Hde. rewrite Hde in Hfi. by apply negb_true_iff in Hfi. }
  2: { rewrite (bind_Ok _ _ _ _ _ (find_for_file_not_guessed _ _ _ _ (Hguess s))).
       by exists s. }
  destruct (find_for_file_total w p (fi_is_desktop_entry fi) s mime (Hguess s))
    as (t & sA & Hfor & HdhA' & HfhA').
  { intros t Ht. by apply (inv_unique _ Hinv). }
  rewrite (bind_Ok _ _ _ _ _ Hfor).
  destruct (find_for_file_inv _ _ _ _ _ _ Hinv Hfor)
    as (HinvA & HfhA & HdhA & _ & r' & Hr' & _).
  rewrite <- HdhA in Hdr.
  eapply (link_new_entry_returns w t _ _ d dr r'); [done..| | |].
  - intros s' Hs'. destruct (dir_files dr) as [|first rest] eqn:Hfiles; [done|].
    simpl. destruct (Hs' first) as [f Hf].
    { rewrite HfhA. rewrite HdhA in Hdr. eapply dir_entries_live; [done..|].
      rewrite Hfiles. left. }
    by rewrite (bind_Ok _ _ _ _ _ (get_file_Ok _ _ _ Hf)).
  - intros a. specialize (Hload a). unfold entry_loads in *. by rewrite HfhA.
  - intros Hde. rewrite Hde in Hfi.
    by destruct (key_file_load w (fm_path_to_str p)).
Qed.

(** X26.  A listing returns: in a state that can be observed in which
    every desktop entry loads, [on_job_finished] for a listed directory
    returns whenever every file of the list that is reported as a desktop
    entry loads and no other file of the list has a name that ends in
    [.desktop]; and in the state it returns every desktop entry loads. *)
Theorem listing_returns w l d dr s :
  reachable s → dir_heap s !! d = Some dr →
  registry_loads w s = true →
  forallb (listable w (dir_path dr)) l = true →
  ∃ s', on_job_finished w l d s = Ok (tt, s') ∧ registry_loads w s' = true.
Proof.
  intros Hs Hdr Hload Hl. pose proof (dir_ok_reachable _ Hs) as Hok.
  apply reachable_inv in Hs as Hinv. clear Hs.
  assert (∃ dr', dir_heap s !! d = Some dr' ∧ dir_path dr' = dir_path dr) as Hd
    by eauto.
  pose proof (proj1 (registry_loads_all w s Hinv) Hload) as Hall. clear Hload.
  clear Hdr. revert s Hinv Hok Hd Hall.
  induction l as [|fi l IH]; intros s Hinv Hok (dr' & Hdr' & Hpath) Hload; simpl.
  - exists s. split; [done|]. by apply (registry_loads_all w s Hinv).
  - simpl in Hl. apply andb_true_iff in Hl as [Hfi Hl].
    rewrite <- Hpath in Hfi.
    destruct (job_file_returns w d dr' fi s Hinv Hok Hdr' Hload Hfi)
      as (s1 & H1 & Hload1).
    rewrite (bind_Ok _ _ _ _ _ H1). apply (IH Hl).
    + by eapply on_job_finished_file_inv.
    + by eapply on_job_finished_file_dir_ok.
    + destruct (respects_on_job_finished_file dirs_fixed dirs_fixed_fields
                  dirs_fixed_templ dirs_fixed_entries _ _ _ _ _ _ H1) as [_ Hdirs].
      specialize (Hdirs d). rewrite Hdr' in Hdirs.
      inversion Hdirs as [? dr1 (Hp & _) Heq1 Heq2|]. subst.
      exists dr1. split; [done|congruence].
    + exact Hload1.
Qed.

Lemma listing_returns_witness :
  ∃ s', on_job_finished w_ex [fi_plain "/home/u/Templates/e.txt";
                              fi_desktop "/home/u/Templates/hidden.desktop"] 2
          s_two_entries = Ok (tt, s') ∧
        registry_loads w_ex s' = true.
Proof.
  apply (listing_returns w_ex _ 2
           {| dir_files := [5]; dir_path := "/home/u/Templates";
              monitor := true; user_dir := true |}).
  - exists w_ex, evs_two_entries. vm_compute. reflexivity.
  - vm_compute. reflexivity.
  - vm_compute. reflexivity.
  - vm_compute. reflexivity.
Defined.

(** X27.  An event that returns: in a state that can be observed in which
    every desktop entry loads, an event of a monitor of any kind but
    Deleted, for a listed directory, returns or aborts at a warning or a
    debug message that is fatal, provided that a Created event finds an
    entry in the list of the directory and that the file it reports loads
    if its name ends in [.desktop].  In the state it returns in, every
    desktop entry loads. *)
Theorem event_returns w gf evt d dr s :
  reachable s → dir_heap s !! d = Some dr →
  evt ≠ G_FILE_MONITOR_EVENT_DELETED →
  (evt = G_FILE_MONITOR_EVENT_CREATED → dir_files dr ≠ []) →
  registry_loads w s = true →
  (evt = G_FILE_MONITOR_EVENT_CREATED →
   g_str_has_suffix (g_file_get_basename gf) ".desktop" = true →
   is_Some (key_file_load w
              (fm_path_to_str
                 (fm_path_new_child (dir_path dr) (g_file_get_basename gf))))) →
  (∃ s', on_dir_changed w gf evt d s = Ok (tt, s') ∧ registry_loads w s' = true) ∨
  (warning_fatal w ∧ ∃ msg, on_dir_changed w gf evt d s = Abort msg).
Proof.
  intros Hs Hdr Hdel Hcre Hload Hnew. pose proof (dir_ok_reachable _ Hs) as Hok.
  apply reachable_inv in Hs as Hinv.
  pose proof (proj1 (registry_loads_all w s Hinv) Hload) as Hall.
  assert (∀ msg lvl, lvl = LOG_WARNING ∨ lvl = LOG_DEBUG →
            (∃ s', g_log w lvl msg s = Ok (tt, s') ∧ registry_loads w s' = true) ∨
            (warning_fatal w ∧ ∃ msg', g_log w lvl msg s = Abort msg')) as Hlog.
  { intros msg lvl Hlvl. unfold g_log, warning_fatal.
    destruct Hlvl as [-> | ->].
    - destruct (log_fatal w LOG_WARNING); [right; eauto|left; eauto].
    - destruct (log_fatal w LOG_DEBUG); [right; eauto|left; eauto]. }
  unfold on_dir_changed.
  rewrite (bind_Ok _ _ _ _ _ (get_dir_Ok _ _ _ Hdr)).
  destruct (g_file_equal _ _); [left; by exists s|].
  destruct (find_in_dir_by_basename_total (dir_files dr) (g_file_get_basename gf) s)
    as [found Hfind].
  { intros a Ha. by eapply dir_entries_live. }
  destruct evt; try done; try (left; by exists s).
  - (* changed *)
    rewrite (bind_Ok _ _ _ _ _ Hfind). destruct found as [file|].
    + apply find_in_dir_by_basename_elem in Hfind.
      destruct (Hok _ _ Hdr) as [_ Hent].
      destruct (Hent _ Hfind) as (f & r & Hf & _ & Hr & _).
      rewrite (bind_Ok _ _ _ _ _ (get_file_Ok _ _ _ Hf)).
      destruct (is_desktop_entry f); [|left; by exists s].
      pose proof (update_exact w s (templ f) r Hr
                    (reachable_entries_live _ _ _ Hinv Hr)) as Hupd.
      rewrite (all_load_chain w s _ Hall) in Hupd.
      left. eexists. split; [exact Hupd|]. apply all_load_chain. intros a.
      rewrite (entry_loads_fields_only w s _ a (pf_update _ _ _ _ _ Hupd)).
      apply Hall.
    + apply Hlog. by left.
  - (* created *)
    rewrite (bind_Ok _ _ _ _ _ Hfind). destruct found as [file|].
    { apply Hlog. by right. }
    set (p := fm_path_new_child (dir_path dr) (g_file_get_basename gf)) in *.
    set (is_de := g_str_has_suffix (g_file_get_basename gf) ".desktop") in *.
    destruct (guess_mime_type_returns w p is_de) as [[mime|] Hguess].
    { intros Hde. subst p. rewrite basename_new_child; [done|].
      apply g_file_get_basename_is_name. }
    2: { rewrite (bind_Ok _ _ _ _ _ (find_for_file_not_guessed _ _ _ _ (Hguess s))).
         apply Hlog. by left. }
    destruct (find_for_file_total w p is_de s mime (Hguess s))
      as (t & sA & Hfor & _).
    { intros t Ht. by apply (inv_unique _ Hinv). }
    rewrite (bind_Ok _ _ _ _ _ Hfor).
    destruct (find_for_file_inv _ _ _ _ _ _ Hinv Hfor)
      as (HinvA & HfhA & HdhA & _ & r' & Hr' & _).
    rewrite <- HdhA in Hdr.
    destruct (link_new_entry_returns w t p is_de d dr r'
                (store_prev_in_dir (head (dir_files dr))) sA HinvA Hdr Hr')
      as (s' & H' & Hall'); [| |by apply Hnew|].
    + intros s' Hs'. destruct (dir_files dr) as [|first rest] eqn:Hfiles.
      { by destruct Hcre. }
      simpl. destruct (Hs' first) as [f Hf].
      { rewrite HfhA. rewrite HdhA in Hdr. eapply dir_entries_live; [done..|].
        rewrite Hfiles. left. }
      by rewrite (bind_Ok _ _ _ _ _ (get_file_Ok _ _ _ Hf)).
    + intros a. specialize (Hall a). unfold entry_loads in *. by rewrite HfhA.
    + left. exists s'. split; [exact H'|]. by apply all_load_chain.
Qed.

Lemma event_returns_witness :
  (∃ s', on_dir_changed w_ex "/home/u/Templates/link.desktop"
           G_FILE_MONITOR_EVENT_CREATED 2 s_two_entries = Ok (tt, s') ∧
         registry_loads w_ex s' = true) ∨
  (warning_fatal w_ex ∧
   ∃ msg, on_dir_changed w_ex "/home/u/Templates/link.desktop"
            G_FILE_MONITOR_EVENT_CREATED 2 s_two_entries = Abort msg).
Proof.
  apply (event_returns w_ex _ _ 2
           {| dir_files := [5]; dir_path := "/home/u/Templates";
              monitor := true; user_dir := true |}).
  - exists w_ex, evs_two_entries. vm_compute. reflexivity.
  - vm_compute. reflexivity.
  - discriminate.
  - discriminate.
  - vm_compute. reflexivity.
  - intros _ _. vm_compute. eexists. reflexivity.
Defined.
